(** * mypy2cy: the type mapping engine and the line state machine

    A shallow embedding of [mypy2cy.py]: [map_type], the two declaration
    rewriters and [convert_typing_to_cython], with the Python string
    operations and the [re] patterns they rely on, and the registration of
    template rules by [extract_convert_type_mappings], from the parsed
    tree of a file on.

    Text.  A Python [str] is modelled as [list ascii]: a sequence of code
    points in the range 0..255 (Latin-1).  The character tables below
    ([str.isspace], [str.isdigit], the line boundaries of
    [str.splitlines]) are Python's tables restricted to that range.

    Effects.  [print(..., file=sys.stderr)] appends a [diag] to a log that
    every function returns next to its value; an operation that can raise
    in Python (indexing a list) raises in the model as well.

    The engine comes twice.  [map_type] and the functions around it take a
    registry of string templates and nest their calls without bound, which
    is what the annotations of the source describe.  The module [Interp]
    has the same functions as the interpreter runs them: a template is any
    constant that the registration recorded, and the nested calls of
    [map_type] are bounded by the recursion limit.  The two agree on string
    templates as long as there is room for the nested calls. *)

From Stdlib Require Import List Ascii String Arith Lia Bool ZArith Permutation.
From stdpp Require Import gmap strings.
Import ListNotations.

Open Scope list_scope.

(** ** Python strings *)

Abbreviation pystr := (list ascii).

(** A string literal of the source. *)
Definition str (s : string) : pystr := list_ascii_of_string s.

Definition chr (n : nat) : ascii := ascii_of_nat n.
Definition ord (c : ascii) : nat := nat_of_ascii c.

Module Py.

(** [c.isspace()] for a code point below 256. *)
Definition isspace (c : ascii) : bool :=
  let n := ord c in
  ((9 <=? n) && (n <=? 13)) || ((28 <=? n) && (n <=? 32))
  || (n =? 133) || (n =? 160).

(** [c.isdigit()] for a code point below 256: the ASCII digits and the
    superscripts one, two and three. *)
Definition isdigit_char (c : ascii) : bool :=
  let n := ord c in
  ((48 <=? n) && (n <=? 57)) || (n =? 178) || (n =? 179) || (n =? 185).

(** [s.isdigit()]: every character is a digit and there is at least one. *)
Definition isdigit (s : pystr) : bool :=
  match s with [] => false | _ => forallb isdigit_char s end.

Fixpoint lstrip (s : pystr) : pystr :=
  match s with
  | c :: s' => if isspace c then lstrip s' else s
  | [] => []
  end.

Definition rstrip (s : pystr) : pystr := rev (lstrip (rev s)).

(** [s.strip()] *)
Definition strip (s : pystr) : pystr := rstrip (lstrip s).

Definition eqs (a b : pystr) : bool := bool_decide (a = b).

(** [s.startswith(p)] *)
Fixpoint startswith (p s : pystr) : bool :=
  match p, s with
  | [], _ => true
  | a :: p', b :: s' => Ascii.eqb a b && startswith p' s'
  | _ :: _, [] => false
  end.

(** [s.endswith(p)] *)
Definition endswith (p s : pystr) : bool := startswith (rev p) (rev s).

(** [p in s] *)
Fixpoint contains (p s : pystr) : bool :=
  startswith p s ||
  match s with
  | [] => false
  | _ :: s' => contains p s'
  end.

(** [s.replace(old, new)]: the occurrences of [old] are found from left to
    right and do not overlap; [skip] counts the characters of an occurrence
    that are still to be dropped.  With an empty [old], Python puts [new]
    before every character and at the end. *)
Fixpoint replace_from (old new : pystr) (skip : nat) (s : pystr) : pystr :=
  match s with
  | [] => []
  | c :: s' =>
      match skip with
      | S k => replace_from old new k s'
      | O =>
          if startswith old s
          then new ++ replace_from old new (length old - 1) s'
          else c :: replace_from old new 0 s'
      end
  end.

Definition replace (old new s : pystr) : pystr :=
  match old with
  | [] => new ++ flat_map (fun c => c :: new) s
  | _ :: _ => replace_from old new 0 s
  end.

(** [s.split(sep)] for a separator of one character: never an empty list. *)
Fixpoint split (sep : ascii) (s : pystr) : list pystr :=
  match s with
  | [] => [[]]
  | c :: s' =>
      if Ascii.eqb c sep then [] :: split sep s'
      else match split sep s' with
           | h :: t => (c :: h) :: t
           | [] => [[c]]
           end
  end.

(** [s.split(sep, 1)]: at most one cut, at the first separator. *)
Fixpoint split1 (sep : ascii) (s : pystr) : list pystr :=
  match s with
  | [] => [[]]
  | c :: s' =>
      if Ascii.eqb c sep then [[]; s']
      else match split1 sep s' with
           | h :: t => (c :: h) :: t
           | [] => [[c]]
           end
  end.

(** [sep.join(parts)] *)
Fixpoint join (sep : pystr) (parts : list pystr) : pystr :=
  match parts with
  | [] => []
  | [x] => x
  | x :: rest => x ++ sep ++ join sep rest
  end.

(** An index of a slice: negative counts from the end, then clamped. *)
Definition clamp (len : nat) (i : Z) : nat :=
  if (i <? 0)%Z then Z.to_nat (Z.max 0 (Z.of_nat len + i))
  else Nat.min (Z.to_nat i) len.

(** [s[a:b]] *)
Definition slice (a b : Z) (s : pystr) : pystr :=
  let lo := clamp (length s) a in
  let hi := clamp (length s) b in
  firstn (hi - lo) (skipn lo s).

(** The line boundaries of [str.splitlines] below 256: LF, VT, FF, CR, FS,
    GS, RS and NEL; CR LF counts as one boundary. *)
Definition is_linebreak (c : ascii) : bool :=
  let n := ord c in
  ((10 <=? n) && (n <=? 13)) || ((28 <=? n) && (n <=? 30)) || (n =? 133).

(** [splitlines_from cur s]: [cur] is the line being read, reversed.  A
    boundary closes the line; what is left at the end of the text is a line
    only when it is not empty. *)
Fixpoint splitlines_from (cur : pystr) (s : pystr) : list pystr :=
  match s with
  | [] => match cur with [] => [] | _ => [rev cur] end
  | c :: s' =>
      if is_linebreak c then
        match s' with
        | d :: s'' =>
            if (ord c =? 13) && (ord d =? 10)
            then rev cur :: splitlines_from [] s''
            else rev cur :: splitlines_from [] s'
        | [] => [rev cur]
        end
      else splitlines_from (c :: cur) s'
  end.

(** [s.splitlines()] *)
Definition splitlines (s : pystr) : list pystr := splitlines_from [] s.

End Py.

(** ** The patterns of [re]

    Every repetition in the patterns of the source is over a single
    character class, so the syntax has a greedy and a lazy star of a class
    rather than of a pattern.  [re.match] is a backtracking search: the
    matcher below tries the alternatives in Python's order and returns the
    groups of the first success. *)

Module Re.

Inductive regex : Type :=
| Eps                                  (* the empty pattern *)
| Bol                                  (* ^ *)
| Eol                                  (* $ *)
| Chr (p : ascii -> bool)              (* one character of a class *)
| Star (p : ascii -> bool)             (* p*  greedy *)
| StarLazy (p : ascii -> bool)         (* p*? *)
| Seq (r1 r2 : regex)
| Opt (r : regex)                      (* (r)?  greedy *)
| Grp (n : nat) (r : regex).           (* capturing group number n *)

Abbreviation groups := (gmap nat pystr).

(** The continuation receives the position, the rest of the subject and the
    groups set so far. *)
Abbreviation cont := (nat -> pystr -> groups -> option groups).

Fixpoint star_greedy (p : ascii -> bool) (pos : nat) (s : pystr)
    (g : groups) (k : cont) : option groups :=
  match s with
  | c :: s' =>
      if p c then
        match star_greedy p (S pos) s' g k with
        | Some r => Some r
        | None => k pos s g
        end
      else k pos s g
  | [] => k pos s g
  end.

Fixpoint star_lazy (p : ascii -> bool) (pos : nat) (s : pystr)
    (g : groups) (k : cont) : option groups :=
  match k pos s g with
  | Some r => Some r
  | None =>
      match s with
      | c :: s' => if p c then star_lazy p (S pos) s' g k else None
      | [] => None
      end
  end.

(** [$] without MULTILINE: at the end, or before a newline that ends the
    subject. *)
Definition at_eol (s : pystr) : bool :=
  match s with
  | [] => true
  | [c] => ord c =? 10
  | _ => false
  end.

Fixpoint run (r : regex) (pos : nat) (s : pystr) (g : groups) (k : cont)
    : option groups :=
  match r with
  | Eps => k pos s g
  | Bol => if pos =? 0 then k pos s g else None
  | Eol => if at_eol s then k pos s g else None
  | Chr p =>
      match s with
      | c :: s' => if p c then k (S pos) s' g else None
      | [] => None
      end
  | Star p => star_greedy p pos s g k
  | StarLazy p => star_lazy p pos s g k
  | Seq r1 r2 => run r1 pos s g (fun pos' s' g' => run r2 pos' s' g' k)
  | Opt r1 =>
      match run r1 pos s g k with
      | Some res => Some res
      | None => k pos s g
      end
  | Grp n r1 =>
      run r1 pos s g
        (fun pos' s' g' => k pos' s' (<[n := firstn (pos' - pos) s]> g'))
  end.

(** [re.match(r, s)]: anchored at the start of [s], not at its end. *)
Definition rmatch (r : regex) (s : pystr) : option groups :=
  run r 0 s ∅ (fun _ _ g => Some g).

(** [m.group(n)]: [None] for a group that took no part in the match. *)
Definition group (m : groups) (n : nat) : option pystr := m !! n.

(** Pattern syntax. *)
Fixpoint seq (rs : list regex) : regex :=
  match rs with
  | [] => Eps
  | [r] => r
  | r :: rs' => Seq r (seq rs')
  end.

Definition lit (c : ascii) : regex := Chr (Ascii.eqb c).
Definition plus (p : ascii -> bool) : regex := Seq (Chr p) (Star p).

(** Character classes. *)
Definition between (lo hi : nat) (c : ascii) : bool :=
  (lo <=? ord c) && (ord c <=? hi).
Definition just (ch : ascii) (c : ascii) : bool := Ascii.eqb ch c.

(** [[a-zA-Z_]] *)
Definition ident_start (c : ascii) : bool :=
  between 97 122 c || between 65 90 c || just "_" c.
(** [[a-zA-Z0-9_]] *)
Definition ident_char (c : ascii) : bool :=
  between 97 122 c || between 65 90 c || between 48 57 c || just "_" c.
(** [[a-zA-Z0-9_\\.]] in a raw string: a backslash and a dot are members. *)
Definition dotted_char (c : ascii) : bool :=
  ident_char c || just "\" c || just "." c.
(** [[a-zA-Z0-9_\[\], \.]] *)
Definition type_char (c : ascii) : bool :=
  ident_char c || just "[" c || just "]" c || just "," c || just " " c || just "." c.
(** [\s] for a [str] pattern *)
Definition space (c : ascii) : bool := Py.isspace c.
(** [.] without DOTALL *)
Definition dot (c : ascii) : bool := negb (ord c =? 10).
(** [[^#\n]] *)
Definition not_hash_nl (c : ascii) : bool :=
  negb (just "#" c) && negb (ord c =? 10).

(** The first pattern of [map_type], written with spaces between its parts:
    ^ ( [a-zA-Z_] [a-zA-Z0-9_]* ) \[ ( .* ) \] $ *)
Definition generic_pattern : regex :=
  seq [Bol; Grp 1 (Seq (Chr ident_start) (Star ident_char));
       lit "["; Grp 2 (Star dot); lit "]"; Eol].

(** The second pattern of [map_type]:
    ^ ( [a-zA-Z_] [a-zA-Z0-9_\\.]* ) $ *)
Definition name_pattern : regex :=
  seq [Bol; Grp 1 (Seq (Chr ident_start) (Star dotted_char)); Eol].

(** The pattern of [convert_variable_declaration]:
    ^ ( \s* ) (?P<var> [a-zA-Z_] [a-zA-Z0-9_]* ) \s* : \s*
    (?P<type> [a-zA-Z_] [a-zA-Z0-9_\[\], \.]* )
    (?P<assign> \s* = \s* [^#\n]* )?  (?P<comment> \s* # .* )?  $
    The named groups var, type, assign and comment are the groups 2, 3, 4
    and 5. *)
Definition variable_pattern : regex :=
  seq [Bol; Grp 1 (Star space);
       Grp 2 (Seq (Chr ident_start) (Star ident_char));
       Star space; lit ":"; Star space;
       Grp 3 (Seq (Chr ident_start) (Star type_char));
       Opt (Grp 4 (seq [Star space; lit "="; Star space; Star not_hash_nl]));
       Opt (Grp 5 (seq [Star space; lit "#"; Star dot]));
       Eol].

(** The pattern of [convert_function_definition]:
    ^ ( \s* ) def \s+ ( [a-zA-Z_] [a-zA-Z0-9_]* ) \s* \( ( .*? ) \) \s*
    ( -> \s* ( [a-zA-Z_] [a-zA-Z0-9_\[\], \.]* ) )?  \s* : $ *)
Definition function_pattern : regex :=
  seq [Bol; Grp 1 (Star space);
       lit "d"; lit "e"; lit "f"; plus space;
       Grp 2 (Seq (Chr ident_start) (Star ident_char));
       Star space; lit "("; Grp 3 (StarLazy dot); lit ")"; Star space;
       Opt (Grp 4 (seq [lit "-"; lit ">"; Star space;
                        Grp 5 (Seq (Chr ident_start) (Star type_char))]));
       Star space; lit ":"; Eol].

(** The test of the main loop:  ^ \s* [a-zA-Z_] [a-zA-Z0-9_]* \s* : *)
Definition annotation_pattern : regex :=
  seq [Bol; Star space; Chr ident_start; Star ident_char; Star space;
       lit ":"].

(** What a successful run of the matcher amounts to: [derives r pos w rest
    g g'] says that [r], started at position [pos] in front of [w ++ rest]
    with the groups [g], takes the text [w] and leaves the groups [g'].
    The relation forgets the order in which the matcher tries things. *)
Inductive derives : regex -> nat -> pystr -> pystr -> groups -> groups -> Prop :=
| d_eps pos rest g : derives Eps pos [] rest g g
| d_bol rest g : derives Bol 0 [] rest g g
| d_eol pos rest g : at_eol rest = true -> derives Eol pos [] rest g g
| d_chr p c pos rest g : p c = true -> derives (Chr p) pos [c] rest g g
| d_star p w pos rest g :
    forallb p w = true -> derives (Star p) pos w rest g g
| d_star_lazy p w pos rest g :
    forallb p w = true -> derives (StarLazy p) pos w rest g g
| d_seq r1 r2 pos w1 w2 rest g g1 g2 :
    derives r1 pos w1 (w2 ++ rest) g g1 ->
    derives r2 (pos + length w1) w2 rest g1 g2 ->
    derives (Seq r1 r2) pos (w1 ++ w2) rest g g2
| d_opt_take r pos w rest g g' :
    derives r pos w rest g g' -> derives (Opt r) pos w rest g g'
| d_opt_skip r pos rest g : derives (Opt r) pos [] rest g g
| d_grp n r pos w rest g g' :
    derives r pos w rest g g' -> derives (Grp n r) pos w rest g (<[n := w]> g').

End Re.

(** A plain identifier: the text that the group [[a-zA-Z_][a-zA-Z0-9_]*]
    of the patterns matches as a whole. *)
Definition is_identifier (s : pystr) : bool :=
  match s with
  | c :: w => Re.ident_start c && forallb Re.ident_char w
  | [] => false
  end.

(** [ch not in s] for a character. *)
Definition lacks (ch : ascii) (s : pystr) : bool :=
  forallb (fun c => negb (Ascii.eqb ch c)) s.

(** ** Diagnostics and exceptions *)

(** The three messages the program prints on [sys.stderr]. *)
Inductive diag : Type :=
| ParamCountMismatch (name : pystr)
| ExpectedParams (base : pystr)
| Unrecognized (pytype : pystr).

(** The text of a message, as the f-strings of the source build it. *)
Definition render (d : diag) : pystr :=
  match d with
  | ParamCountMismatch name =>
      str "[!] Parameter count mismatch for '" ++ name ++ str "'"
  | ExpectedParams base =>
      str "[!] Expected parameters for '" ++ base
      ++ str "', but none provided"
  | Unrecognized pytype =>
      str "[!] Unrecognized type '" ++ pytype ++ str "', defaulting to object"
  end.

Inductive exn : Type :=
| IndexError        (* a list index out of range *)
| AttributeError    (* a method that the value does not have *)
| ValueError        (* a sequence unpacked into the wrong number of names *)
| TypeError         (* an argument or an item of the wrong type *)
| RecursionError.   (* more nested calls than the interpreter allows *)

(** The outcome of a call: a value and what it printed, an exception and
    what was printed before it, or a recursion that ran out of fuel. *)
Inductive res (A : Type) : Type :=
| Done (a : A) (err : list diag)
| Raised (e : exn) (err : list diag)
| OutOfFuel.
Arguments Done {A} a err.
Arguments Raised {A} e err.
Arguments OutOfFuel {A}.

Global Instance res_ret : MRet res := fun A a => Done a [].
Global Instance res_bind : MBind res := fun A B f m =>
  match m with
  | Done a l =>
      match f a with
      | Done b l' => Done b (l ++ l')
      | Raised e l' => Raised e (l ++ l')
      | OutOfFuel => OutOfFuel
      end
  | Raised e l => Raised e l
  | OutOfFuel => OutOfFuel
  end.

(** [print(msg, file=sys.stderr)] *)
Definition report (d : diag) : res unit := Done tt [d].
Definition raise {A : Type} (e : exn) : res A := Raised e [].

(** The value of a call that returned. *)
Definition value {A : Type} (m : res A) : option A :=
  match m with Done a _ => Some a | _ => None end.
(** What a call printed. *)
Definition stderr {A : Type} (m : res A) : list diag :=
  match m with Done _ l => l | Raised _ l => l | OutOfFuel => [] end.

(** ** The type mapping engine *)

(** [TYPE_MAP] *)
Definition TYPE_MAP : gmap pystr pystr :=
  list_to_map
    [ (str "int", str "int"); (str "float", str "float");
      (str "str", str "str"); (str "bool", str "bint");
      (str "bytes", str "bytes"); (str "list", str "list");
      (str "tuple", str "tuple"); (str "dict", str "dict");
      (str "set", str "set"); (str "None", str "void");
      (str "Any", str "object") ].

(** Truth of a value that is a string or None. *)
Definition truthy (o : option pystr) : bool :=
  match o with Some (_ :: _) => true | _ => false end.

(** [a or b] where [b] is a string. *)
Definition or_else (a : option pystr) (b : pystr) : pystr :=
  match a with Some (c :: s) => c :: s | _ => b end.

(** The loop of [unwrap_literal]; every turn shortens [typ], so
    [length typ] turns are enough. *)
Definition wrapped (typ : pystr) : bool :=
  Py.startswith (str "Literal[") typ && Py.endswith (str "]") typ.

Fixpoint unwrap_literal_loop (turns : nat) (typ : pystr) : pystr :=
  match turns with
  | O => typ
  | S n => if wrapped typ then unwrap_literal_loop n (Py.slice 8 (-1) typ)
           else typ
  end.

Definition unwrap_literal (typ : pystr) : pystr :=
  unwrap_literal_loop (length typ) typ.

(** [substitutions[key] = val] on a dict, which keeps the order in which
    its keys were first inserted. *)
Fixpoint dict_set (key val : pystr) (d : list (pystr * pystr))
    : list (pystr * pystr) :=
  match d with
  | [] => [(key, val)]
  | (k, v) :: d' =>
      if Py.eqs k key then (k, val) :: d' else (k, v) :: dict_set key val d'
  end.

(** The dict that the first loop of [try_custom_template] builds from the
    parameter names and the mapped arguments. *)
Definition bindings (keys vals : list pystr) : list (pystr * pystr) :=
  fold_left (fun d kv => dict_set (fst kv) (snd kv) d) (combine keys vals) [].

(** The second loop of [try_custom_template]. *)
Definition substitute (template : pystr) (substitutions : list (pystr * pystr))
    : pystr :=
  fold_left
    (fun t kv => Py.replace (str "{" ++ fst kv ++ str "}") (snd kv) t)
    substitutions template.

Section Engine.

(** The registry [CUSTOM_TYPE_MAP], filled before any conversion, and the
    module flag [gen_allow]. *)
Variable CUSTOM_TYPE_MAP : gmap pystr (pystr * list pystr).
Variable gen_allow : bool.

Section Body.

(** [map_type] calls itself; [map_type_rec] stands for these calls. *)
Variable map_type_rec : pystr -> res pystr.

(** The first loop of [try_custom_template]. *)
Fixpoint bind_params (pairs : list (pystr * pystr))
    (substitutions : list (pystr * pystr)) : res (list (pystr * pystr)) :=
  match pairs with
  | [] => mret substitutions
  | (key, val) :: rest =>
      let unwrapped := unwrap_literal (Py.strip val) in
      mapped ← map_type_rec unwrapped;
      bind_params rest (dict_set key mapped substitutions)
  end.

Definition try_custom_template (name : pystr) (args : list pystr)
    : res (option pystr) :=
  match CUSTOM_TYPE_MAP !! name with
  | None => mret None
  | Some (template, param_keys) =>
      if negb (length param_keys =? length args) then
        _ ← report (ParamCountMismatch name); mret None
      else
        substitutions ← bind_params (combine param_keys args) [];
        mret (Some (substitute template substitutions))
  end.

(** Lines 110 to 123: the bare name. *)
Definition lookup_name (pytype base : pystr) : res pystr :=
  match CUSTOM_TYPE_MAP !! base with
  | Some (template, param_keys) =>
      _ ← (match param_keys with
           | _ :: _ => report (ExpectedParams base)
           | [] => mret tt
           end);
      mret template
  | None =>
      let base := unwrap_literal base in
      let outer := Re.rmatch Re.name_pattern base in
      let key := match outer with Some m => Re.group m 1 | None => None end in
      let result :=
        or_else (key ≫= fun k => TYPE_MAP !! k) (or_else key (str "object")) in
      _ ← (if Py.eqs result (str "object")
           then report (Unrecognized pytype) else mret tt);
      mret result
  end.

(** [typename, args_str = match.groups()]: both groups lie outside every
    optional part of the pattern. *)
Definition groups2 (m : Re.groups) : res (pystr * pystr) :=
  match Re.group m 1, Re.group m 2 with
  | Some a, Some b => mret (a, b)
  | _, _ => raise AttributeError
  end.

(** Lines 101 to 108: the built-in containers. [None] when no branch
    returns. *)
Definition builtin_generic (typename : pystr) (args : list pystr)
    : res (option pystr) :=
  if Py.eqs typename (str "tuple") then
    mapped ← mapM map_type_rec args;
    mret (Some (str "(" ++ Py.join (str ", ") mapped ++ str ")"))
  else if existsb (Py.eqs typename)
            [str "tuple"; str "set"; str "list"; str "dict"] || gen_allow then
    match args with
    | a0 :: _ =>
        inner ← map_type_rec (unwrap_literal a0);
        mret (Some (typename ++ str "[" ++ inner ++ str "]"))
    | [] => raise IndexError
    end
  else mret None.

(** Lines 101 to 123: what [map_type] does once no template rule has
    produced a result for [typename[args]]. *)
Definition after_template (typename : pystr) (args : list pystr)
    (pytype base : pystr) : res pystr :=
  builtin ← builtin_generic typename args;
  match builtin with
  | Some r => mret r
  | None => lookup_name pytype base
  end.

Definition map_type_body (pytype : pystr) : res pystr :=
  let base := Py.replace (str " ") [] (Py.strip pytype) in
  if Py.isdigit base then mret base
  else
    match Re.rmatch Re.generic_pattern base with
    | Some m =>
        '(typename, args_str) ← groups2 m;
        let args := map Py.strip (Py.split "," args_str) in
        substituted ← try_custom_template typename args;
        if truthy substituted then mret (default [] substituted)
        else after_template typename args pytype base
    | None => lookup_name pytype base
    end.

End Body.

(** One unit of fuel per nested call. *)
Fixpoint map_type_fuel (fuel : nat) (pytype : pystr) : res pystr :=
  match fuel with
  | O => OutOfFuel
  | S fuel' => map_type_body (map_type_fuel fuel') pytype
  end.

(** [map_type]: a nested call is on a strictly shorter string, so this
    much fuel is never used up.  This is the engine on a registry of string
    templates and on a stack without bound; [Interp.map_type] below has the
    recursion limit of the interpreter and takes every constant as a
    template, and returns the same as long as it has room (lemma
    [map_type_agree]). *)
Definition map_type (pytype : pystr) : res pystr :=
  map_type_fuel (S (length pytype)) pytype.

(** ** The declaration rewriters *)

(** How an f-string shows a group: the text [None] for a group that is not
    set. *)
Definition fmt (o : option pystr) : pystr := default (str "None") o.

(** [m.group(n) or ""] *)
Definition or_empty (o : option pystr) : pystr := or_else o [].

Definition convert_variable_declaration (line : pystr) : res pystr :=
  match Re.rmatch Re.variable_pattern line with
  | None => mret line
  | Some m =>
      let indent := Re.group m 1 in
      let var := Re.group m 2 in
      typ ← match Re.group m 3 with
            | Some t => map_type t
            | None => raise AttributeError
            end;
      let assign := or_empty (Re.group m 4) in
      let comment := or_empty (Re.group m 5) in
      mret (fmt indent ++ str "cdef " ++ typ ++ str " " ++ fmt var
            ++ str " " ++ assign ++ comment)
  end.

(** One turn of the loop over [params.split(",")]: what is appended to
    [param_list], if anything. *)
Definition convert_param (param : pystr) : res (option pystr) :=
  let param := Py.strip param in
  match param with
  | [] => mret None
  | _ :: _ =>
      if Py.contains (str ":") param then
        match map Py.strip (Py.split1 ":" param) with
        | [pname; ptype] =>
            if Py.eqs pname (str "self") then mret (Some (str "self"))
            else
              mapped ← map_type ptype;
              mret (Some (mapped ++ str " " ++ pname))
        | _ => raise ValueError
        end
      else mret (Some param)
  end.

(** A parameter as the specification words it (section 8): the type of
    every annotated parameter is mapped.  The source has a test on the name
    self in addition, see [convert_param]. *)
Definition specified_param (param : pystr) : res (option pystr) :=
  let param := Py.strip param in
  match param with
  | [] => mret None
  | _ :: _ =>
      if Py.contains (str ":") param then
        match map Py.strip (Py.split1 ":" param) with
        | [pname; ptype] =>
            mapped ← map_type ptype;
            mret (Some (mapped ++ str " " ++ pname))
        | _ => raise ValueError
        end
      else mret (Some param)
  end.

Definition convert_function_definition (merged_line : pystr) : res pystr :=
  match Re.rmatch Re.function_pattern merged_line with
  | None => mret merged_line
  | Some m =>
      let indent := Re.group m 1 in
      let fname := Re.group m 2 in
      let params := Re.group m 3 in
      let ret_type := Re.group m 5 in
      ret_cytype ← (if truthy ret_type then map_type (default [] ret_type)
                    else mret (str "void"));
      param_list ← match params with
                   | Some ps => mapM convert_param (Py.split "," ps)
                   | None => raise AttributeError
                   end;
      mret (fmt indent ++ str "cpdef " ++ ret_cytype ++ str " " ++ fmt fname
            ++ str "(" ++ Py.join (str ", ") (omap id param_list)
            ++ str "):")
  end.

(** The output of the variable rewriter as the specification writes it
    (section 4.4): indent, the keyword, the mapped type and the name
    separated by single spaces, then the initializer and the comment. *)
Definition specified_declaration (indent typ var assign comment : pystr)
    : pystr :=
  indent ++ str "cdef" ++ str " " ++ typ ++ str " " ++ var ++ assign ++ comment.

(** ** The line state machine *)

Definition file_level_enabled (lines : list pystr) : bool :=
  existsb (Py.contains (str "use-cython")) (firstn 3 lines).

(** The variables of the loop of [convert_typing_to_cython]. *)
Record state : Type := State {
  i : nat;
  in_block : bool;
  next_line_compiled : bool;
  result : list pystr
}.

(** The inner loop that gathers a function header: the lines read after
    [line], where [rest] is [lines[i+1:]].  It stops after a line whose
    stripped text ends with a colon, or at the end of the buffer. *)
Fixpoint header_rest (line : pystr) (rest : list pystr) : list pystr :=
  if Py.endswith (str ":") (Py.strip line) then []
  else match rest with
       | [] => []
       | next :: rest' => next :: header_rest next rest'
       end.

(** The tests of the main loop on a line, in the order of the source. *)
Definition is_compile_marker (line : pystr) : bool :=
  Py.eqs (Py.strip line) (str "@compile").
Definition is_region_begin (line : pystr) : bool :=
  Py.startswith (str "#") (Py.strip line)
  && Py.contains (str "cython-begin") (Py.strip line).
Definition is_region_end (line : pystr) : bool :=
  Py.startswith (str "#") (Py.strip line)
  && Py.contains (str "cython-end") (Py.strip line).
Definition is_decorator (line : pystr) : bool :=
  Py.startswith (str "@") (Py.strip line).
Definition is_def (line : pystr) : bool :=
  Py.startswith (str "def ") (Py.strip line).
Definition is_annotation (line : pystr) : bool :=
  bool_decide (is_Some (Re.rmatch Re.annotation_pattern line)).

(** A line that is none of the three markers: the loop goes on to compute
    [compile_now] for it. *)
Definition ordinary (line : pystr) : bool :=
  negb (is_compile_marker line) && negb (is_region_begin line)
  && negb (is_region_end line).

(** What the loop does with an ordinary line when [compile_now] is true:
    the line it emits and the number of further lines it consumes, where
    [rest] is [lines[i+1:]]. *)
Definition convert_here (line : pystr) (rest : list pystr)
    : res (pystr * nat) :=
  if is_decorator line then mret (line, 0)
  else if is_def line then
    let more := header_rest line rest in
    out ← convert_function_definition (Py.join (str " ") (line :: more));
    mret (out, length more)
  else if is_annotation line then
    out ← convert_variable_declaration line; mret (out, 0)
  else mret (line, 0).

Section Machine.

Variable lines : list pystr.
Variable file_wide : bool.

(** [result.append(out); i += 1; continue] *)
Definition emit (st : state) (flag : bool) (out : pystr) : state :=
  State (S (i st)) (in_block st) flag (result st ++ [out]).

(** One turn of the main loop, entered with [i < len(lines)]. *)
Definition loop_body (st : state) : res state :=
  match lines !! i st with
  | None => raise IndexError
  | Some line =>
      let stripped := Py.strip line in
      if Py.eqs stripped (str "@compile") then
        mret (emit st true line)
      else if Py.startswith (str "#") stripped
              && Py.contains (str "cython-begin") stripped then
        mret (State (S (i st)) true (next_line_compiled st)
                    (result st ++ [line]))
      else if Py.startswith (str "#") stripped
              && Py.contains (str "cython-end") stripped then
        mret (State (S (i st)) false (next_line_compiled st)
                    (result st ++ [line]))
      else
        let compile_now := file_wide || in_block st || next_line_compiled st in
        if Py.startswith (str "@") stripped then
          mret (emit st false line)
        else if Py.startswith (str "def ") stripped && compile_now then
          let more := header_rest line (skipn (S (i st)) lines) in
          let merged := Py.join (str " ") (line :: more) in
          out ← convert_function_definition merged;
          mret (State (S (i st + length more)) (in_block st) false
                      (result st ++ [out]))
        else if compile_now
                && bool_decide (is_Some (Re.rmatch Re.annotation_pattern line))
        then
          out ← convert_variable_declaration line;
          mret (emit st false out)
        else mret (emit st false line)
  end.

(** [while i < len(lines)]: every turn moves [i] forward, so [len(lines)]
    turns are enough. *)
Fixpoint while_loop (turns : nat) (st : state) : res state :=
  if i st <? length lines then
    match turns with
    | O => OutOfFuel
    | S n => st' ← loop_body st; while_loop n st'
    end
  else mret st.

End Machine.

(** The loop of [convert_typing_to_cython] on the lines of the source,
    from its initial state. *)
Definition convert_lines (lines : list pystr) (force_global : bool)
    : res (list pystr) :=
  let file_wide := force_global || file_level_enabled lines in
  st ← while_loop lines file_wide (length lines) (State 0 false false []);
  mret (result st).

Definition convert_typing_to_cython (source : pystr) (force_global : bool)
    : res pystr :=
  let lines := Py.splitlines source in
  out ← convert_lines lines force_global;
  mret (Py.join [chr 10] out).

End Engine.

(** The arguments of a generic as the specification counts them (section
    4.2, step 4a): the pieces between the commas that lie outside every
    bracket.  [depth] counts the open brackets and [cur] is the piece being
    read, reversed.  The source splits on every comma instead. *)
Fixpoint top_level_from (depth : nat) (cur : pystr) (s : pystr) : list pystr :=
  match s with
  | [] => [rev cur]
  | c :: s' =>
      if Ascii.eqb c "[" then top_level_from (S depth) (c :: cur) s'
      else if Ascii.eqb c "]" then top_level_from (pred depth) (c :: cur) s'
      else if Ascii.eqb c "," && (depth =? 0)
           then rev cur :: top_level_from 0 [] s'
           else top_level_from depth (c :: cur) s'
  end.

Definition top_level_args (s : pystr) : list pystr := top_level_from 0 [] s.

(** What [extract_convert_type_mappings] guarantees of the registry: it
    only records a rule whose template is a non-empty text (line 60). *)
Definition registry_ok (reg : gmap pystr (pystr * list pystr)) : Prop :=
  map_Forall (fun _ rule => fst rule <> []) reg.

(** The registry that [typingcy.py] declares. *)
Definition typingcy : gmap pystr (pystr * list pystr) :=
  list_to_map
    [ (str "memory_View", (str "{Type}[:]", [str "Type"]));
      (str "mv_List", (str "{Type}[:]", [str "Type"]));
      (str "static_List",
        (str "{ArrayType}[{Size}]", [str "ArrayType"; str "Size"])) ].

(** The type list[list[...[int]...]] with [depth] levels of brackets. *)
Fixpoint nested_list (depth : nat) : pystr :=
  match depth with
  | O => str "int"
  | S d => str "list[" ++ nested_list d ++ str "]"
  end.

(** The characters of [nested_list]: no white space, no comma, no line
    feed. *)
Definition tame (c : ascii) : bool :=
  negb (Py.isspace c) && negb (Ascii.eqb " " c) && negb (Ascii.eqb "," c)
  && Re.dot c.

(** For the proof that [map_type] terminates: two stand-ins for its nested
    calls return, and return the same, on [a]. *)
Definition same_done (f f' : pystr -> res pystr) (a : pystr) : Prop :=
  exists r l, f a = Done r l /\ f' a = Done r l.

(** The text ends with a character that [splitlines] takes as a line
    boundary. *)
Fixpoint ends_with_break (s : pystr) : bool :=
  match s with
  | [] => false
  | [c] => Py.is_linebreak c
  | _ :: s' => ends_with_break s'
  end.

(** No character of the text is a line boundary. *)
Definition break_free (s : pystr) : bool :=
  forallb (fun c => negb (Py.is_linebreak c)) s.

(** Carriage return and line feed. *)
Definition CRLF : pystr := [chr 13; chr 10].

(** Line feed, and a text made of lines that each end with one. *)
Definition LF : pystr := [chr 10].
Definition text (ls : list string) : pystr :=
  flat_map (fun l => str l ++ LF) ls.

(** ** Shapes of types and lines

    The texts on which the engine and the rewriters are followed in the
    second part of the development. *)

(** A text inside [n] Literal wrappers. *)
Fixpoint literal_layers (n : nat) (s : pystr) : pystr :=
  match n with
  | O => s
  | S k => str "Literal[" ++ literal_layers k s ++ str "]"
  end.

(** A dotted name: the text that the second pattern of [map_type] takes. *)
Definition is_dotted_name (s : pystr) : bool :=
  match s with
  | c :: w => Re.ident_start c && forallb Re.dotted_char w
  | [] => false
  end.

(** Two outcomes that differ at most by the text that a last message
    quotes. *)
Definition same_but_quote (p q : pystr) (x y : res pystr) : Prop :=
  x = y
  \/ exists r l, x = Done r (l ++ [Unrecognized p])
                 /\ y = Done r (l ++ [Unrecognized q]).

(** The text of a type annotation, as the group
    [[a-zA-Z_][a-zA-Z0-9_\[\], \.]*] of the two rewriters takes it. *)
Definition is_type_text (s : pystr) : bool :=
  match s with
  | c :: w => Re.ident_start c && forallb Re.type_char w
  | [] => false
  end.

(** An initializer: the sign = and a text without # and line feed. *)
Definition is_initializer (s : pystr) : bool :=
  match s with
  | c :: val => Ascii.eqb "=" c && forallb Re.not_hash_nl val
  | [] => false
  end.

(** A comment: the sign # and a text without line feed. *)
Definition is_comment (s : pystr) : bool :=
  match s with
  | c :: words => Ascii.eqb "#" c && forallb Re.dot words
  | [] => false
  end.

(** An optional part of a line: absent, or a text of the given kind. *)
Definition optional (kind : pystr -> bool) (o : option pystr) : bool :=
  match o with Some s => kind s | None => true end.

(** The return annotation of a header: an arrow, white space and a type. *)
Definition arrow (ws : pystr) (ret : option pystr) : pystr :=
  match ret with
  | Some r => str "->" ++ ws ++ r
  | None => []
  end.

(** The groups of a match after an optional group. *)
Definition set_group (n : nat) (o : option pystr) (g : Re.groups) : Re.groups :=
  match o with Some s => <[n := s]> g | None => g end.

(** The continuation that ends a match. *)
Definition finish : Re.cont := fun _ _ g => Some g.

(** The last parts of the variable pattern: the optional comment and the
    end of the line, and the optional initializer before them. *)
Definition comment_tail : Re.regex :=
  Re.Seq (Re.Opt (Re.Grp 5 (Re.seq [Re.Star Re.space; Re.lit "#";
                                    Re.Star Re.dot])))
         Re.Eol.

Definition variable_tail : Re.regex :=
  Re.Seq (Re.Opt (Re.Grp 4 (Re.seq [Re.Star Re.space; Re.lit "=";
                                    Re.Star Re.space;
                                    Re.Star Re.not_hash_nl])))
         comment_tail.

(** The last parts of the function pattern: the optional return
    annotation, the colon and the end of the text. *)
Definition function_tail : Re.regex :=
  Re.seq [Re.Opt (Re.Grp 4 (Re.seq [Re.lit "-"; Re.lit ">"; Re.Star Re.space;
                                    Re.Grp 5 (Re.Seq (Re.Chr Re.ident_start)
                                                (Re.Star Re.type_char))]));
          Re.Star Re.space; Re.lit ":"; Re.Eol].

(** The white space that starts a line. *)
Fixpoint indentation (s : pystr) : pystr :=
  match s with
  | c :: s' => if Py.isspace c then c :: indentation s' else []
  | [] => []
  end.

(** A line that does not open a function header running over several
    lines: it is not a def line, or its stripped text ends with a colon. *)
Definition closed_header (line : pystr) : bool :=
  implb (is_def line) (Py.endswith (str ":") (Py.strip line)).

(** ** The registration of template rules

    [extract_convert_type_mappings] reads a file, parses it with
    [ast.parse] and walks the tree.  The model starts from the tree.  Of
    the syntax it keeps what the function looks at: the class definitions
    with their names and decorators, the calls among the decorators with
    the called function and the positional arguments, and the constants
    among the arguments.  An expression holds no class definition, so the
    children of a node are the statements, and the clauses of statements,
    below it. *)

(** The value of an [ast.Constant]: a string, or a value of another type
    (a number, bytes, True, False, None or Ellipsis).  Of such a value the
    program can observe its truth, whether it is a bytes object, which has
    a method [replace], and the text that an f-string shows for it. *)
Inductive constant : Type :=
| CStr (s : pystr)
| COther (truth : bool) (is_bytes : bool) (shown : pystr).

Global Instance constant_eq_dec : EqDecision constant.
Proof. solve_decision. Defined.

#[warnings="-register-all"]
Inductive expr : Type :=
| Constant (value : constant)
| Name (id : pystr)
| Call (func : expr) (args : list expr)
| OtherExpr.

#[warnings="-register-all"]
Inductive node : Type :=
| ClassDef (name : pystr) (decorator_list : list expr) (body : list node)
| Other (children : list node).

(** [ast.iter_child_nodes], without the expressions. *)
Definition iter_child_nodes (n : node) : list node :=
  match n with
  | ClassDef _ _ body => body
  | Other children => children
  end.

(** The number of nodes of a tree. *)
Fixpoint node_count (n : node) : nat :=
  match n with
  | ClassDef _ _ body => S (list_sum (map node_count body))
  | Other children => S (list_sum (map node_count children))
  end.

(** [ast.walk]: the nodes in breadth-first order.  [todo] is the deque; a
    turn takes its first node and puts the children of that node at its
    end.  There is one turn per node. *)
Fixpoint walk_loop (turns : nat) (todo : list node) : list node :=
  match turns, todo with
  | S n, node :: rest => node :: walk_loop n (rest ++ iter_child_nodes node)
  | _, _ => []
  end.

Definition walk (tree : node) : list node := walk_loop (node_count tree) [tree].

(** [getattr(func, 'id', None)]: only a name has an [id]. *)
Definition func_id (func : expr) : option pystr :=
  match func with Name id => Some id | _ => None end.

(** [getattr(func, 'id', None) == s] *)
Definition id_is (func : expr) (s : string) : bool :=
  match func_id func with Some id => Py.eqs id (str s) | None => false end.

(** The arguments of a call of [type_params] that are string constants. *)
Definition string_constants (args : list expr) : list pystr :=
  omap (fun arg => match arg with
                   | Constant (CStr s) => Some s
                   | _ => None
                   end) args.

(** One turn of the loop over [node.decorator_list], on the variables
    [template] and [params]. *)
Definition scan_decorator (acc : option constant * list pystr) (deco : expr)
    : option constant * list pystr :=
  let '(template, params) := acc in
  match deco with
  | Call func args =>
      if id_is func "convert_type" then
        match args with
        | [Constant v] => (Some v, params)
        | _ => (template, params)
        end
      else if id_is func "type_params" then
        (template, params ++ string_constants args)
      else (template, params)
  | _ => (template, params)
  end.

(** Truth of the value of a constant. *)
Definition truthy_constant (v : constant) : bool :=
  match v with
  | CStr s => match s with [] => false | _ :: _ => true end
  | COther truth _ _ => truth
  end.

(** One turn of the loop over the nodes of the tree. *)
Definition visit (mappings : gmap pystr (constant * list pystr)) (n : node)
    : gmap pystr (constant * list pystr) :=
  match n with
  | ClassDef name decorator_list _ =>
      let '(template, params) :=
        fold_left scan_decorator decorator_list (None, []) in
      match template with
      | Some v =>
          if truthy_constant v then <[name := (v, params)]> mappings
          else mappings
      | None => mappings
      end
  | Other _ => mappings
  end.

(** [extract_convert_type_mappings], from the parsed tree on. *)
Definition extract_convert_type_mappings (tree : node)
    : gmap pystr (constant * list pystr) :=
  fold_left visit (walk tree) ∅.

(** The rules that [map_type] can apply: those with a string template. *)
Definition string_rules (m : gmap pystr (constant * list pystr))
    : gmap pystr (pystr * list pystr) :=
  omap (fun rule => match fst rule with
                    | CStr s => Some (s, snd rule)
                    | COther _ _ _ => None
                    end) m.

(** A class of [typingcy.py]: type_params above convert_type, and a body
    of one statement. *)
Definition decorated (name : string) (template : string) (params : list string)
    : node :=
  ClassDef (str name)
    [Call (Name (str "type_params")) (map (fun p => Constant (CStr (str p))) params);
     Call (Name (str "convert_type")) [Constant (CStr (str template))]]
    [Other []].

(** The tree of [typingcy.py]: two imports, two assignments and three
    decorated classes. *)
Definition typingcy_tree : node :=
  Other [Other []; Other []; Other []; Other [];
         decorated "memory_View" "{Type}[:]" ["Type"];
         decorated "mv_List" "{Type}[:]" ["Type"];
         decorated "static_List" "{ArrayType}[{Size}]" ["ArrayType"; "Size"]].

(** Every node of the tree, the root first. *)
Fixpoint all_nodes (n : node) : list node :=
  n :: match n with
       | ClassDef _ _ body => flat_map all_nodes body
       | Other children => flat_map all_nodes children
       end.

(** A class definition with the given name. *)
Definition named (name : pystr) (n : node) : bool :=
  match n with
  | ClassDef name' _ _ => Py.eqs name' name
  | Other _ => false
  end.

(** What the decorators of a class make of it: the rule that [visit]
    records, if any. *)
Definition class_rule (decorator_list : list expr)
    : option (constant * list pystr) :=
  let '(template, params) :=
    fold_left scan_decorator decorator_list (None, []) in
  match template with
  | Some v => if truthy_constant v then Some (v, params) else None
  | None => None
  end.

(** A decorator that calls the function of the given name. *)
Definition calls (s : string) (deco : expr) : bool :=
  match deco with Call func _ => id_is func s | _ => false end.

(** ** The engine in the interpreter

    [map_type] above is the engine on a registry whose templates are
    strings, as the annotation of [CUSTOM_TYPE_MAP] declares them, and on a
    stack without bound.  The interpreter enforces neither.  The
    registration records every truthy constant as a template (lines 54 to
    61), and the calls of [map_type] nested in one another are bounded by
    the recursion limit.  [Interp] is the engine with both.  A template is
    a [constant], and so is the value that [map_type] returns.  [room] is
    the number of calls of [map_type], nested in one another, that the
    stack has room for: the call after the last of them raises
    RecursionError.  The frames of the other functions that [map_type]
    calls are not counted. *)

(** The registry that holds the given string templates. *)
Definition templates (reg : gmap pystr (pystr * list pystr))
    : gmap pystr (constant * list pystr) :=
  (fun rule => (CStr (fst rule), snd rule)) <$> reg.

(** The number of opening brackets of a text. *)
Fixpoint brackets (s : pystr) : nat :=
  match s with
  | [] => 0
  | c :: s' => (if Ascii.eqb "[" c then 1 else 0) + brackets s'
  end.

Module Interp.

(** What an f-string shows for a value: [format(v, "")]. *)
Definition show (v : constant) : pystr :=
  match v with
  | CStr s => s
  | COther _ _ shown => shown
  end.

(** [substitutions[key] = val] *)
Fixpoint dict_set (key : pystr) (val : constant) (d : list (pystr * constant))
    : list (pystr * constant) :=
  match d with
  | [] => [(key, val)]
  | (k, v) :: d' =>
      if Py.eqs k key then (k, val) :: d' else (k, v) :: dict_set key val d'
  end.

(** [template.replace("{" + key + "}", val)]: a string has the method and
    wants a string as [val]; a bytes object has the method and refuses the
    string that it gets as first argument; no other constant has it. *)
Definition replace_placeholder (template : constant) (key : pystr)
    (val : constant) : res constant :=
  match template with
  | CStr t =>
      match val with
      | CStr v => mret (CStr (Py.replace (str "{" ++ key ++ str "}") v t))
      | COther _ _ _ => raise TypeError
      end
  | COther _ is_bytes _ =>
      if is_bytes then raise TypeError else raise AttributeError
  end.

(** The second loop of [try_custom_template]. *)
Fixpoint substitute (template : constant)
    (substitutions : list (pystr * constant)) : res constant :=
  match substitutions with
  | [] => mret template
  | (key, val) :: rest =>
      template' ← replace_placeholder template key val;
      substitute template' rest
  end.

(** The items of a [join], which must all be strings. *)
Fixpoint strings (items : list constant) : option (list pystr) :=
  match items with
  | [] => Some []
  | CStr s :: rest => cons s <$> strings rest
  | COther _ _ _ :: _ => None
  end.

(** [sep.join(items)] *)
Definition join (sep : pystr) (items : list constant) : res pystr :=
  match strings items with
  | Some parts => mret (Py.join sep parts)
  | None => raise TypeError
  end.

Section Engine.

Variable CUSTOM_TYPE_MAP : gmap pystr (constant * list pystr).
Variable gen_allow : bool.

Section Body.

Variable map_type_rec : pystr -> res constant.

(** The first loop of [try_custom_template]. *)
Fixpoint bind_params (pairs : list (pystr * pystr))
    (substitutions : list (pystr * constant))
    : res (list (pystr * constant)) :=
  match pairs with
  | [] => mret substitutions
  | (key, val) :: rest =>
      let unwrapped := unwrap_literal (Py.strip val) in
      mapped ← map_type_rec unwrapped;
      bind_params rest (dict_set key mapped substitutions)
  end.

Definition try_custom_template (name : pystr) (args : list pystr)
    : res (option constant) :=
  match CUSTOM_TYPE_MAP !! name with
  | None => mret None
  | Some (template, param_keys) =>
      if negb (length param_keys =? length args) then
        _ ← report (ParamCountMismatch name); mret None
      else
        substitutions ← bind_params (combine param_keys args) [];
        template' ← substitute template substitutions;
        mret (Some template')
  end.

(** Lines 110 to 123: the bare name. *)
Definition lookup_name (pytype base : pystr) : res constant :=
  match CUSTOM_TYPE_MAP !! base with
  | Some (template, param_keys) =>
      _ ← (match param_keys with
           | _ :: _ => report (ExpectedParams base)
           | [] => mret tt
           end);
      mret template
  | None =>
      let base := unwrap_literal base in
      let outer := Re.rmatch Re.name_pattern base in
      let key := match outer with Some m => Re.group m 1 | None => None end in
      let result :=
        or_else (key ≫= fun k => TYPE_MAP !! k) (or_else key (str "object")) in
      _ ← (if Py.eqs result (str "object")
           then report (Unrecognized pytype) else mret tt);
      mret (CStr result)
  end.

(** Lines 101 to 108: the built-in containers.  The calls of the
    generator are all made before [join] looks at the items. *)
Definition builtin_generic (typename : pystr) (args : list pystr)
    : res (option constant) :=
  if Py.eqs typename (str "tuple") then
    mapped ← mapM map_type_rec args;
    joined ← join (str ", ") mapped;
    mret (Some (CStr (str "(" ++ joined ++ str ")")))
  else if existsb (Py.eqs typename)
            [str "tuple"; str "set"; str "list"; str "dict"] || gen_allow then
    match args with
    | a0 :: _ =>
        inner ← map_type_rec (unwrap_literal a0);
        mret (Some (CStr (typename ++ str "[" ++ show inner ++ str "]")))
    | [] => raise IndexError
    end
  else mret None.

Definition after_template (typename : pystr) (args : list pystr)
    (pytype base : pystr) : res constant :=
  builtin ← builtin_generic typename args;
  match builtin with
  | Some r => mret r
  | None => lookup_name pytype base
  end.

Definition map_type_body (pytype : pystr) : res constant :=
  let base := Py.replace (str " ") [] (Py.strip pytype) in
  if Py.isdigit base then mret (CStr base)
  else
    match Re.rmatch Re.generic_pattern base with
    | Some m =>
        '(typename, args_str) ← groups2 m;
        let args := map Py.strip (Py.split "," args_str) in
        substituted ← try_custom_template typename args;
        match substituted with
        | Some v =>
            if truthy_constant v then mret v
            else after_template typename args pytype base
        | None => after_template typename args pytype base
        end
    | None => lookup_name pytype base
    end.

End Body.

(** [map_type] with room for [room] nested calls. *)
Fixpoint map_type (room : nat) (pytype : pystr) : res constant :=
  match room with
  | O => raise RecursionError
  | S room' => map_type_body (map_type room') pytype
  end.

(** The two rewriters and the main loop, with this engine in the place of
    the engine on strings.  An f-string shows the value that [map_type]
    returns.  [room] is the room that the stack has for nested calls of
    [map_type] when a rewriter calls it. *)
Section Driver.

Variable room : nat.

Definition convert_variable_declaration (line : pystr) : res pystr :=
  match Re.rmatch Re.variable_pattern line with
  | None => mret line
  | Some m =>
      let indent := Re.group m 1 in
      let var := Re.group m 2 in
      typ ← match Re.group m 3 with
            | Some t => map_type room t
            | None => raise AttributeError
            end;
      let assign := or_empty (Re.group m 4) in
      let comment := or_empty (Re.group m 5) in
      mret (fmt indent ++ str "cdef " ++ show typ ++ str " " ++ fmt var
            ++ str " " ++ assign ++ comment)
  end.

Definition convert_param (param : pystr) : res (option pystr) :=
  let param := Py.strip param in
  match param with
  | [] => mret None
  | _ :: _ =>
      if Py.contains (str ":") param then
        match map Py.strip (Py.split1 ":" param) with
        | [pname; ptype] =>
            if Py.eqs pname (str "self") then mret (Some (str "self"))
            else
              mapped ← map_type room ptype;
              mret (Some (show mapped ++ str " " ++ pname))
        | _ => raise ValueError
        end
      else mret (Some param)
  end.

Definition convert_function_definition (merged_line : pystr) : res pystr :=
  match Re.rmatch Re.function_pattern merged_line with
  | None => mret merged_line
  | Some m =>
      let indent := Re.group m 1 in
      let fname := Re.group m 2 in
      let params := Re.group m 3 in
      let ret_type := Re.group m 5 in
      ret_cytype ← (if truthy ret_type then map_type room (default [] ret_type)
                    else mret (CStr (str "void")));
      param_list ← match params with
                   | Some ps => mapM convert_param (Py.split "," ps)
                   | None => raise AttributeError
                   end;
      mret (fmt indent ++ str "cpdef " ++ show ret_cytype ++ str " "
            ++ fmt fname ++ str "(" ++ Py.join (str ", ") (omap id param_list)
            ++ str "):")
  end.

Section Machine.

Variable lines : list pystr.
Variable file_wide : bool.

(** One turn of the main loop, entered with [i < len(lines)]. *)
Definition loop_body (st : state) : res state :=
  match lines !! i st with
  | None => raise IndexError
  | Some line =>
      let stripped := Py.strip line in
      if Py.eqs stripped (str "@compile") then
        mret (emit st true line)
      else if Py.startswith (str "#") stripped
              && Py.contains (str "cython-begin") stripped then
        mret (State (S (i st)) true (next_line_compiled st)
                    (result st ++ [line]))
      else if Py.startswith (str "#") stripped
              && Py.contains (str "cython-end") stripped then
        mret (State (S (i st)) false (next_line_compiled st)
                    (result st ++ [line]))
      else
        let compile_now := file_wide || in_block st || next_line_compiled st in
        if Py.startswith (str "@") stripped then
          mret (emit st false line)
        else if Py.startswith (str "def ") stripped && compile_now then
          let more := header_rest line (skipn (S (i st)) lines) in
          let merged := Py.join (str " ") (line :: more) in
          out ← convert_function_definition merged;
          mret (State (S (i st + length more)) (in_block st) false
                      (result st ++ [out]))
        else if compile_now
                && bool_decide (is_Some (Re.rmatch Re.annotation_pattern line))
        then
          out ← convert_variable_declaration line;
          mret (emit st false out)
        else mret (emit st false line)
  end.

Fixpoint while_loop (turns : nat) (st : state) : res state :=
  if i st <? length lines then
    match turns with
    | O => OutOfFuel
    | S n => st' ← loop_body st; while_loop n st'
    end
  else mret st.

End Machine.

Definition convert_lines (lines : list pystr) (force_global : bool)
    : res (list pystr) :=
  let file_wide := force_global || file_level_enabled lines in
  st ← while_loop lines file_wide (length lines) (State 0 false false []);
  mret (result st).

Definition convert_typing_to_cython (source : pystr) (force_global : bool)
    : res pystr :=
  let lines := Py.splitlines source in
  out ← convert_lines lines force_global;
  mret (Py.join [chr 10] out).

End Driver.

End Engine.

End Interp.

(** A call of the engine in the interpreter returns the string that the
    engine on strings returns, and prints the same. *)
Definition agree (f : pystr -> res constant) (f' : pystr -> res pystr)
    (a : pystr) : Prop :=
  exists r l, f a = Done (CStr r) l /\ f' a = Done r l.

(** The dict of the substitutions, with its values as constants. *)
Definition as_constants (d : list (pystr * pystr)) : list (pystr * constant) :=
  map (fun kv => (fst kv, CStr (snd kv))) d.

(** The exceptions that the engine in the interpreter raises. *)
Definition expected (e : exn) : bool :=
  match e with
  | RecursionError | TypeError | AttributeError => true
  | IndexError | ValueError => false
  end.

(** The call returns a value for which [P] holds, or raises one of these
    exceptions: it does not run on, and it raises nothing else. *)
Definition outcome {A : Type} (P : A -> Prop) (m : res A) : Prop :=
  match m with
  | Done a _ => P a
  | Raised e _ => expected e = true
  | OutOfFuel => False
  end.

(** ** The model on examples *)

Example strip_ex : Py.strip (str "  a b" ++ [chr 9; chr 160]) = str "a b".
Proof. reflexivity. Qed.
Example replace_ex : Py.replace (str " ") [] (str "a b  c") = str "abc".
Proof. reflexivity. Qed.
Example replace_ex2 : Py.replace (str "ab") (str "b") (str "aabab") = str "abb".
Proof. reflexivity. Qed.
Example split_ex : Py.split "," (str "a,,b") = [str "a"; []; str "b"].
Proof. reflexivity. Qed.
Example split1_ex : Py.split1 ":" (str "a:b:c") = [str "a"; str "b:c"].
Proof. reflexivity. Qed.
Example slice_ex : Py.slice 8 (-1) (str "Literal[500]") = str "500".
Proof. reflexivity. Qed.
Example splitlines_ex :
  Py.splitlines (str "a" ++ [chr 13; chr 10; chr 10] ++ str "b" ++ [chr 10])
  = [str "a"; []; str "b"].
Proof. reflexivity. Qed.
Example generic_ex :
  Re.rmatch Re.generic_pattern (str "tuple[int,str]")
  = Some (<[2 := str "int,str"]> (<[1 := str "tuple"]> ∅)).
Proof. vm_compute. reflexivity. Qed.
Example map_500 : map_type ∅ false (str "500") = Done (str "500") [].
Proof. vm_compute. reflexivity. Qed.
Example map_tuple :
  map_type ∅ false (str "tuple[int, str]") = Done (str "(int, str)") [].
Proof. vm_compute. reflexivity. Qed.
Example map_mv :
  map_type typingcy false (str "mv_List[int]") = Done (str "int[:]") [].
Proof. vm_compute. reflexivity. Qed.
Example map_static :
  map_type typingcy false (str "static_List[int, Literal[500]]")
  = Done (str "int[500]") [].
Proof. vm_compute. reflexivity. Qed.
Example map_any :
  map_type ∅ false (str "Any") = Done (str "object") [Unrecognized (str "Any")].
Proof. vm_compute. reflexivity. Qed.
Example map_foo : map_type ∅ false (str "Foo") = Done (str "Foo") [].
Proof. vm_compute. reflexivity. Qed.
Example map_list_nested :
  map_type ∅ false (str "list[list[bool]]") = Done (str "list[list[bint]]") [].
Proof. vm_compute. reflexivity. Qed.
(** The engine in the interpreter, with room for three nested calls: on
    the rules of [typingcy.py], and on a registry that also holds the number
    5 and the bytes object b"x" as templates. *)
Example interp_static :
  Interp.map_type (templates typingcy) false 3
    (str "static_List[int, Literal[500]]")
  = Done (CStr (str "int[500]")) [].
Proof. vm_compute. reflexivity. Qed.
Example interp_no_room :
  Interp.map_type (templates typingcy) false 1 (str "mv_List[int]")
  = Raised RecursionError [].
Proof. vm_compute. reflexivity. Qed.
Example interp_shown :
  Interp.map_type {[ str "Five" := (COther true false (str "5"), []) ]} false 3
    (str "list[Five]")
  = Done (CStr (str "list[5]")) [].
Proof. vm_compute. reflexivity. Qed.
Example interp_join :
  Interp.map_type {[ str "Five" := (COther true false (str "5"), []) ]} false 3
    (str "tuple[Five, Any]")
  = Raised TypeError [Unrecognized (str "Any")].
Proof. vm_compute. reflexivity. Qed.
Example interp_bytes :
  Interp.map_type
    {[ str "B" := (COther true true (str "b'x'"), [str "T"]) ]} false 3
    (str "B[int]")
  = Raised TypeError [].
Proof. vm_compute. reflexivity. Qed.
Example interp_value :
  Interp.map_type
    (<[ str "Five" := (COther true false (str "5"), []) ]>
       (templates typingcy)) false 3 (str "mv_List[Five]")
  = Raised TypeError [].
Proof. vm_compute. reflexivity. Qed.
Example var_ex :
  convert_variable_declaration ∅ false (str "    x: int = 5  # five")
  = Done (str "    cdef int x = 5  # five") [].
Proof. vm_compute. reflexivity. Qed.
Example fn_ex :
  convert_function_definition ∅ false
    (str "def f(self, a: int, b: tuple[int], c) -> bool:")
  = Done (str "cpdef bint f(self, int a, (int) b, c):") [].
Proof. vm_compute. reflexivity. Qed.
Example run_ex :
  convert_typing_to_cython ∅ false
    (text ["# use-cython"; "x: int = 1"; "def f(a: int,"; "      b: str"; "):";
           "    return a"]) false
  = Done (Py.join LF (map str
      ["# use-cython"; "cdef int x = 1"; "cpdef void f(int a, str b):"; "    return a"])) [].
Proof. vm_compute. reflexivity. Qed.

(** ** Facts about the string operations *)

Section StringFacts.

Implicit Types (s w old new : pystr) (c sep : ascii).

Lemma length_lstrip s : length (Py.lstrip s) <= length s.
Proof.
  induction s as [|c s IH]; simpl; [lia|].
  destruct (Py.isspace c); simpl; lia.
Qed.

Lemma length_strip s : length (Py.strip s) <= length s.
Proof.
  unfold Py.strip, Py.rstrip. rewrite length_rev.
  etransitivity; [apply length_lstrip|]. rewrite length_rev.
  apply length_lstrip.
Qed.

Lemma length_replace_from_nil old skip s :
  length (Py.replace_from old [] skip s) <= length s.
Proof.
  revert skip. induction s as [|c s IH]; intros skip; simpl; [lia|].
  destruct skip as [|k].
  - destruct (Py.startswith old (c :: s)); simpl.
    + specialize (IH (length old - 1)). lia.
    + specialize (IH 0). lia.
  - specialize (IH k). lia.
Qed.

Lemma length_remove old s :
  old <> [] -> length (Py.replace old [] s) <= length s.
Proof.
  destruct old as [|a old]; [congruence|]. intros _.
  apply length_replace_from_nil.
Qed.

Lemma split_nonempty sep s : Py.split sep s <> [].
Proof.
  destruct s as [|c s]; simpl; [congruence|].
  destruct (Ascii.eqb c sep); [congruence|].
  destruct (Py.split sep s); congruence.
Qed.

Lemma split_length sep s x : In x (Py.split sep s) -> length x <= length s.
Proof.
  revert x. induction s as [|c s IH]; intros x; simpl.
  - intros [<-|[]]. simpl. lia.
  - destruct (Ascii.eqb c sep).
    + intros [<-|Hx]; simpl; [lia|]. specialize (IH _ Hx). lia.
    + destruct (Py.split sep s) as [|h t] eqn:E.
      * intros [<-|[]]. simpl. lia.
      * intros [<-|Hx]; simpl.
        -- specialize (IH h (or_introl eq_refl)). lia.
        -- specialize (IH x (or_intror Hx)). lia.
Qed.

Lemma length_slice a b s : length (Py.slice a b s) <= length s.
Proof.
  unfold Py.slice. rewrite length_firstn, length_skipn. lia.
Qed.

Lemma endswith_nonempty c s : Py.endswith [c] s = true -> s <> [].
Proof. intros H ->. discriminate H. Qed.

(** A turn of the loop of [unwrap_literal] drops at least the bracket that
    closes the wrapper. *)
Lemma length_slice_wrapped s :
  wrapped s = true -> length (Py.slice 8 (-1) s) < length s.
Proof.
  unfold wrapped. intros [_ H]%andb_prop.
  apply endswith_nonempty in H.
  unfold Py.slice. rewrite length_firstn, length_skipn.
  destruct s; [congruence|]. simpl length. unfold Py.clamp. simpl. lia.
Qed.

Lemma length_unwrap_literal_loop n s :
  length (unwrap_literal_loop n s) <= length s.
Proof.
  revert s. induction n as [|n IH]; intros s; simpl; [lia|].
  destruct (wrapped s) eqn:E; [|lia].
  specialize (IH (Py.slice 8 (-1) s)).
  pose proof (length_slice_wrapped s E). lia.
Qed.

Lemma length_unwrap_literal s : length (unwrap_literal s) <= length s.
Proof. apply length_unwrap_literal_loop. Qed.

(** The loop of [unwrap_literal] ends because its test fails, not because
    the turns run out. *)
Lemma unwrap_literal_loop_done n s :
  length s <= n -> wrapped (unwrap_literal_loop n s) = false.
Proof.
  revert s. induction n as [|n IH]; intros s Hn; simpl.
  - destruct s; [reflexivity|simpl in Hn; lia].
  - destruct (wrapped s) eqn:E; [|exact E].
    apply IH. pose proof (length_slice_wrapped s E). lia.
Qed.

Lemma unwrap_literal_done s : wrapped (unwrap_literal s) = false.
Proof. apply unwrap_literal_loop_done. lia. Qed.

Lemma unwrap_literal_plain s : wrapped s = false -> unwrap_literal s = s.
Proof.
  unfold unwrap_literal. destruct s as [|c s]; [reflexivity|].
  simpl unwrap_literal_loop. intros ->. reflexivity.
Qed.

End StringFacts.

(** ** Facts about the matcher *)

Lemma star_greedy_sound p : forall s pos g k res,
  Re.star_greedy p pos s g k = Some res ->
  exists w rest, s = w ++ rest /\ forallb p w = true
                 /\ k (pos + length w) rest g = Some res.
Proof.
  induction s as [|c s IH]; intros pos g k res; simpl.
  - intros H. exists [], []. simpl. rewrite Nat.add_0_r. auto.
  - destruct (p c) eqn:Hc.
    + destruct (Re.star_greedy p (S pos) s g k) as [r|] eqn:E.
      * intros [= <-]. destruct (IH _ _ _ _ E) as (w & rest & -> & Hw & Hk).
        exists (c :: w), rest. simpl. rewrite Hc, Hw.
        replace (pos + S (length w)) with (S pos + length w) by lia. auto.
      * intros H. exists [], (c :: s). simpl. rewrite Nat.add_0_r. auto.
    + intros H. exists [], (c :: s). simpl. rewrite Nat.add_0_r. auto.
Qed.

Lemma star_lazy_sound p : forall s pos g k res,
  Re.star_lazy p pos s g k = Some res ->
  exists w rest, s = w ++ rest /\ forallb p w = true
                 /\ k (pos + length w) rest g = Some res.
Proof.
  induction s as [|c s IH]; intros pos g k res; simpl.
  - destruct (k pos [] g) eqn:E; [|discriminate].
    intros [= <-]. exists [], []. simpl. rewrite Nat.add_0_r. auto.
  - destruct (k pos (c :: s) g) eqn:E.
    + intros [= <-]. exists [], (c :: s). simpl. rewrite Nat.add_0_r. auto.
    + destruct (p c) eqn:Hc; [|discriminate].
      intros H. destruct (IH _ _ _ _ H) as (w & rest & -> & Hw & Hk).
      exists (c :: w), rest. simpl. rewrite Hc, Hw.
      replace (pos + S (length w)) with (S pos + length w) by lia. auto.
Qed.

(** Soundness of the matcher: a success is a derivation followed by a
    success of the continuation. *)
Lemma run_sound r : forall pos s g k res,
  Re.run r pos s g k = Some res ->
  exists w rest g',
    s = w ++ rest /\ Re.derives r pos w rest g g'
    /\ k (pos + length w) rest g' = Some res.
Proof.
  induction r as [| | |p|p|p|r1 IH1 r2 IH2|r IH|n r IH];
    intros pos s g k res; simpl.
  - intros H. exists [], s, g. simpl. rewrite Nat.add_0_r.
    repeat split; auto. constructor.
  - destruct (pos =? 0) eqn:E; [|discriminate].
    apply Nat.eqb_eq in E as ->. intros H. exists [], s, g.
    repeat split; auto. constructor.
  - destruct (Re.at_eol s) eqn:E; [|discriminate].
    intros H. exists [], s, g. simpl. rewrite Nat.add_0_r.
    repeat split; auto. constructor; auto.
  - destruct s as [|c s]; [discriminate|].
    destruct (p c) eqn:E; [|discriminate].
    intros H. exists [c], s, g. simpl.
    replace (pos + 1) with (S pos) by lia.
    repeat split; auto. constructor; auto.
  - intros H. destruct (star_greedy_sound _ _ _ _ _ _ H) as (w & rest & -> & Hw & Hk).
    exists w, rest, g. repeat split; auto. constructor; auto.
  - intros H. destruct (star_lazy_sound _ _ _ _ _ _ H) as (w & rest & -> & Hw & Hk).
    exists w, rest, g. repeat split; auto. constructor; auto.
  - intros H.
    destruct (IH1 _ _ _ _ _ H) as (w1 & rest1 & g1 & -> & D1 & H1).
    destruct (IH2 _ _ _ _ _ H1) as (w2 & rest & g2 & -> & D2 & H2).
    exists (w1 ++ w2), rest, g2. rewrite <- app_assoc, length_app.
    rewrite Nat.add_assoc. repeat split; auto. econstructor; eauto.
  - destruct (Re.run r pos s g k) as [x|] eqn:E.
    + intros [= <-].
      destruct (IH _ _ _ _ _ E) as (w & rest & g' & -> & D & H).
      exists w, rest, g'. repeat split; auto. apply Re.d_opt_take; auto.
    + intros H. exists [], s, g. simpl. rewrite Nat.add_0_r.
      repeat split; auto. apply Re.d_opt_skip.
  - intros H.
    destruct (IH _ _ _ _ _ H) as (w & rest & g' & -> & D & Hk).
    replace (pos + length w - pos) with (length w) in Hk by lia.
    rewrite firstn_app, Nat.sub_diag, firstn_all in Hk. simpl in Hk.
    rewrite app_nil_r in Hk.
    exists w, rest, (<[n := w]> g'). repeat split; auto. constructor; auto.
Qed.

Lemma rmatch_sound r s m :
  Re.rmatch r s = Some m -> exists w rest, s = w ++ rest /\ Re.derives r 0 w rest ∅ m.
Proof.
  unfold Re.rmatch. intros H.
  destruct (run_sound _ _ _ _ _ _ H) as (w & rest & g' & -> & D & [= <-]).
  eauto.
Qed.

(** Taking derivations of a concrete pattern apart. *)
Ltac invert_derivation :=
  repeat match goal with
  | H : Re.derives (Re.Seq _ _) _ _ _ _ _ |- _ => inversion H; subst; clear H
  | H : Re.derives (Re.Grp _ _) _ _ _ _ _ |- _ => inversion H; subst; clear H
  | H : Re.derives (Re.Chr _) _ _ _ _ _ |- _ => inversion H; subst; clear H
  | H : Re.derives (Re.Star _) _ _ _ _ _ |- _ => inversion H; subst; clear H
  | H : Re.derives (Re.StarLazy _) _ _ _ _ _ |- _ => inversion H; subst; clear H
  | H : Re.derives Re.Bol _ _ _ _ _ |- _ => inversion H; subst; clear H
  | H : Re.derives Re.Eol _ _ _ _ _ |- _ => inversion H; subst; clear H
  | H : Re.derives Re.Eps _ _ _ _ _ |- _ => inversion H; subst; clear H
  | H : Re.derives (Re.Opt _) _ _ _ _ _ |- _ => inversion H; subst; clear H
  | H : Ascii.eqb _ _ = true |- _ => apply Ascii.eqb_eq in H; subst
  end.

(** A match of the first pattern of [map_type] cuts the subject into a
    name, a bracket, the arguments, a bracket, and at most a final line
    feed. *)
Lemma generic_pattern_inv s m :
  Re.rmatch Re.generic_pattern s = Some m ->
  exists c name args tail,
    s = (c :: name) ++ str "[" ++ args ++ str "]" ++ tail
    /\ Re.ident_start c = true /\ forallb Re.ident_char name = true
    /\ forallb Re.dot args = true /\ Re.at_eol tail = true
    /\ m = <[2 := args]> (<[1 := c :: name]> ∅).
Proof.
  intros H. apply rmatch_sound in H as (w & rest & -> & D).
  unfold Re.generic_pattern, Re.lit in D. cbn [Re.seq] in D.
  invert_derivation.
  repeat (simpl; rewrite <- ?app_assoc, ?app_nil_r).
  eexists _, _, _, _. repeat split; eauto.
Qed.

Lemma name_pattern_inv s m :
  Re.rmatch Re.name_pattern s = Some m ->
  exists c name tail,
    s = (c :: name) ++ tail
    /\ Re.ident_start c = true /\ forallb Re.dotted_char name = true
    /\ Re.at_eol tail = true /\ m = <[1 := c :: name]> ∅.
Proof.
  intros H. apply rmatch_sound in H as (w & rest & -> & D).
  unfold Re.name_pattern in D. cbn [Re.seq] in D.
  invert_derivation.
  repeat (simpl; rewrite <- ?app_assoc, ?app_nil_r).
  eexists _, _, _. repeat split; eauto.
Qed.

(** The greedy star takes a whole run of the class when the continuation
    accepts what follows it. *)
Lemma star_greedy_app p w : forall pos rest g k res,
  forallb p w = true ->
  Re.star_greedy p (pos + length w) rest g k = Some res ->
  Re.star_greedy p pos (w ++ rest) g k = Some res.
Proof.
  induction w as [|c w IH]; intros pos rest g k res Hw H; simpl in *.
  - rewrite Nat.add_0_r in H. exact H.
  - apply andb_prop in Hw as [-> Hw].
    rewrite (IH (S pos) rest g k res Hw); [reflexivity|].
    replace (S pos + length w) with (pos + S (length w)) by lia. exact H.
Qed.

Lemma star_greedy_nil p pos g k : Re.star_greedy p pos [] g k = k pos [] g.
Proof. reflexivity. Qed.

Lemma star_greedy_stop p c rest pos g k :
  p c = false -> Re.star_greedy p pos (c :: rest) g k = k pos (c :: rest) g.
Proof. intros H. simpl. rewrite H. reflexivity. Qed.

Lemma firstn_length_app {A : Type} (w rest : list A) :
  firstn (length w) (w ++ rest) = w.
Proof.
  induction w as [|a w IH]; simpl; [reflexivity|]. rewrite IH. reflexivity.
Qed.

(** The first pattern of [map_type] on a name followed by bracketed
    arguments that hold no line feed. *)
Lemma generic_pattern_match c name args :
  Re.ident_start c = true -> forallb Re.ident_char name = true ->
  forallb Re.dot args = true ->
  Re.rmatch Re.generic_pattern ((c :: name) ++ str "[" ++ args ++ str "]")
  = Some (<[2 := args]> (<[1 := c :: name]> ∅)).
Proof.
  intros Hc Hname Hargs.
  unfold Re.rmatch, Re.generic_pattern, Re.lit. cbn [Re.seq Re.run].
  change (0 =? 0) with true. cbv iota.
  change ((c :: name) ++ str "[" ++ args ++ str "]")
    with (c :: name ++ "["%char :: args ++ ["]"%char]).
  cbv beta iota. rewrite Hc.
  apply star_greedy_app; [exact Hname|].
  rewrite star_greedy_stop by reflexivity.
  change (Ascii.eqb "[" "[") with true. cbv beta iota.
  apply star_greedy_app; [exact Hargs|].
  simpl Re.star_greedy. change (Re.dot "]") with true. cbv beta iota.
  change (Ascii.eqb "]" "]") with true. cbv beta iota.
  change (Re.at_eol []) with true. cbv beta iota.
  rewrite firstn_length_app.
  replace (length name + length args - length name) with (length args) by lia.
  rewrite firstn_length_app. reflexivity.
Qed.

Lemma name_pattern_match c name :
  Re.ident_start c = true -> forallb Re.dotted_char name = true ->
  Re.rmatch Re.name_pattern (c :: name) = Some (<[1 := c :: name]> ∅).
Proof.
  intros Hc Hname.
  unfold Re.rmatch, Re.name_pattern. cbn [Re.seq Re.run].
  change (0 =? 0) with true. cbv beta iota. rewrite Hc.
  rewrite <- (app_nil_r name) at 1.
  apply star_greedy_app; [exact Hname|].
  rewrite star_greedy_nil. change (Re.at_eol []) with true. cbv beta iota.
  replace (1 + length name - 0) with (length (c :: name)) by (simpl; lia).
  rewrite <- (app_nil_r (c :: name)) at 2.
  rewrite firstn_length_app. reflexivity.
Qed.

(** What the characters of an identifier are not. *)
Lemma ident_char_facts c :
  Re.ident_char c = true ->
  Py.isspace c = false /\ Re.dotted_char c = true /\ Re.dot c = true
  /\ Ascii.eqb " " c = false /\ Ascii.eqb "[" c = false
  /\ Ascii.eqb "]" c = false /\ Ascii.eqb "," c = false.
Proof.
  destruct c as [[] [] [] [] [] [] [] []]; vm_compute; intros H;
    try discriminate H; repeat split; reflexivity.
Qed.

Lemma ident_start_char c : Re.ident_start c = true -> Re.ident_char c = true.
Proof.
  destruct c as [[] [] [] [] [] [] [] []]; vm_compute; intros H;
    try discriminate H; reflexivity.
Qed.

Lemma ident_start_not_digit c :
  Re.ident_start c = true -> Py.isdigit_char c = false.
Proof.
  destruct c as [[] [] [] [] [] [] [] []]; vm_compute; intros H;
    try discriminate H; reflexivity.
Qed.

Lemma is_identifier_chars s :
  is_identifier s = true -> forallb Re.ident_char s = true.
Proof.
  destruct s as [|c w]; [discriminate|]. simpl.
  intros [Hc Hw]%andb_prop. rewrite (ident_start_char _ Hc). exact Hw.
Qed.

Lemma forallb_weaken {A : Type} (p q : A -> bool) (l : list A) :
  (forall x, p x = true -> q x = true) ->
  forallb p l = true -> forallb q l = true.
Proof.
  intros Hpq. induction l as [|x l IH]; simpl; [reflexivity|].
  intros [Hx Hl]%andb_prop. rewrite (Hpq _ Hx), (IH Hl). reflexivity.
Qed.

Lemma forallb_rev_true {A : Type} (p : A -> bool) (l : list A) :
  forallb p l = true -> forallb p (rev l) = true.
Proof.
  rewrite !List.forallb_forall. intros H x Hx. apply H.
  apply List.in_rev. exact Hx.
Qed.

Lemma lstrip_plain s :
  forallb (fun c => negb (Py.isspace c)) s = true -> Py.lstrip s = s.
Proof.
  destruct s as [|c s]; [reflexivity|]. simpl.
  intros [Hc _]%andb_prop. apply negb_true_iff in Hc. rewrite Hc. reflexivity.
Qed.

(** [strip] leaves a string without white space as it is. *)
Lemma strip_plain s :
  forallb (fun c => negb (Py.isspace c)) s = true -> Py.strip s = s.
Proof.
  intros H. unfold Py.strip, Py.rstrip. rewrite (lstrip_plain s H).
  rewrite lstrip_plain by (apply forallb_rev_true; exact H).
  apply rev_involutive.
Qed.

(** Removing the spaces of a string that has none. *)
Lemma remove_spaces_plain s :
  lacks " " s = true -> Py.replace (str " ") [] s = s.
Proof.
  unfold Py.replace, lacks. simpl.
  induction s as [|c s IH]; [reflexivity|]. simpl.
  intros [Hc Hs]%andb_prop. apply negb_true_iff in Hc. rewrite Hc. simpl.
  rewrite (IH Hs). reflexivity.
Qed.

Lemma lacks_In ch s : lacks ch s = true -> ~ In ch s.
Proof.
  unfold lacks. rewrite List.forallb_forall. intros H Hin.
  specialize (H _ Hin). rewrite Ascii.eqb_refl in H. discriminate.
Qed.

(** The first pattern needs an opening bracket. *)
Lemma generic_pattern_needs_bracket s :
  lacks "[" s = true -> Re.rmatch Re.generic_pattern s = None.
Proof.
  intros H. destruct (Re.rmatch Re.generic_pattern s) as [m|] eqn:E; [|reflexivity].
  apply generic_pattern_inv in E as (c & name & args & tail & -> & _).
  apply lacks_In in H. exfalso. apply H.
  apply List.in_or_app. right. left. reflexivity.
Qed.

(** The second pattern refuses an opening bracket. *)
Lemma name_pattern_refuses_bracket s :
  In "["%char s -> Re.rmatch Re.name_pattern s = None.
Proof.
  intros H. destruct (Re.rmatch Re.name_pattern s) as [m|] eqn:E; [|reflexivity].
  apply name_pattern_inv in E as (c & name & tail & -> & Hc & Hn & Ht & _).
  exfalso. apply List.in_app_or in H as [[->|H]|H].
  - discriminate Hc.
  - rewrite List.forallb_forall in Hn. specialize (Hn _ H). discriminate Hn.
  - destruct tail as [|t [|? ?]]; try discriminate Ht; [destruct H|].
    destruct H as [->|[]]. discriminate Ht.
Qed.

(** ** Facts about the outcome of a call *)

Lemma bind_done {A B : Type} (m : res A) (k : A -> res B) a l :
  m = Done a l ->
  m ≫= k = match k a with
           | Done b l' => Done b (l ++ l')
           | Raised e l' => Raised e (l ++ l')
           | OutOfFuel => OutOfFuel
           end.
Proof. intros ->. reflexivity. Qed.

Lemma bind_done_done {A B : Type} (m : res A) (k : A -> res B) a l b l' :
  m = Done a l -> k a = Done b l' -> m ≫= k = Done b (l ++ l').
Proof. intros -> H. simpl. unfold mbind, res_bind. rewrite H. reflexivity. Qed.

Lemma bind_ret {A B : Type} (a : A) (k : A -> res B) : mret a ≫= k = k a.
Proof.
  unfold mret, res_ret, mbind, res_bind. destruct (k a); reflexivity.
Qed.

Lemma bind_done_nil {A B : Type} (m : res A) (k : A -> res B) a :
  m = Done a [] -> m ≫= k = k a.
Proof. intros ->. apply (bind_ret a k). Qed.

Lemma bind_done_ret {A B : Type} (m : res A) (g : A -> B) a l :
  m = Done a l -> m ≫= (fun x => mret (g x)) = Done (g a) l.
Proof.
  intros ->. unfold mbind, res_bind, mret, res_ret. rewrite app_nil_r.
  reflexivity.
Qed.

Lemma bind_report {B : Type} (d : diag) (k : unit -> res B) b l :
  k tt = Done b l -> report d ≫= k = Done b (d :: l).
Proof. intros H. unfold report, mbind, res_bind. rewrite H. reflexivity. Qed.

(** ** Termination of [map_type] *)

Section Totality.

Variable CUSTOM_TYPE_MAP : gmap pystr (pystr * list pystr).
Variable gen_allow : bool.

Lemma mapM_same f f' (xs : list pystr) :
  Forall (same_done f f') xs ->
  exists rs l, mapM f xs = Done rs l /\ mapM f' xs = Done rs l.
Proof.
  induction 1 as [|x xs (r & l & E & E') _ (rs & l' & IH & IH')]; simpl.
  - exists [], []. auto.
  - eexists _, _. split.
    + eapply bind_done_done; [exact E|].
      eapply bind_done_done; [exact IH|]. reflexivity.
    + eapply bind_done_done; [exact E'|].
      eapply bind_done_done; [exact IH'|]. reflexivity.
Qed.

Lemma bind_params_same f f' pairs : forall subs,
  Forall (fun kv => same_done f f' (unwrap_literal (Py.strip (snd kv)))) pairs ->
  exists d l, bind_params f pairs subs = Done d l
              /\ bind_params f' pairs subs = Done d l.
Proof.
  induction pairs as [|[k v] pairs IH]; intros subs HF; simpl.
  - exists subs, []. auto.
  - inversion HF as [|? ? (r & l & E & E') HF']; subst. simpl in E, E'.
    destruct (IH (dict_set k r subs) HF') as (d & l' & E1 & E1').
    eexists _, _. split; eapply bind_done_done; eauto.
Qed.

Lemma try_custom_template_same f f' name args :
  Forall (fun a => same_done f f' (unwrap_literal (Py.strip a))) args ->
  exists o l, try_custom_template CUSTOM_TYPE_MAP f name args = Done o l
              /\ try_custom_template CUSTOM_TYPE_MAP f' name args = Done o l.
Proof.
  intros HF. unfold try_custom_template.
  destruct (CUSTOM_TYPE_MAP !! name) as [[template keys]|].
  2: { exists None, []. auto. }
  destruct (negb (length keys =? length args)).
  { eexists _, _. split; reflexivity. }
  destruct (bind_params_same f f' (combine keys args) []) as (d & l & E & E').
  { apply List.Forall_forall. intros [k v] Hin. apply in_combine_r in Hin.
    rewrite List.Forall_forall in HF. apply (HF v Hin). }
  eexists _, _. split; eapply bind_done_done; eauto; reflexivity.
Qed.

Lemma builtin_generic_same f f' typename args :
  args <> [] ->
  Forall (same_done f f') args ->
  Forall (fun a => same_done f f' (unwrap_literal a)) args ->
  exists o l, builtin_generic gen_allow f typename args = Done o l
              /\ builtin_generic gen_allow f' typename args = Done o l.
Proof.
  intros Hne HF HU. unfold builtin_generic.
  destruct (Py.eqs typename (str "tuple")).
  { destruct (mapM_same f f' args HF) as (rs & l & E & E').
    eexists _, _. split; eapply bind_done_done; eauto; reflexivity. }
  destruct (_ || gen_allow).
  2: { exists None, []. auto. }
  destruct args as [|a0 args]; [congruence|].
  inversion HU as [|? ? (r & l & E & E') _]; subst.
  eexists _, _. split; eapply bind_done_done; eauto; reflexivity.
Qed.

(** The bare-name lookup makes no nested call and always returns. *)
Lemma lookup_name_done pytype base :
  exists r l, lookup_name CUSTOM_TYPE_MAP pytype base = Done r l.
Proof.
  unfold lookup_name.
  destruct (CUSTOM_TYPE_MAP !! base) as [[template [|k keys]]|].
  - eexists _, _. reflexivity.
  - eexists _, _. reflexivity.
  - cbv zeta. destruct (Py.eqs _ (str "object")); eexists _, _; reflexivity.
Qed.

(** The arguments of a generic are shorter than the whole expression. *)
Lemma generic_args_shorter base m :
  Re.rmatch Re.generic_pattern base = Some m ->
  exists typename args_str,
    groups2 m = mret (typename, args_str)
    /\ length args_str < length base.
Proof.
  intros H. apply generic_pattern_inv in H
    as (c & name & args & tail & -> & _ & _ & _ & _ & ->).
  exists (c :: name), args. split.
  - unfold groups2, Re.group.
    rewrite lookup_insert_ne, lookup_insert_eq, lookup_insert_eq by lia.
    reflexivity.
  - repeat (simpl; rewrite ?length_app). lia.
Qed.

Lemma stripped_args_short args_str :
  Forall (fun a => length a <= length args_str)
         (map Py.strip (Py.split "," args_str)).
Proof.
  apply List.Forall_forall. intros a [x [<- Hx]]%List.in_map_iff.
  pose proof (length_strip x). pose proof (split_length _ _ _ Hx). lia.
Qed.

Lemma normalize_short pytype :
  length (Py.replace (str " ") [] (Py.strip pytype)) <= length pytype.
Proof.
  etransitivity; [apply length_remove; discriminate|]. apply length_strip.
Qed.

(** The body of [map_type] returns as soon as its nested calls, all on
    shorter strings, return; and its result only depends on theirs. *)
Lemma map_type_body_same f f' pytype :
  (forall a, length a < length pytype -> same_done f f' a) ->
  same_done (map_type_body CUSTOM_TYPE_MAP gen_allow f)
            (map_type_body CUSTOM_TYPE_MAP gen_allow f') pytype.
Proof.
  intros Hrec. unfold same_done, map_type_body. cbv zeta.
  pose proof (normalize_short pytype) as Hbase.
  set (base := Py.replace (str " ") [] (Py.strip pytype)) in *.
  destruct (Py.isdigit base).
  { eexists _, _. split; reflexivity. }
  destruct (Re.rmatch Re.generic_pattern base) as [m|] eqn:Em.
  2: { destruct (lookup_name_done pytype base) as (r & l & E). eauto. }
  destruct (generic_args_shorter _ _ Em) as (typename & args_str & Eg & Hlen).
  rewrite Eg, !bind_ret. cbv beta iota.
  pose proof (stripped_args_short args_str) as Hargs.
  set (args := map Py.strip (Py.split "," args_str)) in *.
  assert (Hne : args <> []).
  { unfold args. pose proof (split_nonempty "," args_str).
    destruct (Py.split "," args_str); [congruence|discriminate]. }
  assert (H1 : Forall (same_done f f') args).
  { eapply List.Forall_impl; [|exact Hargs]. intros a Ha. cbv beta in Ha. apply Hrec. lia. }
  assert (H2 : Forall (fun a => same_done f f' (unwrap_literal a)) args).
  { eapply List.Forall_impl; [|exact Hargs]. intros a Ha. cbv beta in Ha. apply Hrec.
    pose proof (length_unwrap_literal a). lia. }
  assert (H3 : Forall (fun a => same_done f f' (unwrap_literal (Py.strip a))) args).
  { eapply List.Forall_impl; [|exact Hargs]. intros a Ha. cbv beta in Ha. apply Hrec.
    pose proof (length_unwrap_literal (Py.strip a)).
    pose proof (length_strip a). lia. }
  destruct (try_custom_template_same f f' typename args H3) as (o & l & E & E').
  destruct (truthy o) eqn:Ho.
  { eexists _, _. split; eapply bind_done_done; eauto; rewrite Ho; reflexivity. }
  destruct (builtin_generic_same f f' typename args Hne H1 H2)
    as (b & l' & Eb & Eb').
  destruct (lookup_name_done pytype base) as (r & l'' & El).
  exists (default r b), (l ++ l' ++ match b with Some _ => [] | None => l'' end).
  split.
  - eapply bind_done_done; [exact E|]. rewrite Ho. unfold after_template.
    eapply bind_done_done; [exact Eb|]. destruct b; [reflexivity|exact El].
  - eapply bind_done_done; [exact E'|]. rewrite Ho. unfold after_template.
    eapply bind_done_done; [exact Eb'|]. destruct b; [reflexivity|exact El].
Qed.

Lemma map_type_fuel_total : forall fuel pytype,
  length pytype < fuel ->
  exists r l, forall n,
    map_type_fuel CUSTOM_TYPE_MAP gen_allow (fuel + n) pytype = Done r l.
Proof.
  induction fuel as [|fuel IH]; intros pytype Hlen; [lia|].
  assert (Hsame : forall n a, length a < length pytype ->
            same_done (map_type_fuel CUSTOM_TYPE_MAP gen_allow fuel)
                      (map_type_fuel CUSTOM_TYPE_MAP gen_allow (fuel + n)) a).
  { intros n a Ha. destruct (IH a ltac:(lia)) as (r & l & E).
    exists r, l. split; [|apply E]. rewrite <- (Nat.add_0_r fuel) at 1. apply E. }
  destruct (map_type_body_same _ _ pytype (Hsame 0)) as (r & l & E & _).
  exists r, l. intros n. simpl.
  destruct (map_type_body_same _ _ pytype (Hsame n)) as (r' & l' & E1 & E2).
  rewrite E2. rewrite E1 in E. exact E.
Qed.

(** More fuel than the length of the string changes nothing. *)
Lemma map_type_fuel_stable fuel pytype :
  length pytype < fuel ->
  map_type_fuel CUSTOM_TYPE_MAP gen_allow fuel pytype
  = map_type CUSTOM_TYPE_MAP gen_allow pytype.
Proof.
  intros Hlen. unfold map_type.
  destruct (map_type_fuel_total (S (length pytype)) pytype ltac:(lia))
    as (r & l & E).
  rewrite <- (Nat.add_0_r (S (length pytype))), (E 0).
  replace fuel with (S (length pytype) + (fuel - S (length pytype))) by lia.
  apply E.
Qed.

Lemma map_type_done pytype :
  exists r l, map_type CUSTOM_TYPE_MAP gen_allow pytype = Done r l.
Proof.
  destruct (map_type_fuel_total (S (length pytype)) pytype ltac:(lia))
    as (r & l & E).
  exists r, l. unfold map_type.
  rewrite <- (Nat.add_0_r (S (length pytype))). apply E.
Qed.

(** [map_type] satisfies the equation of its body. *)
Lemma map_type_unfold pytype :
  map_type CUSTOM_TYPE_MAP gen_allow pytype
  = map_type_body CUSTOM_TYPE_MAP gen_allow
      (map_type CUSTOM_TYPE_MAP gen_allow) pytype.
Proof.
  destruct (map_type_body_same
              (map_type_fuel CUSTOM_TYPE_MAP gen_allow (length pytype))
              (map_type CUSTOM_TYPE_MAP gen_allow) pytype)
    as (r & l & E & E').
  { intros a Ha. destruct (map_type_done a) as (r & l & E).
    exists r, l. split; [|exact E]. rewrite map_type_fuel_stable; auto. }
  rewrite E'. unfold map_type at 1. simpl. exact E.
Qed.

End Totality.

(** ** Plain identifiers *)

Lemma startswith_In p s x :
  Py.startswith p s = true -> In x p -> In x s.
Proof.
  revert s. induction p as [|a p IH]; intros s H Hx; [destruct Hx|].
  destruct s as [|b s]; [discriminate|]. simpl in H.
  apply andb_prop in H as [Hab H]. apply Ascii.eqb_eq in Hab as ->.
  destruct Hx as [<-|Hx]; [left; reflexivity|right; eauto].
Qed.

Lemma not_wrapped_without_bracket s : lacks "[" s = true -> wrapped s = false.
Proof.
  intros H. unfold wrapped.
  destruct (Py.startswith (str "Literal[") s) eqn:E; [|reflexivity].
  exfalso. apply (lacks_In _ _ H). apply (startswith_In _ _ _ E).
  simpl. tauto.
Qed.

Lemma identifier_lacks s ch :
  Re.ident_char ch = false -> is_identifier s = true -> lacks ch s = true.
Proof.
  intros Hch Hs. apply is_identifier_chars in Hs. unfold lacks.
  eapply forallb_weaken; [|exact Hs]. intros c Hc. cbv beta.
  destruct (Ascii.eqb_spec ch c) as [->|]; [congruence|reflexivity].
Qed.

(** The normal form of an identifier is the identifier. *)
Lemma normalize_identifier s :
  is_identifier s = true -> Py.replace (str " ") [] (Py.strip s) = s.
Proof.
  intros Hs. rewrite strip_plain.
  - apply remove_spaces_plain. apply identifier_lacks; [reflexivity|exact Hs].
  - apply is_identifier_chars in Hs.
    eapply forallb_weaken; [|exact Hs]. intros c Hc. cbv beta.
    apply ident_char_facts in Hc as (-> & _). reflexivity.
Qed.

Lemma identifier_not_digits s : is_identifier s = true -> Py.isdigit s = false.
Proof.
  destruct s as [|c w]; [reflexivity|]. simpl.
  intros [Hc _]%andb_prop. rewrite (ident_start_not_digit _ Hc). reflexivity.
Qed.

Lemma name_pattern_identifier s :
  is_identifier s = true ->
  Re.rmatch Re.name_pattern s = Some (<[1 := s]> ∅).
Proof.
  destruct s as [|c w]; [discriminate|]. simpl.
  intros [Hc Hw]%andb_prop. apply name_pattern_match; [exact Hc|].
  eapply forallb_weaken; [|exact Hw]. intros x Hx.
  apply ident_char_facts in Hx. tauto.
Qed.

Lemma eqs_true a b : Py.eqs a b = true <-> a = b.
Proof. unfold Py.eqs. apply bool_decide_eq_true. Qed.

Lemma eqs_false a b : Py.eqs a b = false <-> a <> b.
Proof. unfold Py.eqs. apply bool_decide_eq_false. Qed.

(** The bare-name lookup of an identifier that no table knows. *)
Lemma lookup_name_unknown reg pytype s :
  is_identifier s = true -> reg !! s = None -> TYPE_MAP !! s = None ->
  lookup_name reg pytype s
  = Done s (if Py.eqs s (str "object") then [Unrecognized pytype] else []).
Proof.
  intros Hs Hreg Hprim. unfold lookup_name. rewrite Hreg. cbv zeta.
  rewrite unwrap_literal_plain
    by (apply not_wrapped_without_bracket, identifier_lacks; auto).
  rewrite (name_pattern_identifier s Hs). unfold Re.group.
  rewrite lookup_insert_eq. simpl option_bind. cbn [mbind option_bind].
  rewrite Hprim.
  assert (Hor : or_else None (or_else (Some s) (str "object")) = s).
  { destruct s; [discriminate|reflexivity]. }
  rewrite Hor. destruct (Py.eqs s (str "object")); reflexivity.
Qed.

(** ** Unknown type names *)

(** C3, as the code has it.  A plain identifier that is neither a
    registered rule nor a key of [TYPE_MAP] is returned as it is, and
    nothing is raised.  No diagnostic is printed for it; the only such
    identifier that prints one is "object" itself, because the message is
    tied to the returned value being "object". *)
Theorem unknown_identifier_maps_to_itself reg ga s :
  is_identifier s = true -> reg !! s = None -> TYPE_MAP !! s = None ->
  map_type reg ga s
  = Done s (if Py.eqs s (str "object") then [Unrecognized s] else []).
Proof.
  intros Hs Hreg Hprim. rewrite map_type_unfold.
  unfold map_type_body. cbv zeta.
  rewrite (normalize_identifier s Hs), (identifier_not_digits s Hs).
  rewrite generic_pattern_needs_bracket
    by (apply identifier_lacks; [reflexivity|exact Hs]).
  apply lookup_name_unknown; assumption.
Qed.

Lemma unknown_identifier_witness :
  map_type ∅ false (str "Foo") = Done (str "Foo") [].
Proof.
  apply (unknown_identifier_maps_to_itself ∅ false (str "Foo"));
    vm_compute; reflexivity.
Defined.

(** C3 as the specification words it fails on its own example: the unknown
    name Foo is returned, but nothing is printed on the error stream. *)
Lemma unknown_name_prints_nothing :
  value (map_type ∅ false (str "Foo")) = Some (str "Foo")
  /\ ~ (exists d, In d (stderr (map_type ∅ false (str "Foo")))).
Proof.
  split; [vm_compute; reflexivity|].
  intros [d Hd]. vm_compute in Hd. exact Hd.
Qed.

(** ** What a call of [map_type] prints *)

Lemma bind_inv {A B : Type} (m : res A) (k : A -> res B) b l :
  m ≫= k = Done b l ->
  exists a l1 l2, m = Done a l1 /\ k a = Done b l2 /\ l = l1 ++ l2.
Proof.
  unfold mbind, res_bind. destruct m as [a l1| |]; [|discriminate..].
  destruct (k a) as [b' l2| |] eqn:E; [|discriminate..].
  intros [= <- <-]. eauto 6.
Qed.

Section Logs.

Variable CUSTOM_TYPE_MAP : gmap pystr (pystr * list pystr).
Variable gen_allow : bool.
Variable f : pystr -> res pystr.

(** A message in the log of a loop was printed by one of its turns. *)
Lemma mapM_log (xs : list pystr) : forall rs l d,
  mapM f xs = Done rs l -> In d l ->
  exists a r' l', In a xs /\ f a = Done r' l' /\ In d l'.
Proof.
  induction xs as [|x xs IH]; intros rs l d H Hd; simpl in H.
  - injection H as <- <-. destruct Hd.
  - apply bind_inv in H as (y & l1 & l2 & E & H & ->).
    apply bind_inv in H as (ys & l3 & l4 & E' & H & ->).
    injection H as <- <-. rewrite app_nil_r in Hd.
    apply List.in_app_or in Hd as [Hd|Hd].
    + exists x, y, l1. simpl. auto.
    + destruct (IH _ _ _ E' Hd) as (a & r' & l' & Ha & Ea & Hl).
      exists a, r', l'. simpl. auto.
Qed.

Lemma bind_params_log pairs : forall subs d0 l d,
  bind_params f pairs subs = Done d0 l -> In d l ->
  exists a r' l',
    In a (map snd pairs)
    /\ f (unwrap_literal (Py.strip a)) = Done r' l' /\ In d l'.
Proof.
  induction pairs as [|[k v] pairs IH]; intros subs d0 l d H Hd; simpl in H.
  - injection H as <- <-. destruct Hd.
  - apply bind_inv in H as (y & l1 & l2 & E & H & ->).
    apply List.in_app_or in Hd as [Hd|Hd].
    + exists v, y, l1. simpl. auto.
    + destruct (IH _ _ _ _ H Hd) as (a & r' & l' & Ha & Ea & Hl).
      exists a, r', l'. simpl. auto.
Qed.

Lemma try_custom_template_log name args o l d :
  try_custom_template CUSTOM_TYPE_MAP f name args = Done o l -> In d l ->
  d = ParamCountMismatch name
  \/ exists a r' l',
       In a args /\ f (unwrap_literal (Py.strip a)) = Done r' l' /\ In d l'.
Proof.
  unfold try_custom_template.
  destruct (CUSTOM_TYPE_MAP !! name) as [[template keys]|].
  2: { intros [= <- <-] []. }
  destruct (negb (length keys =? length args)).
  { intros [= <- <-] [<-|[]]. left. reflexivity. }
  intros H Hd. apply bind_inv in H as (subs & l1 & l2 & E & H & ->).
  injection H as <- <-. rewrite app_nil_r in Hd.
  destruct (bind_params_log _ _ _ _ _ E Hd) as (a & r' & l' & Ha & Ea & Hl).
  right. exists a, r', l'. repeat split; auto.
  apply List.in_map_iff in Ha as ([k v] & <- & Hin).
  apply in_combine_r in Hin. exact Hin.
Qed.

Lemma builtin_generic_log typename args o l d :
  builtin_generic gen_allow f typename args = Done o l -> In d l ->
  exists a r' l',
    In a args
    /\ (f a = Done r' l' \/ f (unwrap_literal a) = Done r' l') /\ In d l'.
Proof.
  unfold builtin_generic.
  destruct (Py.eqs typename (str "tuple")).
  { intros H Hd. apply bind_inv in H as (rs & l1 & l2 & E & H & ->).
    injection H as <- <-. rewrite app_nil_r in Hd.
    destruct (mapM_log _ _ _ _ E Hd) as (a & r' & l' & Ha & Ea & Hl).
    exists a, r', l'. auto. }
  destruct (_ || gen_allow).
  2: { intros [= <- <-] []. }
  destruct args as [|a0 args]; [discriminate|].
  intros H Hd. apply bind_inv in H as (r' & l1 & l2 & E & H & ->).
  injection H as <- <-. rewrite app_nil_r in Hd.
  exists a0, r', l1. simpl. auto.
Qed.

(** What a built-in container returns: a parenthesis first, or the name of
    the container and a bracket last. *)
Lemma builtin_generic_shape typename args r l :
  builtin_generic gen_allow f typename args = Done (Some r) l ->
  (exists x, r = str "(" ++ x) \/ (exists x, r = x ++ str "]").
Proof.
  unfold builtin_generic.
  destruct (Py.eqs typename (str "tuple")).
  { intros H. apply bind_inv in H as (rs & l1 & l2 & E & H & ->).
    injection H as <- <-. left. eauto. }
  destruct (_ || gen_allow); [|discriminate].
  destruct args as [|a0 args]; [discriminate|].
  intros H. apply bind_inv in H as (r' & l1 & l2 & E & H & ->).
  injection H as <- <-. right. exists (typename ++ str "[" ++ r').
  rewrite <- !app_assoc. reflexivity.
Qed.

(** The bare-name lookup prints the message about [pytype] exactly when it
    returns "object" for a name that is not a registered rule. *)
Lemma lookup_name_log pytype base r l d :
  lookup_name CUSTOM_TYPE_MAP pytype base = Done r l -> In d l ->
  (d = Unrecognized pytype /\ r = str "object") \/ d = ExpectedParams base.
Proof.
  unfold lookup_name.
  destruct (CUSTOM_TYPE_MAP !! base) as [[template [|k keys]]|].
  - intros [= <- <-] [].
  - intros [= <- <-] [<-|[]]. right. reflexivity.
  - cbv zeta. destruct (Py.eqs _ (str "object")) eqn:E.
    + apply eqs_true in E. rewrite E. intros [= <- <-] [<-|[]]. left. auto.
    + intros [= <- <-] [].
Qed.

Lemma lookup_name_object pytype base l :
  CUSTOM_TYPE_MAP !! base = None ->
  lookup_name CUSTOM_TYPE_MAP pytype base = Done (str "object") l ->
  l = [Unrecognized pytype].
Proof.
  unfold lookup_name. intros ->. cbv zeta.
  destruct (Py.eqs _ (str "object")) eqn:E.
  - intros [= _ <-]. reflexivity.
  - apply eqs_false in E. intros H. injection H as H _. exfalso. exact (E H).
Qed.

Lemma startswith_app p rest : Py.startswith p (p ++ rest) = true.
Proof.
  induction p as [|a p IH]; [reflexivity|]. simpl.
  rewrite Ascii.eqb_refl, IH. reflexivity.
Qed.

(** The ways through the body of [map_type]. *)
Lemma map_type_body_inv pytype r l :
  map_type_body CUSTOM_TYPE_MAP gen_allow f pytype = Done r l ->
  let base := Py.replace (str " ") [] (Py.strip pytype) in
  (Py.isdigit base = true /\ r = base /\ l = [])
  \/ (Py.isdigit base = false
      /\ Re.rmatch Re.generic_pattern base = None
      /\ lookup_name CUSTOM_TYPE_MAP pytype base = Done r l)
  \/ (Py.isdigit base = false
      /\ exists typename args_str o l1,
           length args_str < length base
           /\ Re.rmatch Re.generic_pattern base
              = Some (<[2 := args_str]> (<[1 := typename]> ∅))
           /\ is_identifier typename = true
           /\ Py.startswith typename base = true
           /\ try_custom_template CUSTOM_TYPE_MAP f typename
                (map Py.strip (Py.split "," args_str)) = Done o l1
           /\ ((truthy o = true /\ o = Some r /\ l = l1)
               \/ (truthy o = false
                   /\ exists b l2,
                        builtin_generic gen_allow f typename
                          (map Py.strip (Py.split "," args_str)) = Done b l2
                        /\ ((b = Some r /\ l = l1 ++ l2)
                            \/ (b = None
                                /\ exists l3,
                                     lookup_name CUSTOM_TYPE_MAP pytype base
                                     = Done r l3
                                     /\ l = l1 ++ l2 ++ l3))))).
Proof.
  unfold map_type_body. cbv zeta.
  set (base := Py.replace (str " ") [] (Py.strip pytype)).
  destruct (Py.isdigit base) eqn:Hd.
  { intros [= <- <-]. left. auto. }
  destruct (Re.rmatch Re.generic_pattern base) as [m|] eqn:Em.
  2: { intros H. right. left. auto. }
  intros H. right. right. split; [reflexivity|].
  destruct (generic_args_shorter _ _ Em) as (typename & args_str & Eg & Hlen).
  pose proof Em as Em'.
  apply generic_pattern_inv in Em'
    as (c & name & args' & tail & Eb & Hc & Hn & _ & _ & ->).
  unfold groups2, Re.group in Eg.
  rewrite lookup_insert_ne, lookup_insert_eq, lookup_insert_eq in Eg by lia.
  injection Eg as <- <-.
  unfold groups2, Re.group in H.
  rewrite lookup_insert_ne, lookup_insert_eq, lookup_insert_eq in H by lia.
  rewrite bind_ret in H. cbv beta iota in H.
  apply bind_inv in H as (o & l1 & l' & Et & H & ->).
  exists (c :: name), args', o, l1.
  split; [exact Hlen|]. split; [reflexivity|].
  split; [simpl; rewrite Hc; exact Hn|].
  split; [rewrite Eb; apply startswith_app|]. split; [exact Et|].
  destruct (truthy o) eqn:Ho.
  - left. injection H as <- <-. rewrite app_nil_r.
    destruct o as [[|? ?]|]; try discriminate Ho. auto.
  - right. split; [reflexivity|]. unfold after_template in H.
    apply bind_inv in H as (b & l2 & l3 & Eb' & H & ->).
    exists b, l2. split; [exact Eb'|].
    destruct b as [r'|].
    + left. injection H as <- <-. rewrite app_nil_r. auto.
    + right. split; [reflexivity|]. exists l3. auto.
Qed.

End Logs.

(** ** The message about an unrecognized type *)

Lemma stripped_arg_short args_str a :
  In a (map Py.strip (Py.split "," args_str)) -> length a <= length args_str.
Proof.
  intros H. pose proof (stripped_args_short args_str) as HF.
  rewrite List.Forall_forall in HF. apply (HF a H).
Qed.

(** Every message about an unrecognized type in the log of a call concerns
    a string no longer than the argument of the call, and the one about the
    argument itself comes with the result "object". *)
Lemma map_type_log_short reg ga : forall n pytype r l q,
  length pytype < n ->
  map_type reg ga pytype = Done r l -> In (Unrecognized q) l ->
  length q <= length pytype /\ (q = pytype -> r = str "object").
Proof.
  induction n as [|n IH]; intros pytype r l q Hn H Hq; [lia|].
  rewrite map_type_unfold in H.
  pose proof (normalize_short pytype) as Hbase.
  assert (Hnested : forall a r' l',
            length a < length pytype ->
            map_type reg ga a = Done r' l' -> In (Unrecognized q) l' ->
            length q <= length pytype /\ (q = pytype -> r = str "object")).
  { intros a r' l' Ha Ea Hl.
    destruct (IH a r' l' q ltac:(lia) Ea Hl) as [Hlen _].
    split; [lia|]. intros ->. lia. }
  assert (Hlook : forall l3,
            lookup_name reg pytype
              (Py.replace (str " ") [] (Py.strip pytype)) = Done r l3 ->
            In (Unrecognized q) l3 ->
            length q <= length pytype /\ (q = pytype -> r = str "object")).
  { intros l3 El Hl.
    destruct (lookup_name_log _ _ _ _ _ _ El Hl) as [[[= ->] ->]|[=]]. auto. }
  apply map_type_body_inv in H. cbv zeta in H.
  destruct H as [(_ & _ & ->)|[(_ & _ & El)|(_ & tn & args_str & o & l1 & Hlen
    & _ & _ & _ & Et & Hrest)]].
  - destruct Hq.
  - eauto.
  - assert (Hl1 : In (Unrecognized q) l1 ->
              length q <= length pytype /\ (q = pytype -> r = str "object")).
    { intros Hl.
      destruct (try_custom_template_log _ _ _ _ _ _ _ Et Hl)
        as [[=]|(a & r' & l' & Ha & Ea & Hd)].
      apply stripped_arg_short in Ha.
      pose proof (length_unwrap_literal (Py.strip a)).
      pose proof (length_strip a).
      eapply Hnested; [|exact Ea|exact Hd]; lia. }
    destruct Hrest as [(_ & _ & ->)|(_ & b & l2 & Eb & Hrest)]; [auto|].
    assert (Hl2 : In (Unrecognized q) l2 ->
              length q <= length pytype /\ (q = pytype -> r = str "object")).
    { intros Hl.
      destruct (builtin_generic_log _ _ _ _ _ _ _ Eb Hl)
        as (a & r' & l' & Ha & [Ea|Ea] & Hd);
        apply stripped_arg_short in Ha.
      - eapply Hnested; [|exact Ea|exact Hd]; lia.
      - pose proof (length_unwrap_literal a).
        eapply Hnested; [|exact Ea|exact Hd]; lia. }
    destruct Hrest as [(_ & ->)|(_ & l3 & El & ->)].
    + apply List.in_app_or in Hq as [Hq|Hq]; auto.
    + apply List.in_app_or in Hq as [Hq|Hq]; [auto|].
      apply List.in_app_or in Hq as [Hq|Hq]; eauto.
Qed.

(** Whatever returns "object" is the bare-name lookup, which says so, or a
    template rule whose name starts the expression. *)
Lemma map_type_object_source reg ga pytype l :
  map_type reg ga pytype = Done (str "object") l ->
  In (Unrecognized pytype) l
  \/ exists name,
       is_Some (reg !! name)
       /\ Py.startswith name (Py.replace (str " ") [] (Py.strip pytype)) = true.
Proof.
  intros H. rewrite map_type_unfold in H.
  apply map_type_body_inv in H. cbv zeta in H.
  set (base := Py.replace (str " ") [] (Py.strip pytype)) in *.
  assert (Hlook : forall l3,
            lookup_name reg pytype base = Done (str "object") l3 ->
            In (Unrecognized pytype) l3
            \/ exists name,
                 is_Some (reg !! name) /\ Py.startswith name base = true).
  { intros l3 El. destruct (reg !! base) as [rule|] eqn:Hb.
    - right. exists base. split; [rewrite Hb; eauto|].
      rewrite <- (app_nil_r base) at 2. apply startswith_app.
    - left. apply lookup_name_object in El as ->; [left; reflexivity|exact Hb]. }
  destruct H as [(Hd & Hb & _)|[(_ & _ & El)|(_ & tn & args_str & o & l1 & _
    & _ & _ & Hpre & Et & Hrest)]].
  - rewrite <- Hb in Hd. discriminate Hd.
  - auto.
  - destruct (reg !! tn) as [rule|] eqn:Htn.
    { right. exists tn. split; [rewrite Htn; eauto|exact Hpre]. }
    unfold try_custom_template in Et. rewrite Htn in Et.
    injection Et as <- <-.
    destruct Hrest as [([=] & _)|(_ & b & l2 & Eb & Hrest)].
    destruct Hrest as [(-> & ->)|(_ & l3 & El & ->)].
    + exfalso. apply builtin_generic_shape in Eb as [[x Hx]|[x Hx]].
      * discriminate Hx.
      * change (str "object") with (str "objec" ++ str "t") in Hx.
        apply app_inj_tail in Hx as [_ [=]].
    + destruct (Hlook l3 El) as [Hin|Hname]; [|right; exact Hname].
      left. apply List.in_or_app. right. apply List.in_or_app. right.
      exact Hin.
Qed.

(** C9, as the code has it.  The message "Unrecognized type" about the
    argument of a call is printed only by the last lines of [map_type],
    under the test that the value about to be returned there is "object".
    So, for every registry: a call that prints it returns "object"; for a
    name that is not a registered rule the last lines print it exactly when
    they return "object"; and a call that returns "object" prints it,
    unless the name of a registered rule starts the expression, since what
    a template rule produces is returned earlier, without the message.  The
    primitive Any, which [TYPE_MAP] maps to "object", prints it; the unknown
    identifier Foo, returned as its own text, does not. *)
Theorem unrecognized_iff_object :
  (forall reg ga pytype,
     In (Unrecognized pytype) (stderr (map_type reg ga pytype)) ->
     value (map_type reg ga pytype) = Some (str "object"))
  /\ (forall reg ga pytype,
        value (map_type reg ga pytype) = Some (str "object") ->
        In (Unrecognized pytype) (stderr (map_type reg ga pytype))
        \/ exists name,
             is_Some (reg !! name)
             /\ Py.startswith name
                  (Py.replace (str " ") [] (Py.strip pytype)) = true)
  /\ (forall reg pytype base r l,
        reg !! base = None ->
        lookup_name reg pytype base = Done r l ->
        (r = str "object" /\ l = [Unrecognized pytype])
        \/ (r <> str "object" /\ l = []))
  /\ TYPE_MAP !! str "Any" = Some (str "object")
  /\ map_type ∅ false (str "Any")
     = Done (str "object") [Unrecognized (str "Any")]
  /\ map_type ∅ false (str "Foo") = Done (str "Foo") [].
Proof.
  split; [|split; [|split]].
  - intros reg ga pytype Hin.
    destruct (map_type_done reg ga pytype) as (r & l & E).
    rewrite E in Hin |- *. simpl in Hin |- *.
    destruct (map_type_log_short reg ga (S (length pytype)) pytype r l pytype
                ltac:(lia) E Hin) as [_ ->]; reflexivity.
  - intros reg ga pytype Hv.
    destruct (map_type_done reg ga pytype) as (r & l & E).
    rewrite E in Hv |- *. simpl in Hv |- *. injection Hv as ->.
    apply (map_type_object_source reg ga pytype l E).
  - intros reg pytype base r l Hreg. unfold lookup_name. rewrite Hreg.
    cbv zeta. destruct (Py.eqs _ (str "object")) eqn:E.
    + apply eqs_true in E. rewrite E. intros [= <- <-]. left. auto.
    + apply eqs_false in E. intros [= <- <-]. right. auto.
  - repeat split; vm_compute; reflexivity.
Qed.

Lemma unrecognized_iff_object_witness :
  value (map_type ∅ false (str "Any")) = Some (str "object")
  /\ In (Unrecognized (str "Any")) (stderr (map_type ∅ false (str "Any"))).
Proof.
  split.
  - apply (proj1 unrecognized_iff_object ∅ false (str "Any")).
    vm_compute. left. reflexivity.
  - destruct (proj1 (proj2 unrecognized_iff_object)
                (∅ : gmap pystr (pystr * list pystr)) false (str "Any"))
      as [H|(name & [rule H] & _)].
    + vm_compute. reflexivity.
    + exact H.
    + rewrite lookup_empty in H. discriminate H.
Defined.

(** C9 as it is worded fails for a registered rule whose template is
    the text "object": the bare name of the rule returns "object" through
    the return of line 114, and nothing is printed. *)
Lemma template_object_prints_nothing :
  map_type {[ str "Obj" := (str "object", []) ]} false (str "Obj")
  = Done (str "object") []
  /\ value (map_type {[ str "Obj" := (str "object", []) ]} false (str "Obj"))
     = Some (str "object")
  /\ ~ In (Unrecognized (str "Obj"))
         (stderr (map_type {[ str "Obj" := (str "object", []) ]} false
                    (str "Obj"))).
Proof.
  split; [vm_compute; reflexivity|]. split; [vm_compute; reflexivity|].
  intros H. vm_compute in H. exact H.
Qed.

(** ** Template rules *)

Lemma replace_nonempty old new s :
  s <> [] -> new <> [] -> Py.replace old new s <> [].
Proof.
  intros Hs Hnew. destruct s as [|c s]; [congruence|].
  destruct old as [|a old]; simpl.
  - destruct new; [congruence|discriminate].
  - destruct (Ascii.eqb a c && Py.startswith old s).
    + destruct new; [congruence|discriminate].
    + discriminate.
Qed.

Lemma substitute_nonempty subs : forall template,
  template <> [] -> Forall (fun kv => snd kv <> []) subs ->
  substitute template subs <> [].
Proof.
  unfold substitute. induction subs as [|[k v] subs IH]; intros t Ht HF;
    cbn [fold_left].
  - exact Ht.
  - inversion HF as [|? ? Hv HF']; subst. apply IH; [|exact HF'].
    apply replace_nonempty; assumption.
Qed.

Lemma dict_set_values (P : pystr -> Prop) key val d :
  P val -> Forall (fun kv => P (snd kv)) d ->
  Forall (fun kv => P (snd kv)) (dict_set key val d).
Proof.
  intros Hv. induction 1 as [|[k v] d Hk Hd IH]; simpl.
  - repeat constructor. exact Hv.
  - destruct (Py.eqs k key); constructor; auto.
Qed.

Lemma bindings_values (P : pystr -> Prop) keys vals :
  Forall P vals -> Forall (fun kv => P (snd kv)) (bindings keys vals).
Proof.
  intros HF. unfold bindings.
  assert (H0 : Forall (fun kv : pystr * pystr => P (snd kv)) []) by constructor.
  revert H0. generalize (@nil (pystr * pystr)) as d.
  revert vals HF. induction keys as [|k keys IH]; intros vals HF d Hd; simpl.
  - exact Hd.
  - destruct vals as [|v vals]; simpl; [exact Hd|].
    inversion HF; subst. apply IH; [assumption|].
    apply dict_set_values; assumption.
Qed.

Section Templates.

Variable CUSTOM_TYPE_MAP : gmap pystr (pystr * list pystr).
Variable gen_allow : bool.

Lemma mapM_values (g : pystr -> res pystr) (P : pystr -> Prop) xs :
  (forall a r l, g a = Done r l -> P r) ->
  forall rs l, mapM g xs = Done rs l -> Forall P rs.
Proof.
  intros Hg. induction xs as [|x xs IH]; intros rs l H; simpl in H.
  - injection H as <- <-. constructor.
  - apply bind_inv in H as (y & l1 & l2 & E & H & ->).
    apply bind_inv in H as (ys & l3 & l4 & E' & H & ->).
    injection H as <- <-. constructor; eauto.
Qed.

(** The first loop of [try_custom_template], seen as one pass that maps the
    arguments and one that fills the dict. *)
Lemma bind_params_mapM (f : pystr -> res pystr) keys : forall vals subs mapped l,
  length keys = length vals ->
  mapM (fun val => f (unwrap_literal (Py.strip val))) vals = Done mapped l ->
  bind_params f (combine keys vals) subs
  = Done (fold_left (fun d kv => dict_set (fst kv) (snd kv) d)
            (combine keys mapped) subs) l.
Proof.
  induction keys as [|k keys IH]; intros vals subs mapped l Hlen H;
    destruct vals as [|v vals]; try discriminate Hlen; simpl in H.
  - injection H as <- <-. reflexivity.
  - apply bind_inv in H as (y & l1 & l2 & E & H & ->).
    apply bind_inv in H as (ys & l3 & l4 & E' & H & ->).
    injection H as <- <-. rewrite app_nil_r. simpl.
    eapply bind_done_done; [exact E|].
    apply IH; [simpl in Hlen; lia|exact E'].
Qed.

Lemma lookup_name_nonempty pytype base r l :
  registry_ok CUSTOM_TYPE_MAP ->
  lookup_name CUSTOM_TYPE_MAP pytype base = Done r l -> r <> [].
Proof.
  intros Hok. unfold lookup_name.
  destruct (CUSTOM_TYPE_MAP !! base) as [[template keys]|] eqn:E.
  - apply Hok in E. simpl in E. intros H.
    apply bind_inv in H as (? & ? & ? & _ & [= <- _] & _). exact E.
  - cbv zeta. intros H.
    apply bind_inv in H as (? & ? & ? & _ & [= <- _] & _).
    unfold or_else.
    repeat match goal with
           | |- context [match ?x with _ => _ end] => destruct x
           end; discriminate.
Qed.

(** With a registry as the program builds it, [map_type] never returns the
    empty string. *)
Lemma map_type_nonempty pytype r l :
  registry_ok CUSTOM_TYPE_MAP ->
  map_type CUSTOM_TYPE_MAP gen_allow pytype = Done r l -> r <> [].
Proof.
  intros Hok H. rewrite map_type_unfold in H.
  apply map_type_body_inv in H. cbv zeta in H.
  destruct H as [(Hd & -> & _)|[(_ & _ & El)|(_ & tn & args_str & o & l1 & _
    & _ & _ & _ & Et & Hrest)]].
  - intros E. rewrite E in Hd. discriminate Hd.
  - eapply lookup_name_nonempty; eauto.
  - destruct Hrest as [(Ho & -> & _)|(_ & b & l2 & Eb & Hrest)].
    + destruct r; [discriminate Ho|discriminate].
    + destruct Hrest as [(-> & _)|(_ & l3 & El & _)].
      * apply builtin_generic_shape in Eb as [[x ->]|[x ->]]; [discriminate|].
        destruct x; discriminate.
      * eapply lookup_name_nonempty; eauto.
Qed.

Lemma isdigit_identifier_prefix name rest :
  is_identifier name = true -> Py.isdigit (name ++ rest) = false.
Proof.
  destruct name as [|c w]; [discriminate|]. simpl.
  intros [Hc _]%andb_prop. rewrite (ident_start_not_digit _ Hc). reflexivity.
Qed.

(** The first pattern on the normal form [name[args_str]]. *)
Lemma generic_pattern_call name args_str :
  is_identifier name = true -> forallb Re.dot args_str = true ->
  Re.rmatch Re.generic_pattern (name ++ str "[" ++ args_str ++ str "]")
  = Some (<[2 := args_str]> (<[1 := name]> ∅)).
Proof.
  destruct name as [|c w]; [discriminate|]. simpl is_identifier.
  intros [Hc Hw]%andb_prop Ha. apply generic_pattern_match; assumption.
Qed.

(** The body of [map_type] on [name[args_str]], up to the call of
    [try_custom_template]. *)
Lemma map_type_body_call f pytype name args_str :
  is_identifier name = true -> forallb Re.dot args_str = true ->
  Py.replace (str " ") [] (Py.strip pytype)
  = name ++ str "[" ++ args_str ++ str "]" ->
  map_type_body CUSTOM_TYPE_MAP gen_allow f pytype
  = (substituted ← try_custom_template CUSTOM_TYPE_MAP f name
                     (map Py.strip (Py.split "," args_str));
     if truthy substituted then mret (default [] substituted)
     else after_template CUSTOM_TYPE_MAP gen_allow f name
            (map Py.strip (Py.split "," args_str)) pytype
            (name ++ str "[" ++ args_str ++ str "]")).
Proof.
  intros Hname Hargs Hbase.
  unfold map_type_body. cbv zeta. rewrite Hbase.
  rewrite (isdigit_identifier_prefix _ _ Hname).
  rewrite (generic_pattern_call _ _ Hname Hargs).
  unfold groups2, Re.group.
  rewrite lookup_insert_ne, lookup_insert_eq, lookup_insert_eq by lia.
  rewrite bind_ret. reflexivity.
Qed.

Lemma map_type_call pytype name args_str :
  is_identifier name = true -> forallb Re.dot args_str = true ->
  Py.replace (str " ") [] (Py.strip pytype)
  = name ++ str "[" ++ args_str ++ str "]" ->
  map_type CUSTOM_TYPE_MAP gen_allow pytype
  = (substituted ← try_custom_template CUSTOM_TYPE_MAP
                     (map_type CUSTOM_TYPE_MAP gen_allow) name
                     (map Py.strip (Py.split "," args_str));
     if truthy substituted then mret (default [] substituted)
     else after_template CUSTOM_TYPE_MAP gen_allow
            (map_type CUSTOM_TYPE_MAP gen_allow) name
            (map Py.strip (Py.split "," args_str)) pytype
            (name ++ str "[" ++ args_str ++ str "]")).
Proof.
  intros Hname Hargs Hbase. rewrite map_type_unfold at 1.
  apply map_type_body_call; assumption.
Qed.

End Templates.

(** ** Generics nested to any depth *)

Lemma split_plain sep s : lacks sep s = true -> Py.split sep s = [s].
Proof.
  unfold lacks. induction s as [|c s IH]; [reflexivity|]. simpl.
  intros [Hc Hs]%andb_prop. apply negb_true_iff in Hc.
  rewrite Ascii.eqb_sym, Hc, (IH Hs). reflexivity.
Qed.

Lemma nested_list_tame depth : forallb tame (nested_list depth) = true.
Proof.
  induction depth as [|d IH]; [reflexivity|].
  cbn [nested_list]. rewrite !forallb_app, IH. reflexivity.
Qed.

Lemma tame_facts s :
  forallb tame s = true ->
  Py.strip s = s /\ Py.replace (str " ") [] s = s
  /\ Py.split "," s = [s] /\ forallb Re.dot s = true.
Proof.
  intros H.
  assert (Hall : forall q : ascii -> bool,
            (forall c, tame c = true -> q c = true) -> forallb q s = true).
  { intros q Hq. eapply forallb_weaken; [exact Hq|exact H]. }
  repeat split.
  - apply strip_plain, Hall. intros c Hc. unfold tame in Hc.
    apply andb_prop in Hc as [[[Hc _]%andb_prop _]%andb_prop _]. exact Hc.
  - apply remove_spaces_plain, Hall. intros c Hc. unfold tame in Hc.
    apply andb_prop in Hc as [[[_ Hc]%andb_prop _]%andb_prop _]. exact Hc.
  - apply split_plain, Hall. intros c Hc. unfold tame in Hc.
    apply andb_prop in Hc as [[_ Hc]%andb_prop _]. exact Hc.
  - apply Hall. intros c Hc. unfold tame in Hc.
    apply andb_prop in Hc as [_ Hc]. exact Hc.
Qed.

Lemma nested_list_not_wrapped depth : wrapped (nested_list depth) = false.
Proof. destruct depth; reflexivity. Qed.

(** One level of nesting costs one nested call. *)
Lemma nested_list_step ga f d :
  map_type_body ∅ ga f (nested_list (S d))
  = match f (nested_list d) with
    | Done inner l => Done (str "list[" ++ inner ++ str "]") l
    | Raised e l => Raised e l
    | OutOfFuel => OutOfFuel
    end.
Proof.
  destruct (tame_facts _ (nested_list_tame (S d))) as (Hs & Hr & _ & _).
  destruct (tame_facts _ (nested_list_tame d)) as (Hs' & _ & Hsplit & Hdot).
  rewrite (map_type_body_call ∅ ga f (nested_list (S d)) (str "list")
             (nested_list d));
    [|reflexivity|exact Hdot|rewrite Hs, Hr; reflexivity].
  unfold try_custom_template. rewrite lookup_empty. cbv beta iota.
  rewrite bind_ret. cbn [truthy]. unfold after_template, builtin_generic.
  change (Py.eqs (str "list") (str "tuple")) with false. cbv iota.
  change (existsb (Py.eqs (str "list"))
            [str "tuple"; str "set"; str "list"; str "dict"]) with true.
  cbn [orb]. rewrite Hsplit. cbn [map]. rewrite Hs'.
  rewrite (unwrap_literal_plain _ (nested_list_not_wrapped d)).
  destruct (f (nested_list d)) as [inner l| |]; try reflexivity.
  unfold mbind, res_bind, mret, res_ret.
  repeat (simpl; rewrite <- ?app_assoc, ?app_nil_r). reflexivity.
Qed.

(** [map_type] follows the nesting to any depth. *)
Lemma map_type_nested_list ga depth :
  map_type ∅ ga (nested_list depth) = Done (nested_list depth) [].
Proof.
  induction depth as [|d IH]; [destruct ga; vm_compute; reflexivity|].
  rewrite map_type_unfold, nested_list_step, IH. reflexivity.
Qed.

(** The nested calls are as deep as the brackets: [depth] units of fuel
    are used up by [nested_list depth], one more is enough. *)
Lemma nested_list_fuel ga depth :
  map_type_fuel ∅ ga depth (nested_list depth) = OutOfFuel
  /\ map_type_fuel ∅ ga (S depth) (nested_list depth)
     = Done (nested_list depth) [].
Proof.
  induction depth as [|d [IH1 IH2]].
  - split; [reflexivity|destruct ga; vm_compute; reflexivity].
  - split.
    + change (map_type_fuel ∅ ga (S d) (nested_list (S d)))
        with (map_type_body ∅ ga (map_type_fuel ∅ ga d) (nested_list (S d))).
      rewrite nested_list_step, IH1. reflexivity.
    + change (map_type_fuel ∅ ga (S (S d)) (nested_list (S d)))
        with (map_type_body ∅ ga (map_type_fuel ∅ ga (S d))
                (nested_list (S d))).
      rewrite nested_list_step, IH2. reflexivity.
Qed.

(** ** The type mapping engine: termination and the fallback *)

(** When nothing recognizes the normal form of the expression, the fallback
    token is returned and announced. *)
Lemma map_type_fallback reg ga pytype :
  let base := Py.replace (str " ") [] (Py.strip pytype) in
  Py.isdigit base = false ->
  Re.rmatch Re.generic_pattern base = None ->
  reg !! base = None ->
  Re.rmatch Re.name_pattern (unwrap_literal base) = None ->
  map_type reg ga pytype = Done (str "object") [Unrecognized pytype].
Proof.
  intros base Hd Hg Hr Hn. rewrite map_type_unfold.
  unfold map_type_body. fold base. cbv zeta. rewrite Hd, Hg.
  unfold lookup_name. rewrite Hr. cbv zeta. rewrite Hn. reflexivity.
Qed.

(** ** Opening brackets *)

Lemma brackets_app a b : brackets (a ++ b) = brackets a + brackets b.
Proof. induction a as [|c a IH]; simpl; [reflexivity|]. rewrite IH. lia. Qed.

Lemma brackets_rev s : brackets (rev s) = brackets s.
Proof.
  induction s as [|c s IH]; simpl; [reflexivity|].
  rewrite brackets_app, IH. simpl. lia.
Qed.

Lemma brackets_lstrip s : brackets (Py.lstrip s) <= brackets s.
Proof.
  induction s as [|c s IH]; simpl; [lia|].
  destruct (Py.isspace c); simpl; lia.
Qed.

Lemma brackets_strip s : brackets (Py.strip s) <= brackets s.
Proof.
  unfold Py.strip, Py.rstrip. rewrite brackets_rev.
  etransitivity; [apply brackets_lstrip|]. rewrite brackets_rev.
  apply brackets_lstrip.
Qed.

Lemma brackets_replace_from_nil old skip s :
  brackets (Py.replace_from old [] skip s) <= brackets s.
Proof.
  revert skip. induction s as [|c s IH]; intros skip; simpl; [lia|].
  destruct skip as [|k].
  - destruct (Py.startswith old (c :: s)); simpl.
    + specialize (IH (length old - 1)). lia.
    + specialize (IH 0). lia.
  - specialize (IH k). lia.
Qed.

Lemma brackets_normal pytype :
  brackets (Py.replace (str " ") [] (Py.strip pytype)) <= brackets pytype.
Proof.
  etransitivity; [apply brackets_replace_from_nil|]. apply brackets_strip.
Qed.

Lemma brackets_split sep s x :
  In x (Py.split sep s) -> brackets x <= brackets s.
Proof.
  revert x. induction s as [|c s IH]; intros x; simpl.
  - intros [<-|[]]. simpl. lia.
  - destruct (Ascii.eqb c sep).
    + intros [<-|Hx]; simpl; [lia|]. specialize (IH _ Hx). lia.
    + destruct (Py.split sep s) as [|h t] eqn:E.
      * intros [<-|[]]. simpl. lia.
      * intros [<-|Hx]; simpl.
        -- specialize (IH h (or_introl eq_refl)). lia.
        -- specialize (IH x (or_intror Hx)). lia.
Qed.

Lemma brackets_skipn n s : brackets (skipn n s) <= brackets s.
Proof.
  revert n. induction s as [|c s IH]; intros [|n]; simpl; try lia.
  specialize (IH n). lia.
Qed.

Lemma brackets_firstn n s : brackets (firstn n s) <= brackets s.
Proof.
  revert n. induction s as [|c s IH]; intros [|n]; simpl; try lia.
  specialize (IH n). lia.
Qed.

Lemma brackets_slice a b s : brackets (Py.slice a b s) <= brackets s.
Proof.
  unfold Py.slice. etransitivity; [apply brackets_firstn|apply brackets_skipn].
Qed.

Lemma brackets_unwrap_literal s : brackets (unwrap_literal s) <= brackets s.
Proof.
  unfold unwrap_literal. generalize (length s) as n. intros n. revert s.
  induction n as [|n IH]; intros s; simpl; [lia|].
  destruct (wrapped s); [|lia].
  etransitivity; [apply IH|apply brackets_slice].
Qed.

(** The arguments of a generic hold fewer opening brackets than the whole
    expression: the bracket after the name is not among them. *)
Lemma generic_args_brackets base m :
  Re.rmatch Re.generic_pattern base = Some m ->
  exists typename args_str,
    groups2 m = mret (typename, args_str)
    /\ brackets args_str < brackets base.
Proof.
  intros H. apply generic_pattern_inv in H
    as (c & name & args & tail & -> & _ & _ & _ & _ & ->).
  exists (c :: name), args. split.
  - unfold groups2, Re.group.
    rewrite lookup_insert_ne, lookup_insert_eq, lookup_insert_eq by lia.
    reflexivity.
  - rewrite !brackets_app. simpl. lia.
Qed.

Lemma stripped_args_brackets args_str :
  Forall (fun a => brackets a <= brackets args_str)
         (map Py.strip (Py.split "," args_str)).
Proof.
  apply List.Forall_forall. intros a [x [<- Hx]]%List.in_map_iff.
  pose proof (brackets_strip x). pose proof (brackets_split _ _ _ Hx). lia.
Qed.

(** ** The engine in the interpreter and the engine on strings *)

Lemma strings_of_strings rs : Interp.strings (map CStr rs) = Some rs.
Proof.
  induction rs as [|r rs IH]; [reflexivity|]. simpl. rewrite IH. reflexivity.
Qed.

Lemma dict_set_as_constants k v d :
  Interp.dict_set k (CStr v) (as_constants d) = as_constants (dict_set k v d).
Proof.
  induction d as [|[k' v'] d IH]; [reflexivity|]. simpl.
  destruct (Py.eqs k' k); [reflexivity|]. rewrite IH. reflexivity.
Qed.

Lemma substitute_as_constants d : forall t,
  Interp.substitute (CStr t) (as_constants d) = Done (CStr (substitute t d)) [].
Proof.
  induction d as [|[k v] d IH]; intros t; [reflexivity|].
  cbn [as_constants map fst snd Interp.substitute Interp.replace_placeholder].
  rewrite bind_ret. apply IH.
Qed.

Section Agreement.

Variable reg : gmap pystr (pystr * list pystr).
Variable gen_allow : bool.
Variable fi : pystr -> res constant.
Variable fs : pystr -> res pystr.

Lemma mapM_agree (xs : list pystr) :
  Forall (agree fi fs) xs ->
  exists rs l, mapM fi xs = Done (map CStr rs) l /\ mapM fs xs = Done rs l.
Proof.
  induction 1 as [|x xs (r & l & E & E') _ (rs & l' & IH & IH')]; simpl.
  - exists [], []. auto.
  - exists (r :: rs), (l ++ l' ++ []). split.
    + eapply bind_done_done; [exact E|].
      eapply bind_done_done; [exact IH|]. reflexivity.
    + eapply bind_done_done; [exact E'|].
      eapply bind_done_done; [exact IH'|]. reflexivity.
Qed.

Lemma bind_params_agree pairs : forall subs,
  Forall (fun kv => agree fi fs (unwrap_literal (Py.strip (snd kv)))) pairs ->
  exists d l,
    Interp.bind_params fi pairs (as_constants subs) = Done (as_constants d) l
    /\ bind_params fs pairs subs = Done d l.
Proof.
  induction pairs as [|[k v] pairs IH]; intros subs HF; simpl.
  - exists subs, []. auto.
  - inversion HF as [|? ? (r & l & E & E') HF']; subst. simpl in E, E'.
    destruct (IH (dict_set k r subs) HF') as (d & l' & E1 & E1').
    exists d, (l ++ l'). split.
    + eapply bind_done_done; [exact E|]. rewrite dict_set_as_constants.
      exact E1.
    + eapply bind_done_done; [exact E'|]. exact E1'.
Qed.

Lemma try_custom_template_agree name args :
  Forall (fun a => agree fi fs (unwrap_literal (Py.strip a))) args ->
  exists o l,
    Interp.try_custom_template (templates reg) fi name args
    = Done (CStr <$> o) l
    /\ try_custom_template reg fs name args = Done o l.
Proof.
  intros HF. unfold Interp.try_custom_template, try_custom_template, templates.
  rewrite lookup_fmap.
  destruct (reg !! name) as [[template keys]|]; cbn [fmap option_fmap option_map fst snd].
  2: { exists None, []. auto. }
  destruct (negb (length keys =? length args)).
  { exists None, [ParamCountMismatch name]. split; reflexivity. }
  destruct (bind_params_agree (combine keys args) []) as (d & l & E & E').
  { apply List.Forall_forall. intros [k v] Hin. apply in_combine_r in Hin.
    rewrite List.Forall_forall in HF. apply (HF v Hin). }
  exists (Some (substitute template d)), (l ++ []). split.
  - eapply bind_done_done; [exact E|].
    rewrite (bind_done_ret _ _ _ _ (substitute_as_constants d template)).
    reflexivity.
  - eapply bind_done_done; [exact E'|]. reflexivity.
Qed.

Lemma builtin_generic_agree typename args :
  args <> [] ->
  Forall (agree fi fs) args ->
  Forall (fun a => agree fi fs (unwrap_literal a)) args ->
  exists o l,
    Interp.builtin_generic gen_allow fi typename args = Done (CStr <$> o) l
    /\ builtin_generic gen_allow fs typename args = Done o l.
Proof.
  intros Hne HF HU. unfold Interp.builtin_generic, builtin_generic.
  destruct (Py.eqs typename (str "tuple")).
  { destruct (mapM_agree args HF) as (rs & l & E & E').
    exists (Some (str "(" ++ Py.join (str ", ") rs ++ str ")")), (l ++ []).
    split.
    - eapply bind_done_done; [exact E|]. unfold Interp.join.
      rewrite strings_of_strings, !bind_ret. reflexivity.
    - eapply bind_done_done; [exact E'|]. reflexivity. }
  destruct (_ || gen_allow).
  2: { exists None, []. auto. }
  destruct args as [|a0 args]; [congruence|].
  inversion HU as [|? ? (r & l & E & E') _]; subst.
  exists (Some (typename ++ str "[" ++ r ++ str "]")), (l ++ []).
  split; eapply bind_done_done; eauto; reflexivity.
Qed.

Lemma lookup_name_agree pytype base :
  exists r l,
    Interp.lookup_name (templates reg) pytype base = Done (CStr r) l
    /\ lookup_name reg pytype base = Done r l.
Proof.
  unfold Interp.lookup_name, lookup_name, templates. rewrite lookup_fmap.
  destruct (reg !! base) as [[template [|k keys]]|];
    cbn [fmap option_fmap option_map fst snd].
  - eexists _, _. split; reflexivity.
  - eexists _, _. split; reflexivity.
  - cbv zeta. destruct (Py.eqs _ (str "object")); eexists _, _; split; reflexivity.
Qed.

(** The two bodies agree as soon as the nested calls, all on texts with
    fewer opening brackets, agree. *)
Lemma map_type_body_agree pytype :
  (forall a, brackets a < brackets pytype -> agree fi fs a) ->
  agree (Interp.map_type_body (templates reg) gen_allow fi)
        (map_type_body reg gen_allow fs) pytype.
Proof.
  intros Hrec. unfold agree, Interp.map_type_body, map_type_body. cbv zeta.
  pose proof (brackets_normal pytype) as Hbase.
  set (base := Py.replace (str " ") [] (Py.strip pytype)) in *.
  destruct (Py.isdigit base).
  { eexists _, _. split; reflexivity. }
  destruct (Re.rmatch Re.generic_pattern base) as [m|] eqn:Em.
  2: { apply lookup_name_agree. }
  destruct (generic_args_brackets _ _ Em) as (typename & args_str & Eg & Hlen).
  rewrite Eg, !bind_ret. cbv beta iota.
  pose proof (stripped_args_brackets args_str) as Hargs.
  set (args := map Py.strip (Py.split "," args_str)) in *.
  assert (Hne : args <> []).
  { unfold args. pose proof (split_nonempty "," args_str).
    destruct (Py.split "," args_str); [congruence|discriminate]. }
  assert (H1 : Forall (agree fi fs) args).
  { eapply List.Forall_impl; [|exact Hargs]. intros a Ha. cbv beta in Ha.
    apply Hrec. lia. }
  assert (H2 : Forall (fun a => agree fi fs (unwrap_literal a)) args).
  { eapply List.Forall_impl; [|exact Hargs]. intros a Ha. cbv beta in Ha.
    apply Hrec. pose proof (brackets_unwrap_literal a). lia. }
  assert (H3 : Forall (fun a => agree fi fs (unwrap_literal (Py.strip a))) args).
  { eapply List.Forall_impl; [|exact Hargs]. intros a Ha. cbv beta in Ha.
    apply Hrec. pose proof (brackets_unwrap_literal (Py.strip a)).
    pose proof (brackets_strip a). lia. }
  destruct (try_custom_template_agree typename args H3) as (o & l & E & E').
  assert (Hafter : exists r l',
            Interp.after_template (templates reg) gen_allow fi typename args
              pytype base = Done (CStr r) l'
            /\ after_template reg gen_allow fs typename args pytype base
               = Done r l').
  { destruct (builtin_generic_agree typename args Hne H1 H2)
      as (b & l' & Eb & Eb').
    destruct (lookup_name_agree pytype base) as (r & l'' & El & El').
    exists (default r b), (l' ++ match b with Some _ => [] | None => l'' end).
    unfold Interp.after_template, after_template. split.
    - eapply bind_done_done; [exact Eb|]. destruct b; [reflexivity|exact El].
    - eapply bind_done_done; [exact Eb'|]. destruct b; [reflexivity|exact El']. }
  destruct Hafter as (r & l' & Ea & Ea').
  destruct o as [[|c t]|]; cbn [fmap option_fmap option_map] in E.
  - exists r, (l ++ l'). split; eapply bind_done_done; eauto.
  - exists (c :: t), (l ++ []). split; eapply bind_done_done; eauto; reflexivity.
  - exists r, (l ++ l'). split; eapply bind_done_done; eauto.
Qed.

End Agreement.

(** With room for more nested calls than the text has opening brackets, and
    a registry of string templates, the engine in the interpreter returns
    what the engine on strings returns. *)
Lemma map_type_agree reg ga : forall room pytype,
  brackets pytype < room ->
  agree (Interp.map_type (templates reg) ga room) (map_type reg ga) pytype.
Proof.
  induction room as [|room IH]; intros pytype Hroom; [lia|].
  destruct (map_type_body_agree reg ga
              (Interp.map_type (templates reg) ga room) (map_type reg ga) pytype)
    as (r & l & E & E').
  { intros a Ha. apply IH. lia. }
  exists r, l. split; [exact E|]. rewrite map_type_unfold. exact E'.
Qed.

(** ** Nested lists and the room for nested calls *)

Lemma brackets_nested_list depth : brackets (nested_list depth) = depth.
Proof.
  induction depth as [|d IH]; [reflexivity|].
  cbn [nested_list]. rewrite !brackets_app, IH. simpl. lia.
Qed.

(** One level of nesting costs one nested call, in the interpreter too. *)
Lemma interp_nested_list_step ga f d :
  Interp.map_type_body ∅ ga f (nested_list (S d))
  = match f (nested_list d) with
    | Done inner l =>
        Done (CStr (str "list[" ++ Interp.show inner ++ str "]")) l
    | Raised e l => Raised e l
    | OutOfFuel => OutOfFuel
    end.
Proof.
  destruct (tame_facts _ (nested_list_tame (S d))) as (Hs & Hr & _ & _).
  destruct (tame_facts _ (nested_list_tame d)) as (Hs' & _ & Hsplit & Hdot).
  unfold Interp.map_type_body. cbv zeta. rewrite Hs, Hr.
  change (nested_list (S d))
    with (str "list" ++ str "[" ++ nested_list d ++ str "]").
  rewrite (isdigit_identifier_prefix (str "list") _ eq_refl).
  rewrite (generic_pattern_call (str "list") (nested_list d) eq_refl Hdot).
  unfold groups2, Re.group.
  rewrite lookup_insert_ne, lookup_insert_eq, lookup_insert_eq by lia.
  rewrite bind_ret. cbv beta iota.
  unfold Interp.try_custom_template. rewrite lookup_empty. rewrite bind_ret.
  unfold Interp.after_template, Interp.builtin_generic.
  change (Py.eqs (str "list") (str "tuple")) with false. cbv iota.
  change (existsb (Py.eqs (str "list"))
            [str "tuple"; str "set"; str "list"; str "dict"]) with true.
  cbn [orb]. rewrite Hsplit. cbn [map]. rewrite Hs'.
  rewrite (unwrap_literal_plain _ (nested_list_not_wrapped d)).
  destruct (f (nested_list d)) as [inner l| |]; try reflexivity.
  unfold mbind, res_bind, mret, res_ret.
  repeat (simpl; rewrite <- ?app_assoc, ?app_nil_r). reflexivity.
Qed.

(** A list nested as deep as there is room for nested calls, or deeper,
    uses the room up. *)
Lemma interp_nested_list_deep ga : forall room depth,
  room <= depth ->
  Interp.map_type ∅ ga room (nested_list depth) = Raised RecursionError [].
Proof.
  induction room as [|room IH]; intros depth Hd; [reflexivity|].
  destruct depth as [|d]; [lia|].
  change (Interp.map_type ∅ ga (S room) (nested_list (S d)))
    with (Interp.map_type_body ∅ ga (Interp.map_type ∅ ga room)
            (nested_list (S d))).
  rewrite interp_nested_list_step, IH by lia. reflexivity.
Qed.

Lemma templates_empty : templates ∅ = ∅.
Proof. apply fmap_empty. Qed.

(** A call that has room, on a registry of string templates. *)
Lemma interp_map_type_done reg ga room pytype r log :
  brackets pytype < room -> map_type reg ga pytype = Done r log ->
  Interp.map_type (templates reg) ga room pytype = Done (CStr r) log.
Proof.
  intros Hroom E.
  destruct (map_type_agree reg ga room pytype Hroom) as (r' & l' & Ei & Es).
  rewrite E in Es. injection Es as <- <-. exact Ei.
Qed.




Lemma startswith_closed (ch : ascii) p : forall n rest,
  lacks ch p = true -> lacks ch n = true ->
  Py.startswith (p ++ [ch]) (n ++ ch :: rest) = true -> p = n.
Proof.
  induction p as [|a p IH]; intros n rest Hp Hn H.
  - destruct n as [|b n]; [reflexivity|]. simpl in H, Hn.
    apply andb_prop in H as [Hab _]. apply andb_prop in Hn as [Hb _].
    rewrite Hab in Hb. discriminate Hb.
  - destruct n as [|b n]; simpl in H, Hp, Hn.
    + apply andb_prop in H as [Hab _]. apply andb_prop in Hp as [Ha _].
      rewrite Ascii.eqb_sym, Hab in Ha. discriminate Ha.
    + apply andb_prop in H as [Hab H]. apply Ascii.eqb_eq in Hab as ->.
      apply andb_prop in Hp as [_ Hp]. apply andb_prop in Hn as [_ Hn].
      f_equal. eapply IH; eauto.
Qed.

(** Only the name Literal makes [name[...]] a Literal wrapper. *)
Lemma call_not_wrapped name rest :
  is_identifier name = true -> name <> str "Literal" ->
  wrapped (name ++ str "[" ++ rest) = false.
Proof.
  intros Hname Hne. unfold wrapped.
  destruct (Py.startswith (str "Literal[") (name ++ str "[" ++ rest)) eqn:E;
    [|reflexivity].
  exfalso. apply Hne. symmetry.
  apply (startswith_closed "[" (str "Literal") name rest); [reflexivity| |exact E].
  apply identifier_lacks; [reflexivity|exact Hname].
Qed.

(** C2. Let Name be a registered rule with the template [template] and the
    parameters [params], in a registry whose templates are not empty (the
    registration keeps no other), and let the expression have the normal
    form Name[args_str], where Name is an identifier and args_str holds no
    line feed.  The arguments are the stripped pieces of args_str between
    commas.
    - With as many arguments as parameters, each argument is unwrapped and
      mapped, in order; the parameters are bound to the results; every
      placeholder is replaced in the template by [str.replace], one
      parameter after the other; and the substituted template is the result
      of [map_type].  No mismatch is reported: the log is the log of the
      nested calls.
    - With another number of arguments, the mismatch is reported first, no
      argument is mapped for the rule and the template is not used: the
      result is the one of the strategies that follow (built-in containers,
      then the bare-name lookup).  For a name that is not a built-in
      container nor Literal, with [gen_allow] off and the whole expression
      not a key of the registry, that result is the fallback token
      "object", announced after the mismatch. *)
Theorem template_rule_arity reg ga pytype name args_str template params :
  registry_ok reg ->
  is_identifier name = true -> forallb Re.dot args_str = true ->
  Py.replace (str " ") [] (Py.strip pytype)
  = name ++ str "[" ++ args_str ++ str "]" ->
  reg !! name = Some (template, params) ->
  (length params = length (map Py.strip (Py.split "," args_str)) ->
   exists mapped log,
     mapM (fun val => map_type reg ga (unwrap_literal (Py.strip val)))
          (map Py.strip (Py.split "," args_str)) = Done mapped log
     /\ map_type reg ga pytype
        = Done (substitute template (bindings params mapped)) log)
  /\ (length params <> length (map Py.strip (Py.split "," args_str)) ->
      exists r log,
        after_template reg ga (map_type reg ga) name
          (map Py.strip (Py.split "," args_str)) pytype
          (name ++ str "[" ++ args_str ++ str "]") = Done r log
        /\ map_type reg ga pytype = Done r (ParamCountMismatch name :: log)
        /\ (ga = false ->
            existsb (Py.eqs name)
              [str "tuple"; str "set"; str "list"; str "dict"] = false ->
            name <> str "Literal" ->
            reg !! (name ++ str "[" ++ args_str ++ str "]") = None ->
            r = str "object" /\ log = [Unrecognized pytype])).
Proof.
  intros Hok Hname Hdot Hbase Hreg.
  pose proof (map_type_call reg ga pytype name args_str Hname Hdot Hbase) as Hcall.
  set (args := map Py.strip (Py.split "," args_str)) in *.
  assert (Hdone : forall g : pystr -> pystr,
            Forall (same_done (fun a => map_type reg ga (g a))
                              (fun a => map_type reg ga (g a))) args).
  { intros g. apply List.Forall_forall. intros a _.
    destruct (map_type_done reg ga (g a)) as (r & l & E). exists r, l. auto. }
  split.
  - intros Hlen.
    destruct (mapM_same _ _ args (Hdone (fun a => unwrap_literal (Py.strip a))))
      as (mapped & log & Em & _).
    exists mapped, log. split; [exact Em|].
    rewrite Hcall. unfold try_custom_template. rewrite Hreg.
    apply Nat.eqb_eq in Hlen as Hlen'. rewrite Hlen'. cbn [negb].
    pose proof (bind_params_mapM (map_type reg ga) params args [] mapped log
                  Hlen Em) as Eb.
    fold (bindings params mapped) in Eb.
    assert (Hne : substitute template (bindings params mapped) <> []).
    { apply substitute_nonempty.
      - apply Hok in Hreg. exact Hreg.
      - apply (bindings_values (fun v => v <> [])).
        eapply mapM_values; [|exact Em]. intros a r l E. cbv beta in E.
        exact (map_type_nonempty reg ga _ r l Hok E). }
    rewrite (bind_done_done _ _ _ _ _ _ Eb eq_refl).
    rewrite (bind_done _ _ _ _ eq_refl).
    destruct (substitute template (bindings params mapped)); [congruence|].
    cbn [truthy default]. unfold mret, res_ret, id. rewrite !app_nil_r.
    reflexivity.
  - intros Hlen.
    assert (Hne : args <> []).
    { unfold args. pose proof (split_nonempty "," args_str).
      destruct (Py.split "," args_str); [congruence|discriminate]. }
    destruct (builtin_generic_same ga _ _ name args Hne
                (Hdone (fun a => a)) (Hdone unwrap_literal))
      as (b & l2 & Eb & _).
    destruct (lookup_name_done reg pytype (name ++ str "[" ++ args_str ++ str "]"))
      as (r3 & l3 & El).
    assert (Eafter : exists r log,
              after_template reg ga (map_type reg ga) name args pytype
                (name ++ str "[" ++ args_str ++ str "]") = Done r log).
    { unfold after_template. destruct b as [rb|].
      - eexists _, _. eapply bind_done_done; [exact Eb|reflexivity].
      - eexists _, _. eapply bind_done_done; [exact Eb|exact El]. }
    destruct Eafter as (r & log & Eafter).
    exists r, log. split; [exact Eafter|]. split.
    + rewrite Hcall. unfold try_custom_template. rewrite Hreg.
      apply Nat.eqb_neq in Hlen as Hlen'. rewrite Hlen'. cbn [negb].
      erewrite bind_done_done;
        [|apply bind_report; reflexivity|cbn [truthy]; exact Eafter].
      reflexivity.
    + intros -> Hbuiltin Hlit Hkey.
      unfold after_template, builtin_generic in Eafter.
      assert (Ht : Py.eqs name (str "tuple") = false).
      { cbn [existsb] in Hbuiltin. apply orb_false_elim in Hbuiltin. tauto. }
      rewrite Ht, Hbuiltin in Eafter. cbn [orb] in Eafter.
      rewrite bind_ret in Eafter.
      unfold lookup_name in Eafter. rewrite Hkey in Eafter. cbv zeta in Eafter.
      rewrite unwrap_literal_plain in Eafter
        by (apply call_not_wrapped; assumption).
      rewrite name_pattern_refuses_bracket in Eafter.
      2: { apply List.in_or_app. right. left. reflexivity. }
      injection Eafter as <- <-. auto.
Qed.

Lemma typingcy_ok : registry_ok typingcy.
Proof. unfold registry_ok. apply (bool_decide_unpack _). vm_compute. exact I. Qed.

Lemma template_rule_arity_witness :
  map_type typingcy false (str "static_List[int, Literal[500]]")
  = Done (str "int[500]") []
  /\ map_type typingcy false (str "static_List[int]")
     = Done (str "object")
         [ParamCountMismatch (str "static_List");
          Unrecognized (str "static_List[int]")].
Proof.
  split.
  - destruct (template_rule_arity typingcy false
                (str "static_List[int, Literal[500]]") (str "static_List")
                (str "int,Literal[500]") (str "{ArrayType}[{Size}]")
                [str "ArrayType"; str "Size"]
                typingcy_ok eq_refl eq_refl eq_refl eq_refl)
      as [Hexact _].
    destruct (Hexact eq_refl) as (mapped & log & Em & E).
    vm_compute in Em. injection Em as <- <-. exact E.
  - destruct (template_rule_arity typingcy false
                (str "static_List[int]") (str "static_List")
                (str "int") (str "{ArrayType}[{Size}]")
                [str "ArrayType"; str "Size"]
                typingcy_ok eq_refl eq_refl eq_refl eq_refl)
      as [_ Hmis].
    destruct Hmis as (r & log & _ & E & Hfall); [vm_compute; lia|].
    destruct Hfall as [-> ->];
      [reflexivity | vm_compute; reflexivity | intros H; discriminate H
      | vm_compute; reflexivity | exact E].
Defined.

(** C2 as the specification words it fails on a nested argument.  The rule
    static_List has two parameters and the first call below has two
    arguments, the first of which is a generic with two arguments of its
    own.  The source cuts the bracketed text at every comma, counts three
    arguments, reports a mismatch and ends on the fallback token.  The rule
    is not applied either when a line feed stands between the brackets,
    when the name of the rule is not made of ASCII letters, digits and
    underscores, or when the substituted template is empty: the first
    pattern of [map_type] does not match in the first two cases, and the
    empty result counts as no result in the third. *)
Lemma template_rule_exceptions :
  typingcy !! str "static_List"
  = Some (str "{ArrayType}[{Size}]", [str "ArrayType"; str "Size"])
  /\ top_level_args (str "tuple[int,str],500")
     = [str "tuple[int,str]"; str "500"]
  /\ map (Py.strip) (Py.split "," (str "tuple[int,str],500"))
     = [str "tuple[int"; str "str]"; str "500"]
  /\ map_type typingcy false (str "static_List[tuple[int, str], 500]")
     = Done (str "object")
         [ParamCountMismatch (str "static_List");
          Unrecognized (str "static_List[tuple[int, str], 500]")]
  /\ map_type typingcy false (str "static_List[tuple[int, str], 500]")
     <> Done (str "(int, str)[500]") []
  /\ map_type typingcy false (str "static_List[int," ++ LF ++ str "500]")
     = Done (str "object")
         [Unrecognized (str "static_List[int," ++ LF ++ str "500]")]
  /\ map_type {[ [chr 233] := (str "{T}[:]", [str "T"]) ]} false
       ([chr 233] ++ str "[int]")
     = Done (str "object") [Unrecognized ([chr 233] ++ str "[int]")]
  /\ map_type {[ str "E" := ([], [str "T"]) ]} false (str "E[int]")
     = Done (str "object") [Unrecognized (str "E[int]")].
Proof.
  repeat split; try (vm_compute; reflexivity). vm_compute. discriminate.
Qed.

(** ** The declaration rewriters *)

(** The value of a group in a map of groups written out. *)
Ltac group_lookup :=
  unfold Re.group;
  repeat first [ rewrite lookup_insert_eq
               | rewrite lookup_insert_ne by lia
               | rewrite lookup_empty ].

Lemma variable_pattern_inv line m :
  Re.rmatch Re.variable_pattern line = Some m ->
  exists indent var ws1 ws2 typ tail (assign comment : option pystr),
    line = indent ++ var ++ ws1 ++ str ":" ++ ws2 ++ typ
           ++ default [] assign ++ default [] comment ++ tail
    /\ Re.group m 1 = Some indent /\ Re.group m 2 = Some var
    /\ Re.group m 3 = Some typ
    /\ Re.group m 4 = assign /\ Re.group m 5 = comment
    /\ forallb Re.space indent = true /\ is_identifier var = true
    /\ forallb Re.space ws1 = true /\ forallb Re.space ws2 = true
    /\ Re.at_eol tail = true.
Proof.
  intros H. apply rmatch_sound in H as (w & rest & -> & D).
  unfold Re.variable_pattern, Re.lit in D. cbn [Re.seq] in D.
  invert_derivation.
  all: repeat (simpl; rewrite <- ?app_assoc, ?app_nil_r).
  all: match goal with
       | |- exists _ _ _ _ _ _ _ _,
             ?w0 ++ ?c :: ?w12 ++ ?w3 ++ ":"%char :: ?w5 ++ ?c0 :: ?w11 ++ _ = _
             /\ _ =>
           exists w0, (c :: w12), w3, w5, (c0 :: w11), rest
       end.
  all: eexists _, _.
  all: split; [|split; [group_lookup; reflexivity|]].
  all: try (split; [group_lookup; reflexivity|]).
  all: try (split; [group_lookup; reflexivity|]).
  all: try (split; [group_lookup; reflexivity|]).
  all: try (split; [group_lookup; reflexivity|]).
  all: try (repeat split; simpl; try assumption;
            match goal with
            | H : Re.ident_start ?c = true |- context [Re.ident_start ?c] =>
                rewrite H; assumption
            end).
  all: repeat (simpl; rewrite <- ?app_assoc, ?app_nil_r); reflexivity.
Qed.

Lemma function_pattern_inv merged m :
  Re.rmatch Re.function_pattern merged = Some m ->
  exists indent ws1 fname ws2 params ws3 ws4 ws5 tail (ret : option pystr),
    merged = indent ++ str "def" ++ ws1 ++ fname ++ ws2 ++ str "("
             ++ params ++ str ")" ++ ws3
             ++ match ret with
                | Some r => str "->" ++ ws5 ++ r
                | None => []
                end
             ++ ws4 ++ str ":" ++ tail
    /\ Re.group m 1 = Some indent /\ Re.group m 2 = Some fname
    /\ Re.group m 3 = Some params /\ Re.group m 5 = ret
    /\ truthy ret = bool_decide (is_Some ret)
    /\ forallb Re.space indent = true /\ is_identifier fname = true
    /\ forallb Re.dot params = true /\ Re.at_eol tail = true.
Proof.
  intros H. apply rmatch_sound in H as (w & rest & -> & D).
  unfold Re.function_pattern, Re.lit, Re.plus in D. cbn [Re.seq] in D.
  invert_derivation.
  all: repeat (simpl; rewrite <- ?app_assoc, ?app_nil_r).
  - match goal with
    | |- exists _ _ _ _ _ _ _ _ _ _,
          ?w0 ++ _ :: _ :: _ :: ?c0 :: ?w17 ++ ?c :: ?w18 ++ ?w7
            ++ _ :: ?w9 ++ _ :: ?w11
            ++ _ :: _ :: ?w2 ++ ?c7 :: ?w6 ++ ?w13 ++ _ :: ?rest = _ /\ _ =>
        exists w0, (c0 :: w17), (c :: w18), w7, w9, w11, w13, w2, rest,
               (Some (c7 :: w6))
    end.
    split; [repeat (simpl; rewrite <- ?app_assoc, ?app_nil_r); reflexivity|].
    repeat (split; [group_lookup; reflexivity|]).
    repeat split; simpl; try assumption.
    match goal with
    | H : Re.ident_start ?c = true |- context [Re.ident_start ?c] => rewrite H
    end. assumption.
  - match goal with
    | |- exists _ _ _ _ _ _ _ _ _ _,
          ?w0 ++ _ :: _ :: _ :: ?c0 :: ?w17 ++ ?c :: ?w18 ++ ?w7
            ++ _ :: ?w9 ++ _ :: ?w11 ++ ?w13 ++ _ :: ?rest = _ /\ _ =>
        exists w0, (c0 :: w17), (c :: w18), w7, w9, w11, w13, [], rest, None
    end.
    split; [repeat (simpl; rewrite <- ?app_assoc, ?app_nil_r); reflexivity|].
    repeat (split; [group_lookup; reflexivity|]).
    repeat split; simpl; try assumption.
    match goal with
    | H : Re.ident_start ?c = true |- context [Re.ident_start ?c] => rewrite H
    end. assumption.
Qed.

(** ** One turn of the main loop *)

Section Steps.

Variable CUSTOM_TYPE_MAP : gmap pystr (pystr * list pystr).
Variable gen_allow : bool.
Variable lines : list pystr.
Variable file_wide : bool.

Lemma loop_body_compile_marker st line :
  lines !! i st = Some line -> is_compile_marker line = true ->
  loop_body CUSTOM_TYPE_MAP gen_allow lines file_wide st
  = Done (State (S (i st)) (in_block st) true (result st ++ [line])) [].
Proof.
  intros Hl Hm. unfold loop_body. rewrite Hl. cbv zeta.
  unfold is_compile_marker in Hm. rewrite Hm. reflexivity.
Qed.

Lemma loop_body_region_begin st line :
  lines !! i st = Some line ->
  is_compile_marker line = false -> is_region_begin line = true ->
  loop_body CUSTOM_TYPE_MAP gen_allow lines file_wide st
  = Done (State (S (i st)) true (next_line_compiled st) (result st ++ [line]))
         [].
Proof.
  intros Hl Hm Hb. unfold loop_body. rewrite Hl. cbv zeta.
  unfold is_compile_marker in Hm. unfold is_region_begin in Hb.
  rewrite Hm, Hb. reflexivity.
Qed.

Lemma loop_body_region_end st line :
  lines !! i st = Some line ->
  is_compile_marker line = false -> is_region_begin line = false ->
  is_region_end line = true ->
  loop_body CUSTOM_TYPE_MAP gen_allow lines file_wide st
  = Done (State (S (i st)) false (next_line_compiled st) (result st ++ [line]))
         [].
Proof.
  intros Hl Hm Hb He. unfold loop_body. rewrite Hl. cbv zeta.
  unfold is_compile_marker in Hm. unfold is_region_begin in Hb.
  unfold is_region_end in He. rewrite Hm, Hb, He. reflexivity.
Qed.

Lemma ordinary_inv line :
  ordinary line = true ->
  is_compile_marker line = false /\ is_region_begin line = false
  /\ is_region_end line = false.
Proof.
  unfold ordinary. intros [[H1 H2]%andb_prop H3]%andb_prop.
  apply negb_true_iff in H1, H2, H3. auto.
Qed.

(** An ordinary line outside every conversion mode is emitted as it is. *)
Lemma loop_body_off st line :
  lines !! i st = Some line -> ordinary line = true ->
  file_wide || in_block st || next_line_compiled st = false ->
  loop_body CUSTOM_TYPE_MAP gen_allow lines file_wide st = Done (emit st false line) [].
Proof.
  intros Hl (Hm & Hb & He)%ordinary_inv Hoff.
  unfold loop_body. rewrite Hl. cbv zeta.
  unfold is_compile_marker in Hm. unfold is_region_begin in Hb.
  unfold is_region_end in He. rewrite Hm, Hb, He, Hoff.
  rewrite andb_false_r. cbn [andb].
  destruct (Py.startswith (str "@") (Py.strip line)); reflexivity.
Qed.

(** An ordinary line in conversion mode. *)
Lemma loop_body_on st line out n log :
  lines !! i st = Some line -> ordinary line = true ->
  file_wide || in_block st || next_line_compiled st = true ->
  convert_here CUSTOM_TYPE_MAP gen_allow line (skipn (S (i st)) lines) = Done (out, n) log ->
  loop_body CUSTOM_TYPE_MAP gen_allow lines file_wide st
  = Done (State (S (i st + n)) (in_block st) false (result st ++ [out])) log.
Proof.
  intros Hl (Hm & Hb & He)%ordinary_inv Hon Hc.
  unfold loop_body. rewrite Hl. cbv zeta.
  unfold is_compile_marker in Hm. unfold is_region_begin in Hb.
  unfold is_region_end in He. rewrite Hm, Hb, He, Hon.
  rewrite andb_true_r. cbn [andb].
  unfold convert_here, is_decorator, is_def, is_annotation in Hc.
  destruct (Py.startswith (str "@") (Py.strip line)).
  { injection Hc as <- <- <-. rewrite Nat.add_0_r. reflexivity. }
  destruct (Py.startswith (str "def ") (Py.strip line)).
  { cbv zeta in Hc. apply bind_inv in Hc as (o & l1 & l2 & E & Hc & ->).
    injection Hc as <- <- <-.
    eapply bind_done_done; [exact E|reflexivity]. }
  destruct (bool_decide (is_Some (Re.rmatch Re.annotation_pattern line))).
  { apply bind_inv in Hc as (o & l1 & l2 & E & Hc & ->).
    injection Hc as <- <- <-. rewrite Nat.add_0_r.
    eapply bind_done_done; [exact E|reflexivity]. }
  injection Hc as <- <- <-. rewrite Nat.add_0_r. reflexivity.
Qed.

(** Whatever the mode and the line, an ordinary line leaves the one-shot
    flag cleared and the region as it was. *)
Lemma loop_body_clears_flag st st' line log :
  lines !! i st = Some line -> ordinary line = true ->
  loop_body CUSTOM_TYPE_MAP gen_allow lines file_wide st = Done st' log ->
  next_line_compiled st' = false /\ in_block st' = in_block st.
Proof.
  intros Hl (Hm & Hb & He)%ordinary_inv.
  unfold loop_body. rewrite Hl. cbv zeta.
  unfold is_compile_marker in Hm. unfold is_region_begin in Hb.
  unfold is_region_end in He. rewrite Hm, Hb, He.
  destruct (Py.startswith (str "@") (Py.strip line)).
  { intros [= <- _]. auto. }
  destruct (Py.startswith (str "def ") (Py.strip line)
            && (file_wide || in_block st || next_line_compiled st)).
  { intros H. apply bind_inv in H as (o & l1 & l2 & _ & [= <- _] & _). auto. }
  destruct ((file_wide || in_block st || next_line_compiled st)
            && bool_decide (is_Some (Re.rmatch Re.annotation_pattern line))).
  { intros H. apply bind_inv in H as (o & l1 & l2 & _ & [= <- _] & _). auto. }
  intros [= <- _]. auto.
Qed.

End Steps.

(** ** Runs of the main loop *)

Section Runs.

Variable CUSTOM_TYPE_MAP : gmap pystr (pystr * list pystr).
Variable gen_allow : bool.
Variable lines : list pystr.

(** Outside a region, with no pending one-shot flag and no whole-file flag,
    the loop copies a stretch of ordinary lines. *)
Lemma while_loop_off : forall turns st,
  i st <= length lines -> length lines <= turns + i st ->
  in_block st = false -> next_line_compiled st = false ->
  forallb ordinary (skipn (i st) lines) = true ->
  while_loop CUSTOM_TYPE_MAP gen_allow lines false turns st
  = Done (State (length lines) false false (result st ++ skipn (i st) lines))
         [].
Proof.
  induction turns as [|turns IH]; intros st Hi Hturns Hb Hf Hord.
  - assert (i st = length lines) as E by lia.
    unfold while_loop. rewrite E, Nat.ltb_irrefl.
    rewrite skipn_all, app_nil_r. destruct st; simpl in *; subst. reflexivity.
  - cbn [while_loop]. destruct (i st <? length lines) eqn:Hlt.
    + apply Nat.ltb_lt in Hlt.
      destruct (lookup_lt_is_Some_2 lines (i st) Hlt) as [line Hl].
      rewrite (drop_S _ _ _ Hl) in Hord |- *. cbn [forallb] in Hord.
      apply andb_prop in Hord as [Hline Hord].
      rewrite (bind_done_nil _ _ (emit st false line)).
      * rewrite IH; simpl; try assumption; try lia.
        rewrite <- app_assoc. reflexivity.
      * apply loop_body_off; [exact Hl|exact Hline|].
        rewrite Hb, Hf. reflexivity.
    + apply Nat.ltb_ge in Hlt. assert (i st = length lines) as E by lia.
      rewrite E, skipn_all, app_nil_r.
      destruct st; simpl in *; subst. reflexivity.
Qed.

(** One turn of the loop, and the turns that are left. *)
Lemma lookup_middle {A : Type} (pre : list A) x post :
  (pre ++ x :: post) !! length pre = Some x.
Proof. apply list_lookup_middle. reflexivity. Qed.

Lemma while_loop_turn file_wide turns st st1 log :
  i st < length lines ->
  loop_body CUSTOM_TYPE_MAP gen_allow lines file_wide st = Done st1 log ->
  while_loop CUSTOM_TYPE_MAP gen_allow lines file_wide (S turns) st
  = (_ ← Done tt log;
     while_loop CUSTOM_TYPE_MAP gen_allow lines file_wide turns st1).
Proof.
  intros Hi E. cbn [while_loop]. apply Nat.ltb_lt in Hi. rewrite Hi, E.
  unfold mbind, res_bind. simpl. reflexivity.
Qed.

(** Outside every conversion mode, a stretch of ordinary lines is copied. *)
Lemma while_loop_copy : forall seg pre post turns st,
  lines = pre ++ seg ++ post -> i st = length pre ->
  in_block st = false -> next_line_compiled st = false ->
  forallb ordinary seg = true ->
  while_loop CUSTOM_TYPE_MAP gen_allow lines false (length seg + turns) st
  = while_loop CUSTOM_TYPE_MAP gen_allow lines false turns
      (State (length pre + length seg) false false (result st ++ seg)).
Proof.
  induction seg as [|l seg IH]; intros pre post turns st Hlines Hi Hb Hf Hord.
  - simpl. rewrite Nat.add_0_r, app_nil_r.
    destruct st; simpl in *; subst. reflexivity.
  - cbn [forallb] in Hord. apply andb_prop in Hord as [Hl Hord].
    assert (Hlook : lines !! i st = Some l).
    { rewrite Hlines, Hi. apply lookup_middle. }
    cbn [length Nat.add].
    rewrite (while_loop_turn false _ st (emit st false l) []).
    2: { rewrite Hlines, Hi, length_app. simpl. lia. }
    2: { apply loop_body_off; [exact Hlook|exact Hl|].
         rewrite Hb, Hf. reflexivity. }
    rewrite (bind_done_nil _ _ tt eq_refl).
    rewrite (IH (pre ++ [l]) post turns (emit st false l)).
    + cbn [emit result]. rewrite length_app, <- app_assoc. simpl.
      replace (length pre + 1 + length seg) with (length pre + S (length seg))
        by lia.
      reflexivity.
    + rewrite <- app_assoc. exact Hlines.
    + cbn [emit i]. rewrite Hi, length_app. simpl. lia.
    + exact Hb.
    + reflexivity.
    + exact Hord.
Qed.

End Runs.

(** C6. A source whose first three lines do not contain the whole-file
    marker, none of whose lines is a one-shot marker, a region-begin marker
    or a region-end marker, converted without the force flag: the loop
    emits every line as it is, prints nothing, and the output is these
    lines joined by line feeds.  No declaration or header is rewritten and
    no lines are merged. *)
Theorem no_marker_no_conversion reg ga source :
  file_level_enabled (Py.splitlines source) = false ->
  forallb ordinary (Py.splitlines source) = true ->
  convert_lines reg ga (Py.splitlines source) false
  = Done (Py.splitlines source) []
  /\ convert_typing_to_cython reg ga source false
     = Done (Py.join [chr 10] (Py.splitlines source)) [].
Proof.
  intros Hfile Hord.
  assert (E : convert_lines reg ga (Py.splitlines source) false
              = Done (Py.splitlines source) []).
  { unfold convert_lines. rewrite Hfile. cbn [orb].
    rewrite (bind_done_nil _ _ (State (length (Py.splitlines source)) false
                                  false (Py.splitlines source))).
    - reflexivity.
    - rewrite while_loop_off; simpl; try reflexivity; try lia. exact Hord. }
  split; [exact E|].
  unfold convert_typing_to_cython. cbv zeta.
  rewrite (bind_done_nil _ _ _ E). reflexivity.
Qed.

Lemma no_marker_no_conversion_witness :
  convert_typing_to_cython ∅ false
    (text ["import os"; "x: int = 1"; "def f(a: int) -> int:"; "    return a"])
    false
  = Done (Py.join LF (map str
      ["import os"; "x: int = 1"; "def f(a: int) -> int:"; "    return a"])) [].
Proof.
  apply (no_marker_no_conversion ∅ false
    (text ["import os"; "x: int = 1"; "def f(a: int) -> int:"; "    return a"]));
    vm_compute; reflexivity.
Defined.

(** ** Fail-open rewriting *)

(** C7. A text that the anchored pattern of a rewriter does not match is
    returned as it is, and nothing is printed or raised: a line for the
    variable rewriter, the merged header for the function rewriter.  In the
    main loop, in conversion mode, the line (or the lines of the header
    joined by single spaces) is then the one line that is emitted. *)
Theorem unmatched_text_passes_through reg ga :
  (forall line,
     Re.rmatch Re.variable_pattern line = None ->
     convert_variable_declaration reg ga line = Done line [])
  /\ (forall merged,
        Re.rmatch Re.function_pattern merged = None ->
        convert_function_definition reg ga merged = Done merged [])
  /\ (forall lines file_wide st line,
        lines !! i st = Some line -> ordinary line = true ->
        file_wide || in_block st || next_line_compiled st = true ->
        is_decorator line = false ->
        (is_def line = true ->
         Re.rmatch Re.function_pattern
           (Py.join (str " ")
              (line :: header_rest line (skipn (S (i st)) lines))) = None ->
         loop_body reg ga lines file_wide st
         = Done (State (S (i st + length (header_rest line
                                            (skipn (S (i st)) lines))))
                       (in_block st) false
                       (result st
                        ++ [Py.join (str " ")
                              (line :: header_rest line
                                         (skipn (S (i st)) lines))])) [])
        /\ (is_def line = false ->
            Re.rmatch Re.variable_pattern line = None ->
            loop_body reg ga lines file_wide st = Done (emit st false line) [])).
Proof.
  assert (Hvar : forall line,
            Re.rmatch Re.variable_pattern line = None ->
            convert_variable_declaration reg ga line = Done line []).
  { intros line H. unfold convert_variable_declaration. rewrite H. reflexivity. }
  assert (Hfun : forall merged,
            Re.rmatch Re.function_pattern merged = None ->
            convert_function_definition reg ga merged = Done merged []).
  { intros merged H. unfold convert_function_definition. rewrite H.
    reflexivity. }
  split; [exact Hvar|]. split; [exact Hfun|].
  intros lines file_wide st line Hl Hord Hon Hdec. split.
  - intros Hdef Hm. eapply loop_body_on; eauto.
    unfold convert_here. rewrite Hdec, Hdef. cbv zeta.
    rewrite (bind_done_nil _ _ _ (Hfun _ Hm)). reflexivity.
  - intros Hdef Hm.
    rewrite (loop_body_on reg ga lines file_wide st line line 0 []); auto.
    + unfold emit. rewrite Nat.add_0_r. reflexivity.
    + unfold convert_here. rewrite Hdec, Hdef.
      destruct (is_annotation line); [|reflexivity].
      rewrite (bind_done_nil _ _ _ (Hvar _ Hm)). reflexivity.
Qed.

Lemma unmatched_text_witness :
  convert_variable_declaration ∅ false (str "else:") = Done (str "else:") []
  /\ convert_function_definition ∅ false (str "def f(x: int): return x")
     = Done (str "def f(x: int): return x") []
  /\ loop_body ∅ false [str "    x: 5"] true (State 0 false false [])
     = Done (State 1 false false [str "    x: 5"]) [].
Proof.
  split; [|split].
  - apply (proj1 (unmatched_text_passes_through ∅ false)).
    vm_compute. reflexivity.
  - apply (proj1 (proj2 (unmatched_text_passes_through ∅ false))).
    vm_compute. reflexivity.
  - apply (proj2 (proj2 (proj2 (unmatched_text_passes_through ∅ false))
                    [str "    x: 5"] true (State 0 false false [])
                    (str "    x: 5") eq_refl eq_refl eq_refl eq_refl));
      vm_compute; reflexivity.
Defined.

(** ** The variable rewriter *)

Lemma or_empty_default o : or_empty o = default [] o.
Proof. destruct o as [[|c s]|]; reflexivity. Qed.

(** C8, as the code has it.  For every line that the variable pattern
    matches, the output is indent, "cdef", a space, the mapped type, a
    space, the name, a space, the initializer and the comment, where indent,
    name, type, initializer and comment are the texts of the groups (the
    last two empty when the group is absent): one space more than the
    specification has, after the name.  The type is mapped by [map_type],
    which returns, and the line is these groups in order, with a colon
    between name and type. *)
Theorem variable_declaration_output reg ga line m :
  Re.rmatch Re.variable_pattern line = Some m ->
  exists indent var typ mapped log ws1 ws2 tail,
    Re.group m 1 = Some indent /\ Re.group m 2 = Some var
    /\ Re.group m 3 = Some typ
    /\ line = indent ++ var ++ ws1 ++ str ":" ++ ws2 ++ typ
              ++ or_empty (Re.group m 4) ++ or_empty (Re.group m 5) ++ tail
    /\ map_type reg ga typ = Done mapped log
    /\ convert_variable_declaration reg ga line
       = Done (indent ++ str "cdef" ++ str " " ++ mapped ++ str " " ++ var
               ++ str " " ++ or_empty (Re.group m 4)
               ++ or_empty (Re.group m 5)) log.
Proof.
  intros Hm.
  destruct (variable_pattern_inv line m Hm)
    as (indent & var & ws1 & ws2 & typ & tail & assign & comment
        & Hline & H1 & H2 & H3 & H4 & H5 & _).
  destruct (map_type_done reg ga typ) as (mapped & log & Et).
  exists indent, var, typ, mapped, log, ws1, ws2, tail.
  repeat split; try assumption.
  - rewrite !or_empty_default, H4, H5. exact Hline.
  - unfold convert_variable_declaration. rewrite Hm, H1, H2, H3.
    rewrite (bind_done_ret _ _ _ _ Et). reflexivity.
Qed.

Lemma variable_declaration_witness :
  convert_variable_declaration ∅ false (str "    n: int = 5  # five")
  = Done (str "    cdef int n = 5  # five") [].
Proof.
  destruct (Re.rmatch Re.variable_pattern (str "    n: int = 5  # five"))
    as [m|] eqn:Hm; [|vm_compute in Hm; discriminate Hm].
  destruct (variable_declaration_output ∅ false
              (str "    n: int = 5  # five") m Hm)
    as (indent & var & typ & mapped & log & ws1 & ws2 & tail
        & H1 & H2 & H3 & _ & Et & E).
  vm_compute in Hm. injection Hm as <-.
  vm_compute in H1, H2, H3.
  injection H1 as <-. injection H2 as <-. injection H3 as <-.
  vm_compute in Et. injection Et as <- <-. exact E.
Defined.

(** C8 as the specification words it fails on a declaration without
    initializer: the groups are the empty indent, the name x and the type
    int, and the output has a space after the name that the formula of the
    specification does not have. *)
Lemma variable_declaration_extra_space :
  Re.rmatch Re.variable_pattern (str "x: int")
  = Some (<[3 := str "int"]> (<[2 := str "x"]> (<[1 := []]> ∅)))
  /\ map_type ∅ false (str "int") = Done (str "int") []
  /\ convert_variable_declaration ∅ false (str "x: int")
     = Done (str "cdef int x ") []
  /\ specified_declaration [] (str "int") (str "x") [] [] = str "cdef int x"
  /\ convert_variable_declaration ∅ false (str "x: int")
     <> Done (specified_declaration [] (str "int") (str "x") [] []) [].
Proof. repeat split; try (vm_compute; reflexivity). vm_compute. discriminate. Qed.

(** ** The function rewriter *)

Lemma mapM_done {A B : Type} (g : A -> res B) (xs : list A) :
  (forall a, exists r l, g a = Done r l) ->
  exists rs l, mapM g xs = Done rs l.
Proof.
  intros Hg. induction xs as [|x xs (rs & l' & IH)]; simpl.
  - exists [], []. reflexivity.
  - destruct (Hg x) as (r & l & E). eexists _, _.
    eapply bind_done_done; [exact E|].
    eapply bind_done_done; [exact IH|reflexivity].
Qed.

(** [split(":", 1)] of a text that holds a colon has two parts. *)
Lemma split1_two sep s :
  Py.contains [sep] s = true -> exists a b, Py.split1 sep s = [a; b].
Proof.
  induction s as [|c s IH]; simpl; [discriminate|].
  rewrite andb_true_r, Ascii.eqb_sym.
  destruct (Ascii.eqb c sep); [eauto|]. simpl.
  intros H. destruct (IH H) as (a & b & ->). eauto.
Qed.

(** The cut of [split(":", 1)] is at the first colon. *)
Lemma split1_first sep a b :
  lacks sep a = true -> Py.split1 sep (a ++ sep :: b) = [a; b].
Proof.
  unfold lacks. induction a as [|c a IH]; simpl.
  - rewrite Ascii.eqb_refl. reflexivity.
  - intros [Hc Ha]%andb_prop. apply negb_true_iff in Hc.
    rewrite Ascii.eqb_sym, Hc, (IH Ha). reflexivity.
Qed.

Lemma contains_middle sep a b : Py.contains [sep] (a ++ sep :: b) = true.
Proof.
  induction a as [|c a IH]; simpl.
  - rewrite Ascii.eqb_refl. reflexivity.
  - rewrite IH. apply orb_true_r.
Qed.

Section Rewriters.

Variable CUSTOM_TYPE_MAP : gmap pystr (pystr * list pystr).
Variable gen_allow : bool.

Lemma convert_param_done param :
  exists o l, convert_param CUSTOM_TYPE_MAP gen_allow param = Done o l.
Proof.
  unfold convert_param. cbv zeta.
  destruct (Py.strip param) as [|c p] eqn:Ep; [eexists _, _; reflexivity|].
  destruct (Py.contains (str ":") (c :: p)) eqn:Ec;
    [|eexists _, _; reflexivity].
  destruct (split1_two ":" _ Ec) as (a & b & ->). cbn [map].
  destruct (Py.eqs (Py.strip a) (str "self")); [eexists _, _; reflexivity|].
  destruct (map_type_done CUSTOM_TYPE_MAP gen_allow (Py.strip b))
    as (r & l & E).
  eexists _, _. rewrite (bind_done_ret _ _ _ _ E). reflexivity.
Qed.

(** An annotated parameter: the name before the first colon, the type after
    it.  The type is mapped, except for the parameter named self, which is
    reduced to its name. *)
Lemma convert_param_annotated param pname ptype :
  Py.strip param = pname ++ str ":" ++ ptype -> lacks ":" pname = true ->
  convert_param CUSTOM_TYPE_MAP gen_allow param
  = if Py.eqs (Py.strip pname) (str "self") then mret (Some (str "self"))
    else mapped ← map_type CUSTOM_TYPE_MAP gen_allow (Py.strip ptype);
         mret (Some (mapped ++ str " " ++ Py.strip pname)).
Proof.
  intros Ep Hp. unfold convert_param. cbv zeta. rewrite Ep.
  destruct (pname ++ str ":" ++ ptype) as [|c p] eqn:E.
  { destruct pname; discriminate E. }
  rewrite <- E. change (str ":") with [":"%char].
  change (pname ++ [":"%char] ++ ptype) with (pname ++ ":"%char :: ptype).
  rewrite contains_middle, (split1_first _ _ _ Hp). reflexivity.
Qed.

(** A parameter without annotation is kept as it is, stripped; an empty
    piece is dropped. *)
Lemma convert_param_plain param :
  Py.contains (str ":") (Py.strip param) = false ->
  convert_param CUSTOM_TYPE_MAP gen_allow param
  = mret (match Py.strip param with [] => None | p => Some p end).
Proof.
  intros H. unfold convert_param. cbv zeta.
  destruct (Py.strip param) as [|c p]; [reflexivity|]. rewrite H. reflexivity.
Qed.

(** The output of the function rewriter on a header that its pattern
    matches. *)
Lemma convert_function_definition_matched merged m :
  Re.rmatch Re.function_pattern merged = Some m ->
  exists indent fname params ret_cytype l1 plist l2,
    Re.group m 1 = Some indent /\ Re.group m 2 = Some fname
    /\ Re.group m 3 = Some params
    /\ match Re.group m 5 with
       | Some ret_type =>
           map_type CUSTOM_TYPE_MAP gen_allow ret_type = Done ret_cytype l1
       | None => ret_cytype = str "void" /\ l1 = []
       end
    /\ mapM (convert_param CUSTOM_TYPE_MAP gen_allow) (Py.split "," params)
       = Done plist l2
    /\ convert_function_definition CUSTOM_TYPE_MAP gen_allow merged
       = Done (indent ++ str "cpdef " ++ ret_cytype ++ str " " ++ fname
               ++ str "(" ++ Py.join (str ", ") (omap id plist) ++ str "):")
              (l1 ++ l2).
Proof.
  intros Hm.
  destruct (function_pattern_inv merged m Hm)
    as (indent & ws1 & fname & ws2 & params & ws3 & ws4 & ws5 & tail & ret
        & _ & H1 & H2 & H3 & H5 & Ht & _).
  destruct (mapM_done (convert_param CUSTOM_TYPE_MAP gen_allow)
              (Py.split "," params) convert_param_done) as (plist & l2 & Ep).
  unfold convert_function_definition. rewrite Hm, H1, H2, H3, H5.
  destruct ret as [ret_type|].
  - destruct (map_type_done CUSTOM_TYPE_MAP gen_allow ret_type)
      as (r & l1 & Er).
    exists indent, fname, params, r, l1, plist, l2.
    repeat split; try assumption.
    rewrite Ht. cbn [bool_decide decide_rel is_Some_dec default].
    eapply bind_done_done; [exact Er|].
    rewrite (bind_done_ret _ _ _ _ Ep). reflexivity.
  - exists indent, fname, params, (str "void"), [], plist, l2.
    repeat split; try assumption.
    cbn [truthy]. rewrite bind_ret, (bind_done_ret _ _ _ _ Ep). reflexivity.
Qed.

Lemma convert_function_definition_done merged :
  exists out l,
    convert_function_definition CUSTOM_TYPE_MAP gen_allow merged = Done out l.
Proof.
  destruct (Re.rmatch Re.function_pattern merged) as [m|] eqn:Hm.
  - destruct (convert_function_definition_matched merged m Hm)
      as (? & ? & ? & ? & ? & ? & ? & _ & _ & _ & _ & _ & E). eauto.
  - unfold convert_function_definition. rewrite Hm. eexists _, _. reflexivity.
Qed.

Lemma convert_variable_declaration_done line :
  exists out l,
    convert_variable_declaration CUSTOM_TYPE_MAP gen_allow line = Done out l.
Proof.
  destruct (Re.rmatch Re.variable_pattern line) as [m|] eqn:Hm.
  - destruct (variable_pattern_inv line m Hm)
      as (indent & var & ws1 & ws2 & typ & tail & assign & comment
          & _ & H1 & H2 & H3 & _).
    destruct (map_type_done CUSTOM_TYPE_MAP gen_allow typ) as (r & l & E).
    unfold convert_variable_declaration. rewrite Hm, H3.
    eexists _, _. rewrite (bind_done_ret _ _ _ _ E). reflexivity.
  - unfold convert_variable_declaration. rewrite Hm. eexists _, _. reflexivity.
Qed.

End Rewriters.

(** ** The span of a function header *)

(** The lines gathered after the first are the next lines of the buffer. *)
Lemma header_rest_prefix rest : forall line,
  exists tl, rest = header_rest line rest ++ tl.
Proof.
  induction rest as [|next rest IH]; intros line; cbn [header_rest].
  - destruct (Py.endswith (str ":") (Py.strip line)); exists []; reflexivity.
  - destruct (Py.endswith (str ":") (Py.strip line)).
    + exists (next :: rest). reflexivity.
    + destruct (IH next) as [tl E]. exists tl. simpl. congruence.
Qed.

Lemma header_rest_length line rest :
  length (header_rest line rest) <= length rest.
Proof.
  destruct (header_rest_prefix rest line) as [tl E].
  rewrite E at 2. rewrite length_app. lia.
Qed.

(** No line of the span but the last ends with a colon. *)
Lemma header_rest_open rest : forall line,
  Forall (fun l => Py.endswith (str ":") (Py.strip l) = false)
         (removelast (line :: header_rest line rest)).
Proof.
  induction rest as [|next rest IH]; intros line.
  - cbn [header_rest].
    destruct (Py.endswith (str ":") (Py.strip line)); constructor.
  - cbn [header_rest].
    destruct (Py.endswith (str ":") (Py.strip line)) eqn:E.
    + constructor.
    + change (removelast (line :: next :: header_rest next rest))
        with (line :: removelast (next :: header_rest next rest)).
      constructor; [exact E|apply IH].
Qed.

Lemma last_default {A : Type} (l : list A) (d d' : A) :
  l <> [] -> List.last l d = List.last l d'.
Proof.
  induction l as [|a l IH]; [congruence|]. intros _.
  destruct l as [|b l]; [reflexivity|].
  change (List.last (b :: l) d = List.last (b :: l) d').
  apply IH. discriminate.
Qed.

(** The span stops after a line that ends with a colon, or takes the whole
    rest of the buffer. *)
Lemma header_rest_closed rest : forall line,
  Py.endswith (str ":")
    (Py.strip (List.last (line :: header_rest line rest) line)) = true
  \/ header_rest line rest = rest.
Proof.
  induction rest as [|next rest IH]; intros line.
  - right. cbn [header_rest].
    destruct (Py.endswith (str ":") (Py.strip line)); reflexivity.
  - cbn [header_rest].
    destruct (Py.endswith (str ":") (Py.strip line)) eqn:E.
    + left. exact E.
    + destruct (IH next) as [H|H].
      * left.
        change (List.last (line :: next :: header_rest next rest) line)
          with (List.last (next :: header_rest next rest) line).
        rewrite (last_default _ line next) by discriminate. exact H.
      * right. congruence.
Qed.

(** ** Function headers in the main loop *)

Lemma def_not_decorator line : is_def line = true -> is_decorator line = false.
Proof.
  unfold is_def, is_decorator. destruct (Py.strip line) as [|c s].
  - intros H. discriminate H.
  - change (str "def ") with ("d"%char :: str "ef ").
    change (str "@") with ["@"%char]. cbn [Py.startswith].
    destruct (Ascii.eqb_spec "d" c) as [<-|]; [reflexivity|].
    intros H. discriminate H.
Qed.

(** C4, as the code has it.  In conversion mode, on an ordinary line whose
    stripped text starts with "def ", the loop gathers the line and the
    lines that follow it, up to and including the first line whose stripped
    text ends with a colon; if there is no such line it gathers the whole
    rest of the buffer.  The gathered lines are joined by single spaces,
    the joined text goes through the function rewriter, exactly one line is
    emitted for the span and the cursor moves past it; the one-shot flag is
    cleared.  When the header pattern matches the joined text, the emitted
    line is indent, "cpdef", the return type, the name and the parameters:
    the return type is mapped by [map_type], or is "void" when there is
    none; the parameter text is cut at every comma, also at a comma
    inside brackets, and each piece is treated on its own: a piece that
    holds a colon becomes the text after its first colon, mapped by
    [map_type] as a whole (a default value included), then a space and the
    text before that colon, except that a piece whose name is self is
    reduced to self and what follows the colon dropped; a piece without
    colon is kept, and an empty piece is skipped.  When the pattern does
    not match, the emitted line is the joined text. *)
Theorem function_header_span reg ga lines file_wide st line :
  lines !! i st = Some line -> ordinary line = true -> is_def line = true ->
  file_wide || in_block st || next_line_compiled st = true ->
  (exists tl,
     skipn (S (i st)) lines = header_rest line (skipn (S (i st)) lines) ++ tl)
  /\ Forall (fun l => Py.endswith (str ":") (Py.strip l) = false)
       (removelast (line :: header_rest line (skipn (S (i st)) lines)))
  /\ (Py.endswith (str ":")
        (Py.strip (List.last
                     (line :: header_rest line (skipn (S (i st)) lines)) line))
      = true
      \/ header_rest line (skipn (S (i st)) lines) = skipn (S (i st)) lines)
  /\ (exists out log,
        convert_function_definition reg ga
          (Py.join (str " ")
             (line :: header_rest line (skipn (S (i st)) lines)))
        = Done out log
        /\ loop_body reg ga lines file_wide st
           = Done (State (S (i st + length (header_rest line
                                              (skipn (S (i st)) lines))))
                         (in_block st) false (result st ++ [out])) log
        /\ (Re.rmatch Re.function_pattern
              (Py.join (str " ")
                 (line :: header_rest line (skipn (S (i st)) lines))) = None ->
            out = Py.join (str " ")
                    (line :: header_rest line (skipn (S (i st)) lines))
            /\ log = [])
        /\ (forall m,
              Re.rmatch Re.function_pattern
                (Py.join (str " ")
                   (line :: header_rest line (skipn (S (i st)) lines)))
              = Some m ->
              exists indent fname params ret_cytype l1 plist l2,
                Re.group m 1 = Some indent /\ Re.group m 2 = Some fname
                /\ Re.group m 3 = Some params
                /\ match Re.group m 5 with
                   | Some ret_type =>
                       map_type reg ga ret_type = Done ret_cytype l1
                   | None => ret_cytype = str "void" /\ l1 = []
                   end
                /\ mapM (convert_param reg ga) (Py.split "," params)
                   = Done plist l2
                /\ out = indent ++ str "cpdef " ++ ret_cytype ++ str " "
                         ++ fname ++ str "("
                         ++ Py.join (str ", ") (omap id plist) ++ str "):"
                /\ log = l1 ++ l2))
  /\ (forall param pname ptype,
        Py.strip param = pname ++ str ":" ++ ptype ->
        lacks ":" pname = true ->
        convert_param reg ga param
        = if Py.eqs (Py.strip pname) (str "self") then mret (Some (str "self"))
          else mapped ← map_type reg ga (Py.strip ptype);
               mret (Some (mapped ++ str " " ++ Py.strip pname)))
  /\ (forall param,
        Py.contains (str ":") (Py.strip param) = false ->
        convert_param reg ga param
        = mret (match Py.strip param with [] => None | p => Some p end)).
Proof.
  intros Hl Hord Hdef Hon.
  set (more := header_rest line (skipn (S (i st)) lines)).
  set (merged := Py.join (str " ") (line :: more)).
  split; [apply header_rest_prefix|].
  split; [apply header_rest_open|].
  split; [apply header_rest_closed|].
  split; [|split; [apply convert_param_annotated|apply convert_param_plain]].
  destruct (convert_function_definition_done reg ga merged) as (out & log & E).
  exists out, log. split; [exact E|]. split; [|split].
  - apply (loop_body_on reg ga lines file_wide st line out (length more) log);
      try assumption.
    unfold convert_here. rewrite (def_not_decorator _ Hdef), Hdef. cbv zeta.
    fold more. fold merged. rewrite (bind_done_ret _ _ _ _ E). reflexivity.
  - intros Hm. unfold convert_function_definition in E. rewrite Hm in E.
    injection E as <- <-. auto.
  - intros m Hm.
    destruct (convert_function_definition_matched reg ga merged m Hm)
      as (indent & fname & params & ret_cytype & l1 & plist & l2
          & H1 & H2 & H3 & H5 & Ep & E').
    rewrite E in E'. injection E' as -> ->.
    exists indent, fname, params, ret_cytype, l1, plist, l2. auto 10.
Qed.

Lemma function_header_span_witness :
  loop_body ∅ false
    (map str ["# use-cython"; "def f(a: int,"; "      b: list[int],";
              "      c) -> bool:"; "    return a"])
    true (State 1 false false [str "# use-cython"])
  = Done (State 4 false false
            [str "# use-cython"; str "cpdef bint f(int a, list[int] b, c):"])
         [].
Proof.
  destruct (function_header_span ∅ false
              (map str ["# use-cython"; "def f(a: int,"; "      b: list[int],";
                        "      c) -> bool:"; "    return a"])
              true (State 1 false false [str "# use-cython"])
              (str "def f(a: int,") eq_refl eq_refl eq_refl eq_refl)
    as (_ & _ & _ & (out & log & Ec & Eb & _) & _).
  vm_compute in Ec. injection Ec as <- <-. exact Eb.
Defined.

(** C4 as the specification words it fails in four ways.  A parameter
    named self keeps its name and loses its annotation, where mapping every
    annotated parameter would give int self.  The parameter text is cut at
    every comma and each piece is treated on its own, so the type of a
    parameter is not mapped as it is written when its annotation holds a
    comma or when a default value follows it: of d: dict[str, int] the
    pieces d: dict[str and int] are left, which give object d and int],
    where the engine maps dict[str, int] to dict[str]; and of n: int = 0
    the text int = 0 goes to the engine, which gives object n.  A header
    that the pattern does not match, here because a statement follows the
    colon, is not rewritten: the lines up to the next one that ends with a
    colon are merged and emitted as they are.  And a header that is never
    closed takes the rest of the buffer although no consumed line ends with
    a colon. *)
Lemma function_header_exceptions :
  convert_lines ∅ false [str "def f(self: int, x: bool):"] true
  = Done [str "cpdef void f(self, bint x):"] []
  /\ mapM (specified_param ∅ false) (Py.split "," (str "self: int, x: bool"))
     = Done [Some (str "int self"); Some (str "bint x")] []
  /\ mapM (convert_param ∅ false) (Py.split "," (str "self: int, x: bool"))
     = Done [Some (str "self"); Some (str "bint x")] []
  /\ convert_lines ∅ false
       [str "def f(d: dict[str, int], n: int = 0) -> int:"] true
     = Done [str "cpdef int f(object d, int], object n):"]
            [Unrecognized (str "dict[str"); Unrecognized (str "int = 0")]
  /\ map_type ∅ false (str "dict[str, int]") = Done (str "dict[str]") []
  /\ map_type ∅ false (str "int") = Done (str "int") []
  /\ convert_lines ∅ false
       [str "def f(x: bool): return x"; str "y: int = 1"; str "class A:"] true
     = Done [str "def f(x: bool): return x y: int = 1 class A:"] []
  /\ convert_lines ∅ false [str "def f(x: bool,"; str "      y"] true
     = Done [str "def f(x: bool,       y"] []
  /\ Py.endswith (str ":") (Py.strip (str "      y")) = false.
Proof. repeat split; vm_compute; reflexivity. Qed.

(** ** The one-shot marker *)

Section OneShot.

Variable CUSTOM_TYPE_MAP : gmap pystr (pystr * list pystr).
Variable gen_allow : bool.

(** In conversion mode an ordinary line always yields one emitted line, and
    consumes no more lines than the buffer has. *)
Lemma convert_here_done line rest :
  exists out n log,
    convert_here CUSTOM_TYPE_MAP gen_allow line rest = Done (out, n) log
    /\ n <= length rest.
Proof.
  unfold convert_here.
  destruct (is_decorator line).
  { exists line, 0, []. split; [reflexivity|lia]. }
  destruct (is_def line).
  { cbv zeta.
    destruct (convert_function_definition_done CUSTOM_TYPE_MAP gen_allow
                (Py.join (str " ") (line :: header_rest line rest)))
      as (out & log & E).
    exists out, (length (header_rest line rest)), log. split.
    - rewrite (bind_done_ret _ _ _ _ E). reflexivity.
    - apply header_rest_length. }
  destruct (is_annotation line).
  { destruct (convert_variable_declaration_done CUSTOM_TYPE_MAP gen_allow line)
      as (out & log & E).
    exists out, 0, log. split; [|lia].
    rewrite (bind_done_ret _ _ _ _ E). reflexivity. }
  exists line, 0, []. split; [reflexivity|lia].
Qed.

Lemma convert_here_consumes line rest out n log :
  convert_here CUSTOM_TYPE_MAP gen_allow line rest = Done (out, n) log ->
  n <= length rest.
Proof.
  intros H. destruct (convert_here_done line rest) as (o & k & l & E & Hk).
  rewrite E in H. injection H as _ <- _. exact Hk.
Qed.

(** A line that is not ordinary is a marker: it is emitted as it is, and
    the one-shot flag is set by the one-shot marker and kept by a region
    marker. *)
Lemma loop_body_marker lines file_wide st line :
  lines !! i st = Some line -> ordinary line = false ->
  exists st',
    loop_body CUSTOM_TYPE_MAP gen_allow lines file_wide st = Done st' []
    /\ i st' = S (i st) /\ result st' = result st ++ [line]
    /\ next_line_compiled st'
       = is_compile_marker line || next_line_compiled st.
Proof.
  intros Hl Hord. unfold ordinary in Hord.
  destruct (is_compile_marker line) eqn:Hm.
  { eexists. split; [apply loop_body_compile_marker; eassumption|].
    simpl. auto. }
  destruct (is_region_begin line) eqn:Hb.
  { eexists. split; [apply loop_body_region_begin; eassumption|].
    simpl. auto. }
  destruct (is_region_end line) eqn:He; [|discriminate Hord].
  eexists. split; [apply loop_body_region_end; eassumption|].
  simpl. auto.
Qed.

End OneShot.




(** ** Lines and line endings *)

Lemma length_join_cons sep x rest :
  length (Py.join sep (x :: rest))
  = length x + match rest with
               | [] => 0
               | _ => length sep + length (Py.join sep rest)
               end.
Proof.
  destruct rest as [|y rest]; simpl; [lia|].
  rewrite !length_app. reflexivity.
Qed.

Lemma ends_with_break_cons c s :
  s <> [] -> ends_with_break (c :: s) = ends_with_break s.
Proof. destruct s; [congruence|reflexivity]. Qed.

(** [splitlines] drops the boundaries: the lines joined by line feeds are no
    longer than the text, and shorter when the text ends with a boundary. *)
Lemma splitlines_from_length : forall n s cur,
  length s <= n ->
  length (Py.join LF (Py.splitlines_from cur s))
  + (if ends_with_break s then 1 else 0)
  <= length cur + length s.
Proof.
  induction n as [|n IH]; intros s cur Hn.
  - destruct s; [|simpl in Hn; lia]. simpl.
    destruct cur; simpl; rewrite ?length_app, ?length_rev; simpl; lia.
  - destruct s as [|c s].
    { simpl. destruct cur; simpl; rewrite ?length_app, ?length_rev; simpl; lia. }
    cbn [Py.splitlines_from]. simpl in Hn.
    destruct (Py.is_linebreak c) eqn:Hc.
    + destruct s as [|d s].
      * cbn [ends_with_break]. rewrite Hc. simpl. rewrite length_rev. lia.
      * rewrite (ends_with_break_cons c (d :: s)) by discriminate.
        destruct ((ord c =? 13) && (ord d =? 10)) eqn:Hcr.
        -- rewrite length_join_cons, length_rev.
           specialize (IH s [] ltac:(simpl in Hn; lia)).
           destruct s as [|e s].
           ++ cbn [ends_with_break Py.splitlines_from]. simpl.
              destruct (Py.is_linebreak d); lia.
           ++ rewrite (ends_with_break_cons d (e :: s)) by discriminate.
              destruct (Py.splitlines_from [] (e :: s)); simpl in *; lia.
        -- rewrite length_join_cons, length_rev.
           specialize (IH (d :: s) [] ltac:(lia)).
           destruct (Py.splitlines_from [] (d :: s)); simpl in *; lia.
    + specialize (IH s (c :: cur) ltac:(lia)). cbn [length] in IH |- *.
      destruct s as [|d s].
      * cbn [ends_with_break] in IH |- *. rewrite Hc. lia.
      * rewrite (ends_with_break_cons c (d :: s)) by discriminate. lia.
Qed.

Lemma endswith_last c s :
  Py.endswith [c] s = true -> exists p, s = p ++ [c].
Proof.
  unfold Py.endswith. simpl. destruct (rev s) as [|c' r] eqn:E; [discriminate|].
  rewrite andb_true_r. intros H. apply Ascii.eqb_eq in H as <-.
  exists (rev r). rewrite <- (rev_involutive s), E. reflexivity.
Qed.

Lemma ends_with_break_last p c :
  ends_with_break (p ++ [c]) = Py.is_linebreak c.
Proof.
  induction p as [|a p IH]; [reflexivity|].
  change ((a :: p) ++ [c]) with (a :: (p ++ [c])).
  rewrite ends_with_break_cons; [exact IH|]. destruct p; discriminate.
Qed.

(** The lines of [splitlines] hold no boundary character. *)
Lemma splitlines_from_break_free : forall n s cur,
  length s <= n -> break_free cur = true ->
  Forall (fun l => break_free l = true) (Py.splitlines_from cur s).
Proof.
  assert (Hrev : forall cur, break_free cur = true ->
                             break_free (rev cur) = true).
  { intros cur H. apply forallb_rev_true. exact H. }
  induction n as [|n IH]; intros s cur Hn Hcur.
  - destruct s; [|simpl in Hn; lia]. simpl.
    destruct cur; repeat constructor. apply (Hrev (a :: cur) Hcur).
  - destruct s as [|c s].
    { simpl. destruct cur; repeat constructor. apply (Hrev (a :: cur) Hcur). }
    cbn [Py.splitlines_from]. simpl in Hn.
    destruct (Py.is_linebreak c) eqn:Hc.
    + destruct s as [|d s]; [repeat constructor; auto|].
      destruct ((ord c =? 13) && (ord d =? 10)).
      * constructor; [auto|]. apply IH; [simpl in Hn; lia|reflexivity].
      * constructor; [auto|]. apply IH; [lia|reflexivity].
    + apply IH; [lia|]. unfold break_free. cbn [forallb]. rewrite Hc. exact Hcur.
Qed.

Lemma join_last sep (ls : list pystr) :
  ls <> [] -> exists pre, Py.join sep ls = pre ++ List.last ls [].
Proof.
  induction ls as [|x ls IH]; [congruence|]. intros _.
  destruct ls as [|y ls].
  - exists []. reflexivity.
  - destruct (IH ltac:(discriminate)) as [pre E].
    exists (x ++ sep ++ pre).
    change (Py.join sep (x :: y :: ls)) with (x ++ sep ++ Py.join sep (y :: ls)).
    rewrite E, <- !app_assoc. reflexivity.
Qed.

(** A text that ends with a line that is not empty and holds no boundary
    does not end with a line feed. *)
Lemma endswith_break_free pre x :
  x <> [] -> break_free x = true -> Py.endswith LF (pre ++ x) = false.
Proof.
  intros Hx Hbf. unfold Py.endswith. rewrite rev_app_distr.
  apply forallb_rev_true in Hbf.
  destruct (rev x) as [|c r] eqn:E.
  - apply (f_equal (@rev ascii)) in E. rewrite rev_involutive in E.
    simpl in E. congruence.
  - cbn [forallb] in Hbf. apply andb_prop in Hbf as [Hc _].
    change (rev LF) with [chr 10]. cbn [app Py.startswith].
    destruct (Ascii.eqb (chr 10) c) eqn:He; [|reflexivity].
    apply Ascii.eqb_eq in He as <-. discriminate Hc.
Qed.

(** Lines that each end with CR LF are read back as they are. *)
Lemma splitlines_from_crlf l : forall cur rest,
  break_free l = true ->
  Py.splitlines_from cur (l ++ CRLF ++ rest)
  = (rev cur ++ l) :: Py.splitlines_from [] rest.
Proof.
  induction l as [|c l IH]; intros cur rest Hl.
  - simpl. rewrite app_nil_r. reflexivity.
  - cbn [forallb break_free] in Hl. unfold break_free in Hl. cbn [forallb] in Hl.
    apply andb_prop in Hl as [Hc Hl]. apply negb_true_iff in Hc.
    change ((c :: l) ++ CRLF ++ rest) with (c :: (l ++ CRLF ++ rest)).
    cbn [Py.splitlines_from]. rewrite Hc, (IH (c :: cur) rest Hl).
    simpl. rewrite <- app_assoc. reflexivity.
Qed.

Lemma splitlines_crlf ls :
  Forall (fun l => break_free l = true) ls ->
  Py.splitlines (flat_map (fun l => l ++ CRLF) ls) = ls.
Proof.
  unfold Py.splitlines. induction 1 as [|l ls Hl _ IH]; [reflexivity|].
  cbn [flat_map]. rewrite <- app_assoc, (splitlines_from_crlf l [] _ Hl).
  simpl. rewrite IH. reflexivity.
Qed.

(** Without the force flag, a source that has no marker is written back as
    its lines joined by line feeds. *)
Lemma convert_off reg ga lines :
  file_level_enabled lines = false -> forallb ordinary lines = true ->
  convert_lines reg ga lines false = Done lines [].
Proof.
  intros Hfile Hord. unfold convert_lines. rewrite Hfile. cbn [orb].
  rewrite (bind_done_nil _ _ (State (length lines) false false lines)).
  - reflexivity.
  - rewrite while_loop_off; simpl; try reflexivity; try lia. exact Hord.
Qed.

(** C10, as the code has it.  The text is cut by [splitlines] and the
    emitted lines are joined by single line feeds, with nothing after the
    last one: the output does not end with a line feed when the last
    emitted line is not empty and holds no line boundary.  For a source
    without markers, converted without the force
    flag, so that no line is converted: if the source ends with a line
    feed, the output is shorter than the source, hence not identical to it;
    if the last line of the source is not empty, the output does not end
    with a line feed (it does end with one when the source ends with an
    empty line, as the text a LF LF shows); and a source whose lines all end
    with CR LF comes out with its lines separated by LF. *)
Theorem line_endings reg ga :
  (forall source force out log,
     convert_typing_to_cython reg ga source force = Done out log ->
     exists emitted,
       convert_lines reg ga (Py.splitlines source) force = Done emitted log
       /\ out = Py.join LF emitted
       /\ (List.last emitted [] <> [] ->
           break_free (List.last emitted []) = true ->
           Py.endswith LF out = false))
  /\ (forall source,
        file_level_enabled (Py.splitlines source) = false ->
        forallb ordinary (Py.splitlines source) = true ->
        exists out,
          convert_typing_to_cython reg ga source false = Done out []
          /\ (Py.endswith LF source = true ->
              length out < length source /\ out <> source)
          /\ (List.last (Py.splitlines source) [] <> [] ->
              Py.endswith LF out = false))
  /\ (forall ls,
        Forall (fun l => break_free l = true) ls ->
        file_level_enabled ls = false -> forallb ordinary ls = true ->
        convert_typing_to_cython reg ga (flat_map (fun l => l ++ CRLF) ls)
          false
        = Done (Py.join LF ls) []).
Proof.
  split; [|split].
  - intros source force out log H. unfold convert_typing_to_cython in H.
    cbv zeta in H. apply bind_inv in H as (emitted & l1 & l2 & E & H & ->).
    injection H as <- <-. rewrite app_nil_r. exists emitted.
    split; [exact E|]. split; [reflexivity|]. intros Hlast Hbf.
    assert (Hne : emitted <> []).
    { intros E'. rewrite E' in Hlast. apply Hlast. reflexivity. }
    change (Py.join [chr 10] emitted) with (Py.join LF emitted).
    destruct (join_last LF _ Hne) as [pre ->].
    apply endswith_break_free; assumption.
  - intros source Hfile Hord.
    exists (Py.join LF (Py.splitlines source)). split; [|split].
    + unfold convert_typing_to_cython. cbv zeta.
      rewrite (bind_done_nil _ _ _ (convert_off reg ga _ Hfile Hord)).
      reflexivity.
    + intros Hend. apply endswith_last in Hend as [p ->].
      pose proof (splitlines_from_length (length (p ++ [chr 10]))
                    (p ++ [chr 10]) [] (Nat.le_refl _)) as Hlen.
      rewrite ends_with_break_last in Hlen.
      change (Py.is_linebreak (chr 10)) with true in Hlen. simpl length in Hlen.
      unfold Py.splitlines. cbv iota in Hlen.
      assert (Hlt : length (Py.join LF (Py.splitlines_from [] (p ++ [chr 10])))
                    < length (p ++ [chr 10])) by lia.
      split; [exact Hlt|]. intros E. rewrite E in Hlt. lia.
    + intros Hlast.
      assert (Hne : Py.splitlines source <> []).
      { intros E. rewrite E in Hlast. apply Hlast. reflexivity. }
      destruct (join_last LF _ Hne) as [pre ->].
      apply endswith_break_free; [exact Hlast|].
      pose proof (splitlines_from_break_free (length source) source []
                    (Nat.le_refl _) eq_refl) as HF.
      fold (Py.splitlines source) in HF. rewrite List.Forall_forall in HF.
      apply HF. destruct (exists_last Hne) as (l' & a & E).
      rewrite E, last_last. apply List.in_or_app. right. left. reflexivity.
  - intros ls Hbf Hfile Hord. unfold convert_typing_to_cython. cbv zeta.
    rewrite (splitlines_crlf ls Hbf).
    rewrite (bind_done_nil _ _ _ (convert_off reg ga _ Hfile Hord)).
    reflexivity.
Qed.

Lemma line_endings_witness :
  (exists out,
     convert_typing_to_cython ∅ false (text ["x = 1"; "y: int"]) false
     = Done out []
     /\ length out < length (text ["x = 1"; "y: int"])
     /\ Py.endswith LF out = false)
  /\ convert_typing_to_cython ∅ false
       (flat_map (fun l => l ++ CRLF) [str "x = 1"; str "y: int"]) false
     = Done (str "x = 1" ++ LF ++ str "y: int") [].
Proof.
  split.
  - destruct (proj1 (proj2 (line_endings ∅ false))
                (text ["x = 1"; "y: int"]) eq_refl eq_refl)
      as (out & E & Hlen & Hlast).
    exists out. split; [exact E|]. split.
    + apply Hlen. vm_compute. reflexivity.
    + apply Hlast. vm_compute. discriminate.
  - apply (proj2 (proj2 (line_endings ∅ false))
             [str "x = 1"; str "y: int"]);
      [repeat constructor | vm_compute; reflexivity | vm_compute; reflexivity].
Defined.

(** C10 as the specification words it fails on a source that ends with an
    empty line: the last emitted line is empty, and the line feed before it
    ends the output. *)
Lemma output_may_end_with_line_feed :
  Py.splitlines (str "a" ++ LF ++ LF) = [str "a"; []]
  /\ convert_typing_to_cython ∅ false (str "a" ++ LF ++ LF) false
     = Done (str "a" ++ LF) []
  /\ Py.endswith LF (str "a" ++ LF) = true.
Proof. repeat split; vm_compute; reflexivity. Qed.

(** * Further properties of the program *)

(** ** More facts about the string operations *)

Lemma lstrip_app_stop w c s :
  forallb Py.isspace w = true -> Py.isspace c = false ->
  Py.lstrip (w ++ c :: s) = c :: s.
Proof.
  intros Hw Hc. induction w as [|a w IH]; simpl.
  - rewrite Hc. reflexivity.
  - simpl in Hw. apply andb_prop in Hw as [-> Hw]. auto.
Qed.

(** What [lstrip] returns is empty or starts with a character that is not
    white space. *)
Lemma lstrip_head s :
  match Py.lstrip s with
  | [] => True
  | c :: _ => Py.isspace c = false
  end.
Proof.
  induction s as [|c s IH]; simpl; [exact I|].
  destruct (Py.isspace c) eqn:E; [exact IH|exact E].
Qed.

Lemma lstrip_fixed s :
  match s with [] => True | c :: _ => Py.isspace c = false end ->
  Py.lstrip s = s.
Proof. destruct s as [|c s]; [reflexivity|]. simpl. intros ->. reflexivity. Qed.

Lemma lstrip_idem s : Py.lstrip (Py.lstrip s) = Py.lstrip s.
Proof. apply lstrip_fixed, lstrip_head. Qed.

(** [lstrip] cuts a prefix of white space. *)
Lemma lstrip_split s :
  exists w, s = w ++ Py.lstrip s /\ forallb Py.isspace w = true.
Proof.
  induction s as [|c s (w & E & Hw)]; simpl.
  - exists []. auto.
  - destruct (Py.isspace c) eqn:Hc.
    + exists (c :: w). simpl. rewrite Hc, Hw. split; [congruence|reflexivity].
    + exists []. auto.
Qed.

Lemma last_head_rev {A : Type} (s : list A) (c : A) (t : list A) :
  rev s = c :: t -> s = rev t ++ [c].
Proof.
  intros E. rewrite <- (rev_involutive s), E. reflexivity.
Qed.

(** The head of a string survives [rstrip] when it is not white space. *)
Lemma rstrip_head c s :
  Py.isspace c = false -> exists t, Py.rstrip (c :: s) = c :: t.
Proof.
  intros Hc. unfold Py.rstrip.
  destruct (lstrip_split (rev (c :: s))) as (w & E & Hw).
  apply (f_equal (@rev ascii)) in E. rewrite rev_involutive, rev_app_distr in E.
  destruct (rev (Py.lstrip (rev (c :: s)))) as [|a t] eqn:Ea.
  - simpl in E. exfalso.
    assert (Hin : In c (rev w)) by (rewrite <- E; left; reflexivity).
    apply List.in_rev in Hin. rewrite List.forallb_forall in Hw.
    rewrite (Hw _ Hin) in Hc. discriminate Hc.
  - simpl in E. injection E as <- _. eauto.
Qed.

(** The stripped text is empty, or starts and ends with characters that are
    not white space. *)
Lemma strip_ends s :
  Py.strip s = []
  \/ exists a t b u,
       Py.strip s = a :: t /\ Py.strip s = u ++ [b]
       /\ Py.isspace a = false /\ Py.isspace b = false.
Proof.
  unfold Py.strip.
  pose proof (lstrip_head s) as Hh.
  destruct (Py.lstrip s) as [|a t] eqn:El; [left; reflexivity|].
  right. destruct (rstrip_head a t Hh) as (t' & E).
  pose proof (lstrip_head (rev (a :: t))) as Hr.
  unfold Py.rstrip in E |- *.
  destruct (Py.lstrip (rev (a :: t))) as [|b r] eqn:Eb.
  { simpl in E. discriminate E. }
  exists a, t', b, (rev r). repeat split; auto.
Qed.

Lemma strip_fixed s a t b u :
  s = a :: t -> s = u ++ [b] ->
  Py.isspace a = false -> Py.isspace b = false -> Py.strip s = s.
Proof.
  intros Ea Eb Ha Hb. unfold Py.strip, Py.rstrip.
  rewrite (lstrip_fixed s) by (rewrite Ea; exact Ha).
  rewrite Eb at 1. rewrite rev_app_distr. simpl. rewrite Hb.
  change (b :: rev u) with ([b] ++ rev u).
  rewrite <- (rev_involutive [b]), <- rev_app_distr, rev_involutive.
  simpl. symmetry. exact Eb.
Qed.

Lemma strip_idem s : Py.strip (Py.strip s) = Py.strip s.
Proof.
  destruct (strip_ends s) as [->|(a & t & b & u & Ea & Eb & Ha & Hb)];
    [reflexivity|].
  eapply strip_fixed; eauto.
Qed.

(** Removing the spaces is a filter. *)
Lemma remove_spaces_filter s :
  Py.replace (str " ") [] s
  = List.filter (fun c => negb (Ascii.eqb " " c)) s.
Proof.
  change (Py.replace (str " ") [] s)
    with (Py.replace_from [" "%char] [] 0 s).
  induction s as [|c s IH]; [reflexivity|].
  cbn [Py.replace_from Py.startswith List.filter length Nat.sub].
  rewrite andb_true_r.
  destruct (Ascii.eqb " " c); cbn [negb app]; rewrite IH; reflexivity.
Qed.

Lemma filter_idem {A : Type} (p : A -> bool) (l : list A) :
  List.filter p (List.filter p l) = List.filter p l.
Proof.
  induction l as [|x l IH]; [reflexivity|]. simpl.
  destruct (p x) eqn:E; simpl; rewrite ?E, IH; reflexivity.
Qed.

Lemma isspace_space c : Ascii.eqb " " c = true -> Py.isspace c = true.
Proof. intros H. apply Ascii.eqb_eq in H as <-. reflexivity. Qed.

(** The normal form [pytype.strip().replace(" ", "")] is its own normal
    form. *)
Lemma normalize_idem s :
  Py.replace (str " ") [] (Py.strip (Py.replace (str " ") [] (Py.strip s)))
  = Py.replace (str " ") [] (Py.strip s).
Proof.
  rewrite !remove_spaces_filter.
  set (p := fun c => negb (Ascii.eqb " " c)).
  assert (Hkeep : forall c, Py.isspace c = false -> p c = true).
  { intros c Hc. unfold p. destruct (Ascii.eqb " " c) eqn:E; [|reflexivity].
    apply isspace_space in E. congruence. }
  destruct (strip_ends s) as [->|(a & t & b & u & Ea & Eb & Ha & Hb)];
    [reflexivity|].
  assert (E : Py.strip (List.filter p (Py.strip s)) = List.filter p (Py.strip s)).
  { eapply (strip_fixed _ a (List.filter p t) b (List.filter p u)); auto.
    - rewrite Ea. simpl. rewrite (Hkeep a Ha). reflexivity.
    - rewrite Eb, List.filter_app. simpl. rewrite (Hkeep b Hb). reflexivity. }
  rewrite E. apply filter_idem.
Qed.

(** ** The loop of [unwrap_literal] *)

Lemma unwrap_literal_loop_stable : forall n m s,
  length s <= n -> length s <= m ->
  unwrap_literal_loop n s = unwrap_literal_loop m s.
Proof.
  induction n as [|n IH]; intros m s Hn Hm.
  - destruct s; [|simpl in Hn; lia]. destruct m; reflexivity.
  - destruct m as [|m].
    + destruct s; [reflexivity|simpl in Hm; lia].
    + simpl. destruct (wrapped s) eqn:E; [|reflexivity].
      pose proof (length_slice_wrapped s E). apply IH; lia.
Qed.

Lemma slice_layer s :
  Py.slice 8 (-1) (str "Literal[" ++ s ++ str "]") = s.
Proof.
  unfold Py.slice, Py.clamp. rewrite !length_app. simpl length.
  change (8 <? 0)%Z with false. change (-1 <? 0)%Z with true. cbv iota.
  replace (Nat.min (Z.to_nat 8) (8 + (length s + 1))) with 8 by lia.
  replace (Z.to_nat (Z.max 0 (Z.of_nat (8 + (length s + 1)) + -1)))
    with (8 + length s) by lia.
  replace (8 + length s - 8) with (length s) by lia.
  change (skipn 8 (str "Literal[" ++ s ++ str "]")) with (s ++ str "]").
  apply firstn_length_app.
Qed.

Lemma wrapped_layer s : wrapped (str "Literal[" ++ s ++ str "]") = true.
Proof.
  unfold wrapped. rewrite startswith_app. unfold Py.endswith.
  rewrite !rev_app_distr. reflexivity.
Qed.

Lemma unwrap_literal_layer s :
  unwrap_literal (str "Literal[" ++ s ++ str "]") = unwrap_literal s.
Proof.
  unfold unwrap_literal at 1.
  destruct (length (str "Literal[" ++ s ++ str "]")) as [|n] eqn:En.
  { rewrite !length_app in En. simpl in En. lia. }
  cbn [unwrap_literal_loop]. rewrite wrapped_layer, slice_layer.
  rewrite !length_app in En. simpl length in En.
  apply unwrap_literal_loop_stable; lia.
Qed.

(** X1. [unwrap_literal] takes off every Literal wrapper.  Its loop ends
    because its test fails: the result does not start with "Literal[" and
    end with "]" at once, unwrapping it again changes nothing, and it is no
    longer than the text.  A text that is not wrapped, put inside any
    number of wrappers, comes back as it was. *)
Theorem unwrap_literal_layers :
  (forall typ,
     wrapped (unwrap_literal typ) = false
     /\ unwrap_literal (unwrap_literal typ) = unwrap_literal typ
     /\ length (unwrap_literal typ) <= length typ)
  /\ (forall n s, wrapped s = false -> unwrap_literal (literal_layers n s) = s).
Proof.
  split.
  - intros typ. split; [apply unwrap_literal_done|]. split.
    + apply unwrap_literal_plain, unwrap_literal_done.
    + apply length_unwrap_literal.
  - intros n s Hs. induction n as [|n IH]; cbn [literal_layers].
    + apply unwrap_literal_plain. exact Hs.
    + rewrite unwrap_literal_layer. exact IH.
Qed.

Lemma unwrap_literal_layers_witness :
  unwrap_literal (str "Literal[Literal[Literal[500]]]") = str "500".
Proof.
  apply (proj2 unwrap_literal_layers 3 (str "500")). reflexivity.
Defined.

(** ** The type mapping engine on the shapes it recognizes *)

(** The bare-name lookup returns the same value whatever text it is told to
    quote, and quotes it in at most a last message. *)
Lemma lookup_name_quote reg base :
  exists r,
    (forall pytype, lookup_name reg pytype base = Done r [Unrecognized pytype])
    \/ exists l, (forall pytype, lookup_name reg pytype base = Done r l)
                 /\ forall q, ~ In (Unrecognized q) l.
Proof.
  unfold lookup_name.
  destruct (reg !! base) as [[template [|k keys]]|].
  - exists template. right. exists []. split; [reflexivity|]. intros q [].
  - exists template. right. exists [ExpectedParams base].
    split; [reflexivity|]. intros q [[=]|[]].
  - cbv zeta.
    match goal with
    | |- context [Py.eqs ?r (str "object")] => exists r; destruct (Py.eqs r (str "object"))
    end.
    + left. reflexivity.
    + right. exists []. split; [reflexivity|]. intros q [].
Qed.

Lemma same_but_quote_bind {A : Type} p q (m : res A) (k k' : A -> res pystr) :
  (forall a, same_but_quote p q (k a) (k' a)) ->
  same_but_quote p q (m ≫= k) (m ≫= k').
Proof.
  intros H. destruct m as [a l0| |]; [|left; reflexivity..].
  destruct (H a) as [E|(r & l & E & E')].
  - left. unfold mbind, res_bind. rewrite E. reflexivity.
  - right. exists r, (l0 ++ l). unfold mbind, res_bind.
    rewrite E, E', !app_assoc. auto.
Qed.

Lemma same_but_quote_lookup reg pytype base :
  same_but_quote pytype base
    (lookup_name reg pytype base) (lookup_name reg base base).
Proof.
  destruct (lookup_name_quote reg base) as (r & [H|(l & H & _)]).
  - right. exists r, []. rewrite !H. auto.
  - left. rewrite !H. reflexivity.
Qed.

Section Shapes.

Variable CUSTOM_TYPE_MAP : gmap pystr (pystr * list pystr).
Variable gen_allow : bool.

(** The body of [map_type] reads its argument through the normal form,
    except for the text that the last message quotes. *)
Lemma map_type_body_normal f pytype :
  same_but_quote pytype (Py.replace (str " ") [] (Py.strip pytype))
    (map_type_body CUSTOM_TYPE_MAP gen_allow f pytype)
    (map_type_body CUSTOM_TYPE_MAP gen_allow f
       (Py.replace (str " ") [] (Py.strip pytype))).
Proof.
  unfold map_type_body. cbv zeta. rewrite normalize_idem.
  set (base := Py.replace (str " ") [] (Py.strip pytype)).
  destruct (Py.isdigit base); [left; reflexivity|].
  destruct (Re.rmatch Re.generic_pattern base) as [m|];
    [|apply same_but_quote_lookup].
  apply same_but_quote_bind. intros [typename args_str].
  apply same_but_quote_bind. intros o.
  destruct (truthy o); [left; reflexivity|].
  unfold after_template. apply same_but_quote_bind. intros [b|].
  - left. reflexivity.
  - apply same_but_quote_lookup.
Qed.

Lemma map_type_normal pytype :
  same_but_quote pytype (Py.replace (str " ") [] (Py.strip pytype))
    (map_type CUSTOM_TYPE_MAP gen_allow pytype)
    (map_type CUSTOM_TYPE_MAP gen_allow
       (Py.replace (str " ") [] (Py.strip pytype))).
Proof.
  rewrite (map_type_unfold _ _ pytype),
    (map_type_unfold _ _ (Py.replace (str " ") [] (Py.strip pytype))).
  apply map_type_body_normal.
Qed.

End Shapes.

(** X2. [map_type] reads its argument through
    [pytype.strip().replace(" ", "")]: white space around the expression
    and spaces inside it change neither the value nor the messages, except
    that the message about an unrecognized type quotes the text as it was
    given. *)
Theorem map_type_ignores_spaces reg ga pytype :
  value (map_type reg ga pytype)
  = value (map_type reg ga (Py.replace (str " ") [] (Py.strip pytype)))
  /\ (stderr (map_type reg ga pytype)
      = stderr (map_type reg ga (Py.replace (str " ") [] (Py.strip pytype)))
      \/ exists l,
           stderr (map_type reg ga pytype) = l ++ [Unrecognized pytype]
           /\ stderr (map_type reg ga
                        (Py.replace (str " ") [] (Py.strip pytype)))
              = l ++ [Unrecognized (Py.replace (str " ") [] (Py.strip pytype))]).
Proof.
  destruct (map_type_normal reg ga pytype) as [E|(r & l & E & E')].
  - rewrite E. auto.
  - rewrite E, E'. split; [reflexivity|]. right. exists l. auto.
Qed.

(** The keys of [TYPE_MAP] are identifiers and its values are not empty. *)
Lemma TYPE_MAP_entry k v :
  TYPE_MAP !! k = Some v -> is_identifier k = true /\ v <> [].
Proof.
  intros H. unfold TYPE_MAP in H. apply elem_of_list_to_map_2 in H.
  repeat match goal with
         | H : _ ∈ _ :: _ |- _ => apply elem_of_cons in H as [H|H]
         | H : _ ∈ [] |- _ => apply elem_of_nil in H; destruct H
         | H : (_, _) = (_, _) |- _ => injection H as -> ->
         end; (split; [reflexivity|discriminate]).
Qed.

(** The bare-name lookup of a key of [TYPE_MAP] that is not a rule. *)
Lemma lookup_name_primitive reg pytype k v :
  TYPE_MAP !! k = Some v -> reg !! k = None ->
  lookup_name reg pytype k
  = Done v (if Py.eqs v (str "object") then [Unrecognized pytype] else []).
Proof.
  intros Hk Hreg. destruct (TYPE_MAP_entry k v Hk) as [Hid Hv].
  unfold lookup_name. rewrite Hreg. cbv zeta.
  rewrite unwrap_literal_plain
    by (apply not_wrapped_without_bracket, identifier_lacks; auto).
  rewrite (name_pattern_identifier k Hid). unfold Re.group.
  rewrite lookup_insert_eq. cbn [mbind option_bind]. rewrite Hk.
  assert (Hor : forall b, or_else (Some v) b = v).
  { intros b. destruct v; [congruence|reflexivity]. }
  rewrite Hor. destruct (Py.eqs v (str "object")); reflexivity.
Qed.

(** The body of [map_type] on an identifier is the bare-name lookup. *)
Lemma map_type_identifier reg ga pytype name :
  is_identifier name = true ->
  Py.replace (str " ") [] (Py.strip pytype) = name ->
  map_type reg ga pytype = lookup_name reg pytype name.
Proof.
  intros Hid Hbase. rewrite map_type_unfold. unfold map_type_body. cbv zeta.
  rewrite Hbase, (identifier_not_digits name Hid).
  rewrite generic_pattern_needs_bracket
    by (apply identifier_lacks; [reflexivity|exact Hid]).
  reflexivity.
Qed.

(** X3. The table [TYPE_MAP].  A type whose normal form is a key of the
    table and not the name of a registered rule is mapped to the value of
    the table; nothing is printed unless that value is "object". *)
Theorem primitive_types reg ga pytype k v :
  Py.replace (str " ") [] (Py.strip pytype) = k ->
  TYPE_MAP !! k = Some v -> reg !! k = None ->
  map_type reg ga pytype
  = Done v (if Py.eqs v (str "object") then [Unrecognized pytype] else []).
Proof.
  intros Hbase Hk Hreg. destruct (TYPE_MAP_entry k v Hk) as [Hid _].
  rewrite (map_type_identifier reg ga pytype k Hid Hbase).
  apply lookup_name_primitive; assumption.
Qed.

Lemma primitive_types_witness :
  map_type typingcy false (str " bool ") = Done (str "bint") []
  /\ map_type typingcy false (str "None") = Done (str "void") [].
Proof.
  split.
  - apply (primitive_types typingcy false (str " bool ") (str "bool")
             (str "bint")); vm_compute; reflexivity.
  - apply (primitive_types typingcy false (str "None") (str "None")
             (str "void")); vm_compute; reflexivity.
Defined.

(** X4. The name of a registered rule without brackets.  The template is
    returned as it is, placeholders included, and the rule comes before
    [TYPE_MAP].  The message "Expected parameters" is printed exactly when
    the rule declares parameters. *)
Theorem bare_rule_name reg ga pytype name template params :
  is_identifier name = true ->
  Py.replace (str " ") [] (Py.strip pytype) = name ->
  reg !! name = Some (template, params) ->
  map_type reg ga pytype
  = Done template
      (match params with [] => [] | _ :: _ => [ExpectedParams name] end).
Proof.
  intros Hid Hbase Hreg.
  rewrite (map_type_identifier reg ga pytype name Hid Hbase).
  unfold lookup_name. rewrite Hreg. destruct params; reflexivity.
Qed.

Lemma bare_rule_name_witness :
  map_type typingcy false (str "mv_List")
  = Done (str "{Type}[:]") [ExpectedParams (str "mv_List")]
  /\ map_type {[ str "int" := (str "long", []) ]} false (str "int")
     = Done (str "long") [].
Proof.
  split.
  - apply (bare_rule_name typingcy false (str "mv_List") (str "mv_List")
             (str "{Type}[:]") [str "Type"]); vm_compute; reflexivity.
  - apply (bare_rule_name {[ str "int" := (str "long", []) ]} false
             (str "int") (str "int") (str "long") []); vm_compute; reflexivity.
Defined.

Lemma mapM_length {A B : Type} (g : A -> res B) xs : forall rs l,
  mapM g xs = Done rs l -> length rs = length xs.
Proof.
  induction xs as [|x xs IH]; intros rs l H; simpl in H.
  - injection H as <- _. reflexivity.
  - apply bind_inv in H as (y & l1 & l2 & E & H & ->).
    apply bind_inv in H as (ys & l3 & l4 & E' & H & ->).
    injection H as <- _. simpl. f_equal. eauto.
Qed.

Lemma try_custom_template_none reg f name args :
  reg !! name = None -> try_custom_template reg f name args = mret None.
Proof. intros H. unfold try_custom_template. rewrite H. reflexivity. Qed.

(** X5. tuple[...], when tuple is not a registered rule.  The text between
    the brackets is cut at every comma, each piece is stripped and mapped
    by [map_type], in order, and the result is the mapped pieces separated
    by a comma and a space, between parentheses.  There are as many as
    there are pieces, and the messages are those of the nested calls. *)
Theorem tuple_rule reg ga pytype args_str :
  reg !! str "tuple" = None -> forallb Re.dot args_str = true ->
  Py.replace (str " ") [] (Py.strip pytype)
  = str "tuple" ++ str "[" ++ args_str ++ str "]" ->
  exists mapped log,
    mapM (map_type reg ga) (map Py.strip (Py.split "," args_str))
    = Done mapped log
    /\ length mapped = length (Py.split "," args_str)
    /\ map_type reg ga pytype
       = Done (str "(" ++ Py.join (str ", ") mapped ++ str ")") log.
Proof.
  intros Hreg Hdot Hbase.
  destruct (mapM_done (map_type reg ga) (map Py.strip (Py.split "," args_str))
              (map_type_done reg ga)) as (mapped & log & Em).
  exists mapped, log. split; [exact Em|]. split.
  - rewrite (mapM_length _ _ _ _ Em). apply length_map.
  - rewrite (map_type_call reg ga pytype (str "tuple") args_str eq_refl Hdot Hbase).
    rewrite (try_custom_template_none _ _ _ _ Hreg), bind_ret.
    cbn [truthy]. unfold after_template, builtin_generic.
    change (Py.eqs (str "tuple") (str "tuple")) with true. cbv iota.
    rewrite (bind_done_ret _ _ _ _ Em), (bind_done _ _ _ _ eq_refl).
    cbv beta iota. unfold mret, res_ret. rewrite app_nil_r. reflexivity.
Qed.

Lemma split_head_cons sep s :
  exists a rest, Py.split sep s = a :: rest.
Proof.
  pose proof (split_nonempty sep s).
  destruct (Py.split sep s) as [|a rest]; [congruence|eauto].
Qed.

(** X6. set[...], list[...] and dict[...], and name[...] for every
    identifier but tuple when [gen_allow] is on, for a name that is not a
    registered rule.  Only the first argument is used: it is stripped,
    unwrapped and mapped, and put back between the brackets after the name.
    The other arguments are dropped, so that dict[str, int] becomes
    dict[str]. *)
Theorem container_rule reg ga pytype name args_str :
  is_identifier name = true -> name <> str "tuple" ->
  In name [str "set"; str "list"; str "dict"] \/ ga = true ->
  reg !! name = None -> forallb Re.dot args_str = true ->
  Py.replace (str " ") [] (Py.strip pytype)
  = name ++ str "[" ++ args_str ++ str "]" ->
  exists inner log,
    map_type reg ga
      (unwrap_literal (Py.strip (hd [] (Py.split "," args_str))))
    = Done inner log
    /\ map_type reg ga pytype = Done (name ++ str "[" ++ inner ++ str "]") log.
Proof.
  intros Hid Htuple Hin Hreg Hdot Hbase.
  destruct (split_head_cons "," args_str) as (a & rest & Es).
  rewrite Es. cbn [hd].
  destruct (map_type_done reg ga (unwrap_literal (Py.strip a)))
    as (inner & log & Ei).
  exists inner, log. split; [exact Ei|].
  rewrite (map_type_call reg ga pytype name args_str Hid Hdot Hbase).
  rewrite (try_custom_template_none _ _ _ _ Hreg), bind_ret.
  cbn [truthy]. unfold after_template, builtin_generic.
  apply eqs_false in Htuple. rewrite Htuple. cbv iota.
  assert (Hon : existsb (Py.eqs name)
                  [str "tuple"; str "set"; str "list"; str "dict"] || ga = true).
  { destruct Hin as [Hin| ->]; [|apply orb_true_r].
    apply orb_true_iff. left. apply existsb_exists. exists name.
    split; [simpl in Hin |- *; tauto|apply eqs_true; reflexivity]. }
  rewrite Hon, Es. cbn [map].
  rewrite (bind_done_ret _ _ _ _ Ei), (bind_done _ _ _ _ eq_refl).
  cbv beta iota. unfold mret, res_ret. rewrite app_nil_r. reflexivity.
Qed.

Lemma container_rule_witness :
  map_type typingcy false (str "dict[str, int]") = Done (str "dict[str]") []
  /\ map_type ∅ true (str "Foo[bool, 3]") = Done (str "Foo[bint]") [].
Proof.
  split.
  - destruct (container_rule typingcy false (str "dict[str, int]") (str "dict")
                (str "str,int"))
      as (inner & log & Ei & E);
      [reflexivity|discriminate|left; simpl; tauto|reflexivity..|].
    vm_compute in Ei. injection Ei as <- <-. exact E.
  - destruct (container_rule ∅ true (str "Foo[bool, 3]") (str "Foo")
                (str "bool,3"))
      as (inner & log & Ei & E);
      [reflexivity|discriminate|right; reflexivity|reflexivity..|].
    vm_compute in Ei. injection Ei as <- <-. exact E.
Defined.

Lemma tuple_rule_witness :
  map_type typingcy false (str "tuple[int, bool, Foo]")
  = Done (str "(int, bint, Foo)") [].
Proof.
  destruct (tuple_rule typingcy false (str "tuple[int, bool, Foo]")
              (str "int,bool,Foo") eq_refl eq_refl eq_refl)
    as (mapped & log & Em & _ & E).
  vm_compute in Em. injection Em as <- <-. exact E.
Defined.

(** X7. name[...] with [gen_allow] off, for an identifier that is neither
    a built-in container, nor Literal, nor a registered rule, the whole
    expression not being a key of the registry either.  The arguments are
    not looked at: the result is "object", with the message about the
    unrecognized type. *)
Theorem unknown_generic reg pytype name args_str :
  is_identifier name = true ->
  ~ In name [str "tuple"; str "set"; str "list"; str "dict"; str "Literal"] ->
  reg !! name = None ->
  reg !! (name ++ str "[" ++ args_str ++ str "]") = None ->
  forallb Re.dot args_str = true ->
  Py.replace (str " ") [] (Py.strip pytype)
  = name ++ str "[" ++ args_str ++ str "]" ->
  map_type reg false pytype = Done (str "object") [Unrecognized pytype].
Proof.
  intros Hid Hnot Hreg Hkey Hdot Hbase.
  rewrite (map_type_call reg false pytype name args_str Hid Hdot Hbase).
  rewrite (try_custom_template_none _ _ _ _ Hreg), bind_ret.
  cbn [truthy]. unfold after_template, builtin_generic.
  assert (Hne : forall x, In x [str "tuple"; str "set"; str "list"; str "dict";
                                 str "Literal"] -> Py.eqs name x = false).
  { intros x Hx. apply eqs_false. intros ->. exact (Hnot Hx). }
  cbn [existsb].
  rewrite !Hne by (simpl; tauto). cbn [orb]. rewrite bind_ret.
  unfold lookup_name. rewrite Hkey. cbv zeta.
  rewrite unwrap_literal_plain.
  2: { apply call_not_wrapped; [exact Hid|].
       intros ->. apply Hnot. simpl. tauto. }
  rewrite name_pattern_refuses_bracket.
  2: { apply List.in_or_app. right. left. reflexivity. }
  reflexivity.
Qed.

Lemma unknown_generic_witness :
  map_type typingcy false (str "Optional[int]")
  = Done (str "object") [Unrecognized (str "Optional[int]")].
Proof.
  apply (unknown_generic typingcy (str "Optional[int]") (str "Optional")
           (str "int")); try (vm_compute; reflexivity).
  vm_compute. intros H. repeat destruct H as [H|H]; try discriminate H. exact H.
Defined.

(** ** Numbers and Literal wrappers *)

Lemma name_pattern_refuses_digits s :
  Py.isdigit s = true -> Re.rmatch Re.name_pattern s = None.
Proof.
  intros Hd. destruct (Re.rmatch Re.name_pattern s) as [m|] eqn:E; [|reflexivity].
  apply name_pattern_inv in E as (c & name & tail & -> & Hc & _).
  simpl in Hd. apply andb_prop in Hd as [Hd _].
  rewrite (ident_start_not_digit _ Hc) in Hd. discriminate Hd.
Qed.

(** X8. Numbers and Literal.  A type whose normal form is made of digits
    is returned in its normal form, and nothing is printed.  A Literal
    wrapper at the top level, with [gen_allow] off and Literal not a rule,
    is only unwrapped for the last lookup: when the unwrapped text is an
    identifier, the result is its value in [TYPE_MAP], or the identifier
    itself, and the registry is not consulted for it; when the unwrapped
    text is a number, the result is "object" with the message, although the
    same number is kept as the argument of a template rule. *)
Theorem numbers_and_literals reg :
  (forall ga pytype,
     Py.isdigit (Py.replace (str " ") [] (Py.strip pytype)) = true ->
     map_type reg ga pytype
     = Done (Py.replace (str " ") [] (Py.strip pytype)) [])
  /\ (forall pytype inner,
        forallb Re.dot inner = true ->
        Py.replace (str " ") [] (Py.strip pytype)
        = str "Literal" ++ str "[" ++ inner ++ str "]" ->
        reg !! str "Literal" = None ->
        reg !! (str "Literal" ++ str "[" ++ inner ++ str "]") = None ->
        (is_identifier (unwrap_literal inner) = true ->
         map_type reg false pytype
         = Done (default (unwrap_literal inner)
                   (TYPE_MAP !! unwrap_literal inner))
             (if Py.eqs (default (unwrap_literal inner)
                           (TYPE_MAP !! unwrap_literal inner)) (str "object")
              then [Unrecognized pytype] else []))
        /\ (Py.isdigit (unwrap_literal inner) = true ->
            map_type reg false pytype
            = Done (str "object") [Unrecognized pytype])).
Proof.
  split.
  { intros ga pytype Hd. rewrite map_type_unfold. unfold map_type_body.
    cbv zeta. rewrite Hd. reflexivity. }
  intros pytype inner Hdot Hbase Hreg Hkey.
  assert (E : map_type reg false pytype
              = lookup_name reg pytype
                  (str "Literal" ++ str "[" ++ inner ++ str "]")).
  { rewrite (map_type_call reg false pytype (str "Literal") inner eq_refl
               Hdot Hbase).
    rewrite (try_custom_template_none _ _ _ _ Hreg), bind_ret.
    cbn [truthy]. unfold after_template, builtin_generic.
    change (Py.eqs (str "Literal") (str "tuple")) with false. cbv iota.
    change (existsb (Py.eqs (str "Literal"))
              [str "tuple"; str "set"; str "list"; str "dict"]) with false.
    cbn [orb]. rewrite bind_ret. reflexivity. }
  rewrite E. unfold lookup_name. rewrite Hkey. cbv zeta.
  change (str "Literal" ++ str "[" ++ inner ++ str "]")
    with (str "Literal[" ++ inner ++ str "]").
  rewrite unwrap_literal_layer.
  split.
  - intros Hid. rewrite (name_pattern_identifier _ Hid). unfold Re.group.
    rewrite lookup_insert_eq. cbn [mbind option_bind].
    destruct (TYPE_MAP !! unwrap_literal inner) as [v|] eqn:Ek;
      cbn [default from_option]; unfold id.
    + destruct (TYPE_MAP_entry _ _ Ek) as [_ Hv].
      assert (Hor : forall b, or_else (Some v) b = v).
      { intros b. destruct v; [congruence|reflexivity]. }
      rewrite Hor. destruct (Py.eqs v (str "object")); reflexivity.
    + assert (Hor : or_else None (or_else (Some (unwrap_literal inner))
                                    (str "object")) = unwrap_literal inner).
      { destruct (unwrap_literal inner); [discriminate Hid|reflexivity]. }
      rewrite Hor.
      destruct (Py.eqs (unwrap_literal inner) (str "object")); reflexivity.
  - intros Hd. rewrite (name_pattern_refuses_digits _ Hd). reflexivity.
Qed.

Lemma numbers_and_literals_witness :
  map_type typingcy false (str " 5 00 ") = Done (str "500") []
  /\ map_type typingcy false (str "Literal[bool]") = Done (str "bint") []
  /\ map_type typingcy false (str "Literal[mv_List]") = Done (str "mv_List") []
  /\ map_type typingcy false (str "Literal[500]")
     = Done (str "object") [Unrecognized (str "Literal[500]")].
Proof.
  split; [|split; [|split]].
  - apply (proj1 (numbers_and_literals typingcy) false (str " 5 00 ")).
    reflexivity.
  - apply (proj1 (proj2 (numbers_and_literals typingcy) (str "Literal[bool]")
                    (str "bool") eq_refl eq_refl eq_refl eq_refl)).
    reflexivity.
  - apply (proj1 (proj2 (numbers_and_literals typingcy) (str "Literal[mv_List]")
                    (str "mv_List") eq_refl eq_refl eq_refl eq_refl)).
    reflexivity.
  - apply (proj2 (proj2 (numbers_and_literals typingcy) (str "Literal[500]")
                    (str "500") eq_refl eq_refl eq_refl eq_refl)).
    reflexivity.
Defined.

(** X9. With a registry whose templates are not empty, which is what the
    registration leaves, [map_type] never returns the empty string: a
    rewritten declaration always has a type between its keyword and its
    name. *)
Theorem mapped_type_not_empty reg ga pytype r l :
  registry_ok reg -> map_type reg ga pytype = Done r l -> r <> [].
Proof. intros Hok H. exact (map_type_nonempty reg ga pytype r l Hok H). Qed.

Lemma mapped_type_not_empty_witness : str "int[:]" <> [].
Proof.
  apply (mapped_type_not_empty typingcy false (str "mv_List[int]")
           (str "int[:]") [] typingcy_ok).
  vm_compute. reflexivity.
Defined.

(** ** Substitution in the templates of typingcy *)

Lemma replace_from_skip old new : forall w rest,
  Py.replace_from old new (length w) (w ++ rest)
  = Py.replace_from old new 0 rest.
Proof.
  induction w as [|c w IH]; intros rest.
  - destruct rest; reflexivity.
  - simpl. apply IH.
Qed.

(** An occurrence at the head is replaced, and the search goes on after
    it. *)
Lemma replace_head a old new rest :
  Py.replace (a :: old) new ((a :: old) ++ rest)
  = new ++ Py.replace (a :: old) new rest.
Proof.
  unfold Py.replace. cbn [app Py.replace_from].
  change (Py.startswith (a :: old) (a :: old ++ rest))
    with (Py.startswith (a :: old) ((a :: old) ++ rest)).
  rewrite startswith_app. cbn [length Nat.sub]. rewrite Nat.sub_0_r.
  rewrite replace_from_skip. reflexivity.
Qed.

(** A text that does not hold the first character of [old] is kept. *)
Lemma replace_miss a old new s rest :
  lacks a s = true ->
  Py.replace (a :: old) new (s ++ rest)
  = s ++ Py.replace (a :: old) new rest.
Proof.
  unfold Py.replace, lacks. induction s as [|c s IH]; [reflexivity|].
  cbn [forallb app Py.replace_from Py.startswith].
  intros [Hc Hs]%andb_prop. apply negb_true_iff in Hc. rewrite Hc.
  cbn [andb]. rewrite (IH Hs). reflexivity.
Qed.

Lemma replace_absent a old new s :
  lacks a s = true -> Py.replace (a :: old) new s = s.
Proof.
  intros H. rewrite <- (app_nil_r s) at 1.
  rewrite (replace_miss _ _ _ _ _ H). unfold Py.replace. simpl.
  apply app_nil_r.
Qed.

Lemma split_two sep a b :
  lacks sep a = true -> lacks sep b = true ->
  Py.split sep (a ++ sep :: b) = [a; b].
Proof.
  intros Ha Hb. unfold lacks in Ha. induction a as [|c a IH].
  - simpl. rewrite Ascii.eqb_refl, (split_plain _ _ Hb). reflexivity.
  - cbn [forallb] in Ha. apply andb_prop in Ha as [Hc Ha].
    apply negb_true_iff in Hc. cbn [app Py.split].
    rewrite Ascii.eqb_sym, Hc, (IH Ha). reflexivity.
Qed.

(** X10. The rules that [typingcy.py] declares.  memory_View[a] and
    mv_List[a], with one argument, become the mapped argument followed by
    [:].  static_List[a, n], with two arguments, becomes the mapped first
    argument followed by the mapped second one between brackets, provided
    the mapped first argument holds no opening brace (the placeholder of the
    node_count is replaced after it has been put in).  The arguments are stripped
    and unwrapped before they are mapped, and the messages are theirs. *)
Theorem typingcy_rules ga :
  (forall pytype name a t l,
     In name [str "memory_View"; str "mv_List"] ->
     forallb Re.dot a = true -> lacks "," a = true ->
     Py.replace (str " ") [] (Py.strip pytype)
     = name ++ str "[" ++ a ++ str "]" ->
     map_type typingcy ga (unwrap_literal (Py.strip a)) = Done t l ->
     map_type typingcy ga pytype = Done (t ++ str "[:]") l)
  /\ (forall pytype a n t node_count l1 l2,
        forallb Re.dot a = true -> lacks "," a = true ->
        forallb Re.dot n = true -> lacks "," n = true ->
        Py.replace (str " ") [] (Py.strip pytype)
        = str "static_List" ++ str "[" ++ (a ++ str "," ++ n) ++ str "]" ->
        map_type typingcy ga (unwrap_literal (Py.strip a)) = Done t l1 ->
        map_type typingcy ga (unwrap_literal (Py.strip n)) = Done node_count l2 ->
        lacks "{" t = true ->
        map_type typingcy ga pytype
        = Done (t ++ str "[" ++ node_count ++ str "]") (l1 ++ l2)).
Proof.
  split.
  - intros pytype name a t l Hname Hdot Hcomma Hbase Et.
    assert (Hid : is_identifier name = true).
    { destruct Hname as [<-|[<-|[]]]; reflexivity. }
    assert (Hreg : typingcy !! name = Some (str "{Type}[:]", [str "Type"])).
    { destruct Hname as [<-|[<-|[]]]; reflexivity. }
    pose proof (map_type_nonempty typingcy ga _ t l typingcy_ok Et) as Hne.
    rewrite (map_type_call typingcy ga pytype name a Hid Hdot Hbase).
    rewrite (split_plain _ _ Hcomma). cbn [map].
    unfold try_custom_template. rewrite Hreg. cbn [length Nat.eqb negb combine].
    assert (Eb : bind_params (map_type typingcy ga)
                   [(str "Type", Py.strip a)] []
                 = Done [(str "Type", t)] l).
    { cbn [bind_params]. rewrite strip_idem, (bind_done _ _ _ _ Et).
      cbn [dict_set]. unfold mret, res_ret. rewrite app_nil_r. reflexivity. }
    rewrite (bind_done_ret _ _ _ _ Eb), (bind_done _ _ _ _ eq_refl).
    unfold substitute. cbn [fold_left fst snd].
    change (str "{" ++ str "Type" ++ str "}") with (str "{Type}").
    change (str "{Type}[:]") with (str "{Type}" ++ str "[:]").
    change (str "{Type}") with ("{"%char :: str "Type}").
    rewrite replace_head, (replace_absent "{") by reflexivity.
    destruct t as [|c t]; [congruence|].
    cbn [app truthy default]. unfold mret, res_ret.
    rewrite !app_nil_r. reflexivity.
  - intros pytype a n t node_count l1 l2 Hda Hca Hdn Hcn Hbase Et En Hbrace.
    pose proof (map_type_nonempty typingcy ga _ t l1 typingcy_ok Et) as Hne.
    assert (Hdot : forallb Re.dot (a ++ str "," ++ n) = true).
    { rewrite forallb_app, Hda. simpl. exact Hdn. }
    rewrite (map_type_call typingcy ga pytype (str "static_List")
               (a ++ str "," ++ n) eq_refl Hdot Hbase).
    change (a ++ str "," ++ n) with (a ++ ","%char :: n).
    rewrite (split_two _ _ _ Hca Hcn). cbn [map].
    unfold try_custom_template.
    change (typingcy !! str "static_List")
      with (Some (str "{ArrayType}[{Size}]", [str "ArrayType"; str "Size"])).
    cbn [length Nat.eqb negb combine].
    assert (Eb : bind_params (map_type typingcy ga)
                   [(str "ArrayType", Py.strip a); (str "Size", Py.strip n)] []
                 = Done [(str "ArrayType", t); (str "Size", node_count)] (l1 ++ l2)).
    { cbn [bind_params]. rewrite !strip_idem, (bind_done _ _ _ _ Et).
      cbn [dict_set]. rewrite (bind_done _ _ _ _ En). cbn [dict_set].
      change (Py.eqs (str "ArrayType") (str "Size")) with false. cbv iota.
      cbn [dict_set]. unfold mret, res_ret. rewrite app_nil_r. reflexivity. }
    rewrite (bind_done_ret _ _ _ _ Eb), (bind_done _ _ _ _ eq_refl).
    unfold substitute. cbn [fold_left fst snd].
    change (str "{" ++ str "ArrayType" ++ str "}") with (str "{ArrayType}").
    change (str "{" ++ str "Size" ++ str "}") with (str "{Size}").
    change (str "{ArrayType}[{Size}]")
      with (str "{ArrayType}" ++ str "[{Size}]").
    change (str "{ArrayType}") with ("{"%char :: str "ArrayType}").
    rewrite replace_head.
    change (Py.replace ("{"%char :: str "ArrayType}") t (str "[{Size}]"))
      with (str "[{Size}]").
    change (str "{Size}") with ("{"%char :: str "Size}").
    rewrite (replace_miss _ _ _ _ _ Hbrace).
    change (Py.replace ("{"%char :: str "Size}") node_count (str "[{Size}]"))
      with (str "[" ++ node_count ++ str "]").
    destruct t as [|c t]; [congruence|].
    cbn [app truthy default]. unfold mret, res_ret.
    rewrite !app_nil_r. reflexivity.
Qed.

Lemma typingcy_rules_witness :
  map_type typingcy false (str "mv_List[ float ]") = Done (str "float[:]") []
  /\ map_type typingcy false (str "static_List[bool, Literal[16]]")
     = Done (str "bint[16]") [].
Proof.
  split.
  - apply (proj1 (typingcy_rules false) (str "mv_List[ float ]")
             (str "mv_List") (str "float") (str "float") []);
      try reflexivity. simpl. tauto.
  - apply (proj2 (typingcy_rules false) (str "static_List[bool, Literal[16]]")
             (str "bool") (str "Literal[16]") (str "bint") (str "16") [] []);
      reflexivity.
Defined.

(** ** Dotted names *)

Lemma dotted_char_facts c :
  Re.dotted_char c = true ->
  Py.isspace c = false /\ Ascii.eqb " " c = false /\ Ascii.eqb "[" c = false.
Proof.
  destruct c as [[] [] [] [] [] [] [] []]; vm_compute; intros H;
    try discriminate H; repeat split; reflexivity.
Qed.

Lemma dotted_name_chars s :
  is_dotted_name s = true -> forallb Re.dotted_char s = true.
Proof.
  destruct s as [|c w]; [discriminate|]. simpl.
  intros [Hc Hw]%andb_prop. rewrite Hw, andb_true_r.
  apply ident_start_char in Hc. unfold Re.dotted_char. rewrite Hc. reflexivity.
Qed.

(** X11. A dotted name, such as a type qualified by its module, that is
    neither a registered rule nor a key of [TYPE_MAP], is returned as it
    is.  Nothing is printed, unless the name is "object". *)
Theorem qualified_name_kept reg ga s :
  is_dotted_name s = true -> reg !! s = None -> TYPE_MAP !! s = None ->
  map_type reg ga s
  = Done s (if Py.eqs s (str "object") then [Unrecognized s] else []).
Proof.
  intros Hs Hreg Hprim. pose proof (dotted_name_chars s Hs) as Hchars.
  assert (Hns : forallb (fun c => negb (Py.isspace c)) s = true).
  { eapply forallb_weaken; [|exact Hchars]. intros c Hc. cbv beta.
    apply dotted_char_facts in Hc as (-> & _). reflexivity. }
  assert (Hsp : lacks " " s = true).
  { eapply forallb_weaken; [|exact Hchars]. intros c Hc. cbv beta.
    apply dotted_char_facts in Hc as (_ & -> & _). reflexivity. }
  assert (Hbr : lacks "[" s = true).
  { eapply forallb_weaken; [|exact Hchars]. intros c Hc. cbv beta.
    apply dotted_char_facts in Hc as (_ & _ & ->). reflexivity. }
  rewrite map_type_unfold. unfold map_type_body. cbv zeta.
  rewrite (strip_plain s Hns), (remove_spaces_plain s Hsp).
  assert (Hd : Py.isdigit s = false).
  { destruct s as [|c w]; [reflexivity|]. simpl in Hs |- *.
    apply andb_prop in Hs as [Hc _].
    rewrite (ident_start_not_digit _ Hc). reflexivity. }
  rewrite Hd, (generic_pattern_needs_bracket s Hbr).
  unfold lookup_name. rewrite Hreg. cbv zeta.
  rewrite (unwrap_literal_plain s (not_wrapped_without_bracket s Hbr)).
  destruct s as [|c w]; [discriminate Hs|].
  cbn [is_dotted_name] in Hs. apply andb_prop in Hs as [Hc Hw].
  rewrite (name_pattern_match c w Hc Hw). unfold Re.group.
  rewrite lookup_insert_eq. cbn [mbind option_bind]. rewrite Hprim.
  cbn [or_else]. destruct (Py.eqs (c :: w) (str "object")); reflexivity.
Qed.

Lemma qualified_name_kept_witness :
  map_type typingcy false (str "np.ndarray") = Done (str "np.ndarray") [].
Proof.
  apply (qualified_name_kept typingcy false (str "np.ndarray"));
    vm_compute; reflexivity.
Defined.

(** ** Types that the engine cannot read *)

Lemma isdigit_chars s c :
  Py.isdigit s = true -> In c s -> Py.isdigit_char c = true.
Proof.
  destruct s as [|a s]; [discriminate|]. unfold Py.isdigit.
  rewrite List.forallb_forall. auto.
Qed.

Lemma at_eol_chars tail c : Re.at_eol tail = true -> In c tail -> ord c = 10.
Proof.
  destruct tail as [|a [|b t]]; simpl; try discriminate; [tauto|].
  intros H [<-|[]]. apply Nat.eqb_eq in H. exact H.
Qed.

Lemma name_pattern_refuses_char s c :
  In c s -> Re.dotted_char c = false -> ord c <> 10 ->
  Re.rmatch Re.name_pattern s = None.
Proof.
  intros Hin Hc Hnl.
  destruct (Re.rmatch Re.name_pattern s) as [m|] eqn:E; [|reflexivity].
  exfalso.
  apply name_pattern_inv in E as (a & name & tail & -> & Ha & Hname & Htail & _).
  apply in_app_or in Hin as [[<-|Hin]|Hin].
  - apply ident_start_char in Ha. unfold Re.dotted_char in Hc.
    rewrite Ha in Hc. discriminate.
  - rewrite List.forallb_forall in Hname. rewrite (Hname _ Hin) in Hc.
    discriminate.
  - apply Hnl. eapply at_eol_chars; eauto.
Qed.

(** X22. A type text that the engine cannot read maps to "object".  Once
    stripped and freed of its blanks, a text with no opening bracket that is
    no registered rule and holds a character outside the class of the second
    pattern (an equals sign, a bar, a quote, ...) matches neither pattern:
    the result is "object" and the type is reported.  So a parameter with an
    annotation and a default value, whose text after the colon holds the
    equals sign, is declared as an object, and its default is lost. *)
Theorem unreadable_type_is_object reg ga :
  (forall pytype base c,
     base = Py.replace (str " ") [] (Py.strip pytype) ->
     In c base -> Re.dotted_char c = false -> Py.isdigit_char c = false ->
     ord c <> 10 -> lacks "[" base = true -> reg !! base = None ->
     map_type reg ga pytype = Done (str "object") [Unrecognized pytype])
  /\ (forall param pname ptype base,
        Py.strip param = pname ++ str ":" ++ ptype ->
        lacks ":" pname = true -> Py.strip pname <> str "self" ->
        base = Py.replace (str " ") [] (Py.strip (Py.strip ptype)) ->
        In "="%char base -> lacks "[" base = true -> reg !! base = None ->
        convert_param reg ga param
        = Done (Some (str "object" ++ str " " ++ Py.strip pname))
               [Unrecognized (Py.strip ptype)]).
Proof.
  assert (H1 : forall pytype base c,
     base = Py.replace (str " ") [] (Py.strip pytype) ->
     In c base -> Re.dotted_char c = false -> Py.isdigit_char c = false ->
     ord c <> 10 -> lacks "[" base = true -> reg !! base = None ->
     map_type reg ga pytype = Done (str "object") [Unrecognized pytype]).
  { intros pytype base c -> Hin Hc Hd Hnl Hbr Hreg.
    rewrite map_type_unfold. unfold map_type_body. cbv zeta.
    set (base := Py.replace (str " ") [] (Py.strip pytype)) in *.
    destruct (Py.isdigit base) eqn:Ed.
    { rewrite (isdigit_chars _ _ Ed Hin) in Hd. discriminate. }
    rewrite (generic_pattern_needs_bracket base Hbr).
    unfold lookup_name. rewrite Hreg. cbv zeta.
    rewrite (unwrap_literal_plain base (not_wrapped_without_bracket base Hbr)).
    rewrite (name_pattern_refuses_char base c Hin Hc Hnl).
    reflexivity. }
  split; [exact H1|].
  intros param pname ptype base Ep Hp Hself Hb Hin Hbr Hreg.
  rewrite (convert_param_annotated reg ga param pname ptype Ep Hp).
  apply eqs_false in Hself. rewrite Hself.
  rewrite (bind_done_ret _ _ _ _
             (H1 (Py.strip ptype) base "="%char Hb Hin eq_refl eq_refl
                 ltac:(discriminate) Hbr Hreg)).
  reflexivity.
Qed.

Lemma unreadable_type_is_object_witness :
  map_type typingcy false (str "int | None")
  = Done (str "object") [Unrecognized (str "int | None")]
  /\ convert_param typingcy false (str " count: int = 0")
     = Done (Some (str "object count")) [Unrecognized (str "int = 0")].
Proof.
  destruct (unreadable_type_is_object typingcy false) as [H1 H2]. split.
  - apply (H1 (str "int | None") (str "int|None") "|"%char);
      try reflexivity; [simpl; tauto | discriminate].
  - apply (H2 (str " count: int = 0") (str "count") (str " int = 0")
              (str "int=0"));
      try reflexivity; [discriminate | simpl; tauto].
Defined.

(** ** The matcher on the lines it is made for *)

(** The greedy star stops where the class stops: when the continuation
    accepts that cut, it is the cut of the match. *)
Lemma star_greedy_max p w rest pos g k res :
  forallb p w = true ->
  match rest with [] => True | c :: _ => p c = false end ->
  k (pos + length w) rest g = Some res ->
  Re.star_greedy p pos (w ++ rest) g k = Some res.
Proof.
  intros Hw Hrest Hk. apply star_greedy_app; [exact Hw|].
  destruct rest as [|c rest]; [exact Hk|].
  rewrite star_greedy_stop by exact Hrest. exact Hk.
Qed.

(** The lazy star goes past the characters on which the continuation
    fails. *)
Lemma star_lazy_skip p w : forall pos rest g k,
  forallb p w = true ->
  (forall pos' c s', In c w -> k pos' (c :: s') g = None) ->
  Re.star_lazy p pos (w ++ rest) g k
  = Re.star_lazy p (pos + length w) rest g k.
Proof.
  induction w as [|c w IH]; intros pos rest g k Hw Hk.
  - simpl. rewrite Nat.add_0_r. reflexivity.
  - cbn [forallb] in Hw. apply andb_prop in Hw as [Hc Hw].
    cbn [app Re.star_lazy]. rewrite (Hk pos c (w ++ rest)) by (left; reflexivity).
    rewrite Hc, IH; [|exact Hw|intros; apply Hk; right; assumption].
    simpl length. f_equal. lia.
Qed.

(** A string is a run of a class followed by a text that does not start
    in the class. *)
Lemma span_class (p : ascii -> bool) s :
  exists w r, s = w ++ r /\ forallb p w = true
              /\ match r with [] => True | c :: _ => p c = false end.
Proof.
  induction s as [|c s (w & r & -> & Hw & Hr)].
  - exists [], []. auto.
  - destruct (p c) eqn:Hc.
    + exists (c :: w), r. simpl. rewrite Hc, Hw. auto.
    + exists [], (c :: w ++ r). auto.
Qed.

Lemma space_not_ident c : Re.space c = true -> Re.ident_start c = false.
Proof.
  destruct c as [[] [] [] [] [] [] [] []]; vm_compute; intros H;
    try discriminate H; reflexivity.
Qed.

Lemma ident_start_not_space c : Re.ident_start c = true -> Re.space c = false.
Proof.
  destruct c as [[] [] [] [] [] [] [] []]; vm_compute; intros H;
    try discriminate H; reflexivity.
Qed.

Lemma space_not_ident_char c : Re.space c = true -> Re.ident_char c = false.
Proof.
  destruct c as [[] [] [] [] [] [] [] []]; vm_compute; intros H;
    try discriminate H; reflexivity.
Qed.

(** The end of the variable pattern: the optional comment and the end of
    the line. *)
Lemma comment_part pos comment g :
  optional is_comment comment = true ->
  Re.run (Re.Seq (Re.Opt (Re.Grp 5 (Re.seq [Re.Star Re.space; Re.lit "#";
                                           Re.Star Re.dot])))
                 Re.Eol)
    pos (default [] comment) g finish
  = Some (set_group 5 comment g).
Proof.
  destruct comment as [[|c text]|]; cbn [optional is_comment]; intros H;
    try discriminate H; [|reflexivity].
  apply andb_prop in H as [Hc Ht]. apply Ascii.eqb_eq in Hc as <-.
  cbn [default from_option]. unfold id. cbn [set_group].
  unfold Re.lit. cbn [Re.seq Re.run].
  rewrite star_greedy_stop by reflexivity.
  change (Ascii.eqb "#" "#") with true. cbv iota.
  assert (E : Re.star_greedy Re.dot (S pos) (text ++ []) g
                (fun pos' s' g' =>
                   if Re.at_eol s'
                   then finish pos' s'
                          (<[5 := firstn (pos' - pos) ("#"%char :: text)]> g')
                   else None)
              = Some (<[5 := "#"%char :: text]> g)).
  { apply star_greedy_max; [exact Ht|exact I|].
    change (Re.at_eol []) with true. cbv iota. unfold finish.
    replace (S pos + length text - pos) with (length ("#"%char :: text))
      by (simpl; lia).
    rewrite firstn_all. reflexivity. }
  rewrite app_nil_r in E. rewrite E. reflexivity.
Qed.

Lemma comment_head_not_space comment :
  optional is_comment comment = true ->
  match default [] comment with
  | [] => True
  | c :: _ => Re.space c = false /\ Re.not_hash_nl c = false
              /\ Ascii.eqb "=" c = false /\ Re.type_char c = false
  end.
Proof.
  destruct comment as [[|c text]|]; cbn [optional is_comment]; intros H;
    try discriminate H; [|exact I].
  apply andb_prop in H as [Hc _]. apply Ascii.eqb_eq in Hc as <-.
  cbn [default from_option]. unfold id. repeat split; reflexivity.
Qed.

(** The optional initializer, the optional comment and the end of the
    line. *)
Lemma assign_part pos assign comment g :
  optional is_initializer assign = true ->
  optional is_comment comment = true ->
  Re.run (Re.Seq (Re.Opt (Re.Grp 4 (Re.seq [Re.Star Re.space; Re.lit "=";
                                           Re.Star Re.space;
                                           Re.Star Re.not_hash_nl])))
                 comment_tail)
    pos (default [] assign ++ default [] comment) g finish
  = Some (set_group 5 comment (set_group 4 assign g)).
Proof.
  intros Ha Hc. pose proof (comment_head_not_space comment Hc) as Hhead.
  pose proof (fun pos g => comment_part pos comment g Hc) as Htail.
  fold comment_tail in Htail.
  destruct assign as [[|c val]|]; cbn [optional is_initializer] in Ha;
    try discriminate Ha.
  - apply andb_prop in Ha as [Hc' Hval]. apply Ascii.eqb_eq in Hc' as <-.
    cbn [default from_option]. unfold id at 1. cbn [set_group app].
    unfold Re.lit. cbn [Re.seq Re.run].
    rewrite star_greedy_stop by reflexivity.
    change (Ascii.eqb "=" "=") with true. cbv iota.
    destruct (span_class Re.space val) as (ws & rest & -> & Hws & Hrest).
    rewrite forallb_app in Hval. apply andb_prop in Hval as [_ Hval].
    set (C := default [] comment) in *.
    assert (E : Re.star_greedy Re.space (S pos) (ws ++ rest ++ C) g
                  (fun pos' s' g' =>
                     Re.star_greedy Re.not_hash_nl pos' s' g'
                       (fun pos'0 s'0 g'0 =>
                          Re.run comment_tail pos'0 s'0
                            (<[4 := firstn (pos'0 - pos)
                                      ("="%char :: (ws ++ rest) ++ C)]> g'0)
                            finish))
                = Some (set_group 5 comment
                          (<[4 := "="%char :: ws ++ rest]> g))).
    { apply star_greedy_max; [exact Hws| |].
      - destruct rest as [|d rest]; [|exact Hrest].
        destruct C as [|d C]; [exact I|]. apply Hhead.
      - apply star_greedy_max; [exact Hval| |].
        + destruct C as [|d C]; [exact I|]. apply Hhead.
        + replace (S pos + length ws + length rest - pos)
            with (length ("="%char :: ws ++ rest))
            by (simpl; rewrite length_app; lia).
          change ("="%char :: (ws ++ rest) ++ C)
            with (("="%char :: ws ++ rest) ++ C).
          rewrite firstn_length_app. apply Htail. }
    rewrite (app_assoc ws rest C) in E. rewrite E. reflexivity.
  - cbn [default from_option set_group app]. unfold Re.lit.
    cbn [Re.seq Re.run].
    assert (E : Re.star_greedy Re.space pos (default [] comment) g
                  (fun pos' s' g' =>
                     match s' with
                     | [] => None
                     | c :: s'0 =>
                         if Ascii.eqb "=" c
                         then Re.star_greedy Re.space (S pos') s'0 g'
                                (fun pos'0 s'1 g'0 =>
                                   Re.star_greedy Re.not_hash_nl pos'0 s'1 g'0
                                     (fun pos'1 s'2 g'1 =>
                                        Re.run comment_tail pos'1 s'2
                                          (<[4 := firstn (pos'1 - pos)
                                                    (default [] comment)]> g'1)
                                          finish))
                         else None
                     end) = None).
    { destruct (default [] comment) as [|d C]; [reflexivity|].
      destruct Hhead as (H1 & _ & H3 & _).
      rewrite star_greedy_stop by exact H1. rewrite H3. reflexivity. }
    rewrite E. apply Htail.
Qed.

(** The head of a run of one class followed by a character. *)
Lemma head_after_run (p q : ascii -> bool) w c r :
  forallb q w = true -> (forall x, q x = true -> p x = false) -> p c = false ->
  match w ++ c :: r with [] => True | d :: _ => p d = false end.
Proof.
  intros Hw Hq Hc. destruct w as [|d w]; [exact Hc|].
  simpl in Hw. apply andb_prop in Hw as [Hd _]. simpl. auto.
Qed.

Lemma tail_head_not_type assign comment :
  optional is_initializer assign = true ->
  optional is_comment comment = true ->
  match default [] assign ++ default [] comment with
  | [] => True
  | c :: _ => Re.type_char c = false
  end.
Proof.
  intros Ha Hc. destruct assign as [[|c val]|]; cbn [optional is_initializer] in Ha;
    try discriminate Ha.
  - apply andb_prop in Ha as [Ha _]. apply Ascii.eqb_eq in Ha as <-. reflexivity.
  - cbn [default from_option app].
    pose proof (comment_head_not_space comment Hc) as H.
    destruct (default [] comment); [exact I|]. tauto.
Qed.

(** The text of a group: what the match has read since the group began. *)
Ltac take_group t :=
  match goal with
  | |- context [firstn ?n ?s] =>
      replace (firstn n s) with t
        by (symmetry;
            replace n with (length t)
              by (simpl; rewrite ?length_app; simpl; lia);
            exact (firstn_length_app t _))
  end.

(** The variable pattern on a line made of an indentation, a name, a
    colon, a type, and optionally an initializer and a comment. *)
Lemma variable_pattern_match indent var ws0 ws typ assign comment :
  forallb Re.space indent = true -> is_identifier var = true ->
  forallb Re.space ws0 = true -> forallb Re.space ws = true ->
  is_type_text typ = true ->
  optional is_initializer assign = true ->
  optional is_comment comment = true ->
  Re.rmatch Re.variable_pattern
    (indent ++ var ++ ws0 ++ str ":" ++ ws ++ typ
     ++ default [] assign ++ default [] comment)
  = Some (set_group 5 comment
            (set_group 4 assign
               (<[3 := typ]> (<[2 := var]> (<[1 := indent]> ∅))))).
Proof.
  intros Hindent Hvar Hws0 Hws Htyp Ha Hc.
  destruct var as [|v var]; [discriminate Hvar|].
  destruct typ as [|c w]; [discriminate Htyp|].
  cbn [is_identifier] in Hvar. apply andb_prop in Hvar as [Hv Hvar].
  cbn [is_type_text] in Htyp. apply andb_prop in Htyp as [Hc0 Hw].
  pose proof (assign_part) as Htail. fold variable_tail in Htail.
  unfold Re.rmatch.
  change Re.variable_pattern
    with (Re.seq [Re.Bol; Re.Grp 1 (Re.Star Re.space);
                  Re.Grp 2 (Re.Seq (Re.Chr Re.ident_start)
                                   (Re.Star Re.ident_char));
                  Re.Star Re.space; Re.lit ":"; Re.Star Re.space;
                  Re.Grp 3 (Re.Seq (Re.Chr Re.ident_start)
                                   (Re.Star Re.type_char));
                  variable_tail]).
  cbn [Re.seq]. unfold Re.lit.
  cbn [Re.run]. change (0 =? 0) with true. cbv iota.
  apply (star_greedy_max _ indent); [exact Hindent|simpl; apply ident_start_not_space, Hv|].
  cbn [app]. rewrite Hv.
  apply (star_greedy_max _ var); [exact Hvar| |].
  { apply (head_after_run _ Re.space); [exact Hws0| |reflexivity].
    apply space_not_ident_char. }
  apply (star_greedy_max _ ws0); [exact Hws0|reflexivity|].
  cbn [app]. change (Ascii.eqb ":" ":") with true. cbv iota.
  apply (star_greedy_max _ ws); [exact Hws|simpl; apply ident_start_not_space, Hc0|].
  cbn [app]. rewrite Hc0.
  apply (star_greedy_max _ w); [exact Hw|apply tail_head_not_type; assumption|].
  take_group (c :: w). take_group (v :: var). take_group indent.
  apply Htail; assumption.
Qed.

Lemma group_set_group n k o g :
  n <> k -> Re.group (set_group k o g) n = Re.group g n.
Proof.
  intros H. destruct o; [|reflexivity]. unfold Re.group. simpl.
  apply lookup_insert_ne. congruence.
Qed.

Lemma group_set_group_eq n o g :
  Re.group g n = None -> Re.group (set_group n o g) n = o.
Proof.
  intros H. destruct o; [|exact H]. unfold Re.group. simpl.
  apply lookup_insert_eq.
Qed.

(** X12. Every line made of an indentation, a name, a colon, a type made
    of the characters that the pattern allows, and optionally an
    initializer and a comment, is rewritten: the output is the indentation,
    "cdef", the mapped type, the name, a space, the initializer and the
    comment as they were.  White space may stand before and after the
    colon; spaces that follow the type belong to the type text, which
    [map_type] strips. *)
Theorem declaration_rewritten reg ga indent var ws0 ws typ assign comment :
  forallb Re.space indent = true -> is_identifier var = true ->
  forallb Re.space ws0 = true -> forallb Re.space ws = true ->
  is_type_text typ = true ->
  optional is_initializer assign = true ->
  optional is_comment comment = true ->
  exists t log,
    map_type reg ga typ = Done t log
    /\ convert_variable_declaration reg ga
         (indent ++ var ++ ws0 ++ str ":" ++ ws ++ typ
          ++ default [] assign ++ default [] comment)
       = Done (indent ++ str "cdef " ++ t ++ str " " ++ var ++ str " "
               ++ default [] assign ++ default [] comment) log.
Proof.
  intros Hindent Hvar Hws0 Hws Htyp Ha Hc.
  destruct (map_type_done reg ga typ) as (t & log & Et).
  exists t, log. split; [exact Et|].
  unfold convert_variable_declaration.
  rewrite (variable_pattern_match indent var ws0 ws typ assign comment)
    by assumption.
  rewrite !(group_set_group 3), !(group_set_group 2), !(group_set_group 1)
    by lia.
  rewrite (group_set_group 4 5) by lia.
  rewrite !group_set_group_eq.
  2: { rewrite group_set_group by lia. reflexivity. }
  2: { reflexivity. }
  group_lookup. rewrite !or_empty_default.
  rewrite (bind_done_ret _ _ _ _ Et). reflexivity.
Qed.

Lemma declaration_rewritten_witness :
  convert_variable_declaration typingcy false
    (str "    count: tuple[int, bool] = (0, True)  # pair")
  = Done (str "    cdef (int, bint) count = (0, True)  # pair") [].
Proof.
  destruct (declaration_rewritten typingcy false (str "    ") (str "count") []
              (str " ") (str "tuple[int, bool] ")
              (Some (str "= (0, True)  ")) (Some (str "# pair"))
              eq_refl eq_refl eq_refl eq_refl eq_refl eq_refl eq_refl)
    as (t & log & Et & E).
  vm_compute in Et. injection Et as <- <-. exact E.
Defined.

(** ** Block headers *)

Lemma first_cut (ch : ascii) : forall a a' b b',
  lacks ch a = true -> lacks ch a' = true ->
  a ++ ch :: b = a' ++ ch :: b' -> a = a' /\ b = b'.
Proof.
  induction a as [|x a IH]; intros a' b b' Ha Ha' E.
  - destruct a' as [|y a']; simpl in E.
    + injection E as <-. auto.
    + injection E as <- _. simpl in Ha'.
      rewrite Ascii.eqb_refl in Ha'. discriminate Ha'.
  - destruct a' as [|y a']; simpl in E.
    + injection E as -> _. simpl in Ha.
      rewrite Ascii.eqb_refl in Ha. discriminate Ha.
    + injection E as <- E. simpl in Ha, Ha'.
      apply andb_prop in Ha as [_ Ha]. apply andb_prop in Ha' as [_ Ha'].
      destruct (IH a' b b' Ha Ha' E) as [-> ->]. auto.
Qed.

Lemma lacks_app ch a b :
  lacks ch a = true -> lacks ch b = true -> lacks ch (a ++ b) = true.
Proof. unfold lacks. intros Ha Hb. rewrite forallb_app, Ha, Hb. reflexivity. Qed.

Lemma space_lacks_colon ws : forallb Re.space ws = true -> lacks ":" ws = true.
Proof.
  intros H. eapply forallb_weaken; [|exact H]. intros c Hc. cbv beta.
  destruct (Ascii.eqb_spec ":" c) as [<-|]; [discriminate Hc|reflexivity].
Qed.

(** A match of the variable pattern has a type after the colon: a text
    that starts with a letter or an underscore. *)
Lemma variable_pattern_type line m :
  Re.rmatch Re.variable_pattern line = Some m ->
  exists indent var ws1 ws2 c rest,
    line = indent ++ var ++ ws1 ++ str ":" ++ ws2 ++ c :: rest
    /\ forallb Re.space indent = true /\ is_identifier var = true
    /\ forallb Re.space ws1 = true /\ forallb Re.space ws2 = true
    /\ Re.ident_start c = true.
Proof.
  intros H. apply rmatch_sound in H as (w & rest & -> & D).
  unfold Re.variable_pattern, Re.lit in D. cbn [Re.seq] in D.
  invert_derivation.
  all: repeat (simpl; rewrite <- ?app_assoc, ?app_nil_r).
  all: match goal with
       | |- exists _ _ _ _ _ _,
             ?w0 ++ ?c :: ?w12 ++ ?w3 ++ ":"%char :: ?w5 ++ ?c0 :: ?r = _
             /\ _ =>
           exists w0, (c :: w12), w3, w5, c0, r
       end.
  all: split; [repeat (simpl; rewrite <- ?app_assoc, ?app_nil_r); reflexivity|].
  all: repeat split; simpl; try assumption.
  all: match goal with
       | H : Re.ident_start ?c = true |- context [Re.ident_start ?c] =>
           rewrite H; assumption
       end.
Qed.

(** X13. A line made of a name and a colon with nothing but white space
    after it, as else: or try: are, passes the test of the main loop on
    annotated names, but the variable rewriter returns it unchanged and
    prints nothing: the pattern wants a type after the colon. *)
Theorem block_header_kept reg ga indent name ws ws' :
  forallb Re.space indent = true -> is_identifier name = true ->
  forallb Re.space ws = true -> forallb Re.space ws' = true ->
  convert_variable_declaration reg ga (indent ++ name ++ ws ++ str ":" ++ ws')
  = Done (indent ++ name ++ ws ++ str ":" ++ ws') [].
Proof.
  intros Hindent Hname Hws Hws'.
  unfold convert_variable_declaration.
  destruct (Re.rmatch Re.variable_pattern _) as [m|] eqn:Hm; [|reflexivity].
  exfalso.
  destruct (variable_pattern_type _ m Hm)
    as (indent' & var & ws1 & ws2 & c & rest
        & E & Hi' & Hvar & Hws1 & Hws2 & Hc).
  assert (Hcolon : forall i n w, forallb Re.space i = true ->
            is_identifier n = true -> forallb Re.space w = true ->
            lacks ":" (i ++ n ++ w) = true).
  { intros i n w Hi Hn Hw. apply lacks_app; [apply space_lacks_colon, Hi|].
    apply lacks_app; [|apply space_lacks_colon, Hw].
    apply identifier_lacks; [reflexivity|exact Hn]. }
  change (str ":" ++ ?r) with (":"%char :: r) in E.
  rewrite !(app_assoc indent), !(app_assoc indent') in E.
  rewrite <- !(app_assoc indent), <- !(app_assoc indent') in E.
  rewrite (app_assoc indent name), (app_assoc (indent ++ name) ws) in E.
  rewrite (app_assoc indent' var), (app_assoc (indent' ++ var) ws1) in E.
  apply first_cut in E as [_ E].
  - assert (Hin : In c ws') by (rewrite E; apply List.in_or_app; right; left; reflexivity).
    rewrite List.forallb_forall in Hws'. specialize (Hws' c Hin).
    rewrite (ident_start_not_space c Hc) in Hws'. discriminate Hws'.
  - rewrite <- !app_assoc. apply Hcolon; assumption.
  - rewrite <- !app_assoc. apply Hcolon; assumption.
Qed.

Lemma block_header_kept_witness :
  convert_variable_declaration typingcy false (str "    else: ")
  = Done (str "    else: ") [].
Proof.
  apply (block_header_kept typingcy false (str "    ") (str "else") []
           (str " ")); reflexivity.
Defined.

(** ** Function headers of the usual shape *)

Lemma run_opt_take r pos s g k res :
  Re.run r pos s g k = Some res -> Re.run (Re.Opt r) pos s g k = Some res.
Proof. intros H. cbn [Re.run]. rewrite H. reflexivity. Qed.

Lemma star_lazy_take p pos s g k res :
  k pos s g = Some res -> Re.star_lazy p pos s g k = Some res.
Proof. intros H. destruct s; simpl; rewrite H; reflexivity. Qed.

(** The end of the function pattern: the optional return annotation, the
    colon and the end of the text. *)
Lemma return_part pos ws ret g :
  forallb Re.space ws = true -> optional is_type_text ret = true ->
  Re.run function_tail pos (arrow ws ret ++ str ":") g finish
  = Some (match ret with
          | Some r => <[4 := str "->" ++ ws ++ r]> (<[5 := r]> g)
          | None => g
          end).
Proof.
  intros Hws Hret. destruct ret as [[|c w]|]; cbn [optional is_type_text] in Hret;
    try discriminate Hret; [|reflexivity].
  apply andb_prop in Hret as [Hc Hw].
  unfold function_tail. cbn [Re.seq arrow].
  change (Re.run (Re.Seq ?a ?b) pos ?s g finish)
    with (Re.run a pos s g (fun pos' s' g' => Re.run b pos' s' g' finish)).
  apply run_opt_take. unfold Re.lit. cbn [Re.run].
  change ((str "->" ++ ws ++ c :: w) ++ str ":")
    with ("-"%char :: ">"%char :: (ws ++ c :: w) ++ str ":").
  change (Ascii.eqb "-" "-") with true. change (Ascii.eqb ">" ">") with true.
  cbv iota. rewrite <- app_assoc.
  apply (star_greedy_max _ ws);
    [exact Hws|simpl; apply ident_start_not_space, Hc|].
  cbn [app]. rewrite Hc.
  apply (star_greedy_max _ w); [exact Hw|reflexivity|].
  rewrite (star_greedy_stop Re.space ":" []) by reflexivity.
  change (Ascii.eqb ":" ":") with true. change (Re.at_eol []) with true.
  cbv iota. unfold finish.
  take_group (c :: w).
  match goal with
  | |- context [firstn ?n ?s] =>
      replace (firstn n s) with (str "->" ++ ws ++ c :: w)
  end; [reflexivity|].
  symmetry.
  match goal with
  | |- firstn ?n _ = _ =>
      replace n with (length (str "->" ++ ws ++ c :: w))
        by (simpl; rewrite ?length_app; simpl; lia)
  end.
  replace ("-"%char :: ">"%char :: ws ++ c :: w ++ str ":")
    with ((str "->" ++ ws ++ c :: w) ++ str ":")
    by (simpl; rewrite <- app_assoc; reflexivity).
  apply firstn_length_app.
Qed.

Lemma arrow_head_not_space ws ret :
  optional is_type_text ret = true ->
  match arrow ws ret ++ str ":" with
  | [] => True
  | c :: _ => Re.space c = false
  end.
Proof. destruct ret; reflexivity. Qed.

(** The function pattern on a header made of an indentation, def, a name,
    the parameters between parentheses, optionally a return annotation, and
    a colon. *)
Lemma function_pattern_match indent s1 ws1 fname ws2 params ws3 ws5 ret :
  forallb Re.space indent = true ->
  forallb Re.space (s1 :: ws1) = true -> is_identifier fname = true ->
  forallb Re.space ws2 = true ->
  forallb Re.dot params = true -> lacks ")" params = true ->
  forallb Re.space ws3 = true -> forallb Re.space ws5 = true ->
  optional is_type_text ret = true ->
  Re.rmatch Re.function_pattern
    (indent ++ str "def" ++ (s1 :: ws1) ++ fname ++ ws2 ++ str "("
     ++ params ++ str ")" ++ ws3 ++ arrow ws5 ret ++ str ":")
  = Some (match ret with
          | Some r => <[4 := str "->" ++ ws5 ++ r]> (<[5 := r]> (<[3 := params]> (<[2 := fname]> (<[1 := indent]> ∅))))
          | None => <[3 := params]> (<[2 := fname]> (<[1 := indent]> ∅))
          end).
Proof.
  intros Hindent Hws1 Hfname Hws2 Hdot Hparen Hws3 Hws5 Hret.
  change (str "(") with ["("%char]. change (str ")") with [")"%char].
  destruct fname as [|f fname]; [discriminate Hfname|].
  cbn [is_identifier] in Hfname. apply andb_prop in Hfname as [Hf Hfname].
  cbn [forallb] in Hws1. apply andb_prop in Hws1 as [Hs1 Hws1].
  pose proof return_part as Htail.
  unfold Re.rmatch.
  change Re.function_pattern
    with (Re.seq [Re.Bol; Re.Grp 1 (Re.Star Re.space);
                  Re.lit "d"; Re.lit "e"; Re.lit "f"; Re.plus Re.space;
                  Re.Grp 2 (Re.Seq (Re.Chr Re.ident_start)
                                   (Re.Star Re.ident_char));
                  Re.Star Re.space; Re.lit "("; Re.Grp 3 (Re.StarLazy Re.dot);
                  Re.lit ")"; Re.Star Re.space; function_tail]).
  cbn [Re.seq]. unfold Re.lit, Re.plus.
  cbn [Re.run]. change (0 =? 0) with true. cbv iota.
  apply (star_greedy_max _ indent); [exact Hindent|reflexivity|].
  change (str "def" ++ (s1 :: ws1) ++ ?r)
    with ("d"%char :: "e"%char :: "f"%char :: s1 :: ws1 ++ r).
  change (Ascii.eqb "d" "d") with true. change (Ascii.eqb "e" "e") with true.
  change (Ascii.eqb "f" "f") with true. cbv iota. rewrite Hs1.
  apply (star_greedy_max _ ws1);
    [exact Hws1|simpl; apply ident_start_not_space, Hf|].
  cbn [app]. rewrite Hf.
  apply (star_greedy_max _ fname); [exact Hfname| |].
  { apply (head_after_run _ Re.space); [exact Hws2| |reflexivity].
    apply space_not_ident_char. }
  apply (star_greedy_max _ ws2); [exact Hws2|reflexivity|].
  cbn [app]. change (Ascii.eqb "(" "(") with true. cbv iota.
  rewrite (star_lazy_skip _ params); [|exact Hdot|].
  2: { intros pos' c s' Hin.
       assert (Hc : Ascii.eqb ")" c = false).
       { unfold lacks in Hparen. rewrite List.forallb_forall in Hparen.
         apply negb_true_iff, Hparen, Hin. }
       rewrite Hc. reflexivity. }
  apply star_lazy_take.
  cbn [app]. change (Ascii.eqb ")" ")") with true. cbv iota.
  apply (star_greedy_max _ ws3);
    [exact Hws3|apply arrow_head_not_space; exact Hret|].
  take_group params. take_group (f :: fname). take_group indent.
  rewrite Htail by assumption. destruct ret; reflexivity.
Qed.

(** X14. Every header made of an indentation, def, a name, a parameter
    list without closing parenthesis inside, optionally an arrow and a
    return type, and a colon, is rewritten: the output is the indentation,
    "cpdef", the mapped return type or "void", the name, and the converted
    parameters separated by a comma and a space.  The parameter list is cut
    at every comma and each piece goes through [convert_param]. *)
Theorem header_rewritten reg ga indent ws1 fname ws2 params ws3 ws5 ret :
  forallb Re.space indent = true ->
  ws1 <> [] -> forallb Re.space ws1 = true -> is_identifier fname = true ->
  forallb Re.space ws2 = true ->
  forallb Re.dot params = true -> lacks ")" params = true ->
  forallb Re.space ws3 = true -> forallb Re.space ws5 = true ->
  optional is_type_text ret = true ->
  exists ret_cytype l1 plist l2,
    match ret with
    | Some r => map_type reg ga r = Done ret_cytype l1
    | None => ret_cytype = str "void" /\ l1 = []
    end
    /\ mapM (convert_param reg ga) (Py.split "," params) = Done plist l2
    /\ convert_function_definition reg ga
         (indent ++ str "def" ++ ws1 ++ fname ++ ws2 ++ str "("
          ++ params ++ str ")" ++ ws3 ++ arrow ws5 ret ++ str ":")
       = Done (indent ++ str "cpdef " ++ ret_cytype ++ str " " ++ fname
               ++ str "(" ++ Py.join (str ", ") (omap id plist) ++ str "):")
              (l1 ++ l2).
Proof.
  intros Hindent Hne Hws1 Hfname Hws2 Hdot Hparen Hws3 Hws5 Hret.
  destruct ws1 as [|s1 ws1]; [congruence|].
  pose proof (function_pattern_match indent s1 ws1 fname ws2 params ws3 ws5
                ret Hindent Hws1 Hfname Hws2 Hdot Hparen Hws3 Hws5 Hret) as Hm.
  destruct (convert_function_definition_matched reg ga _ _ Hm)
    as (indent' & fname' & params' & rt & l1 & plist & l2
        & H1 & H2 & H3 & H5 & Ep & E).
  exists rt, l1, plist, l2.
  destruct ret as [r|]; revert H1 H2 H3 H5; group_lookup;
    intros [= <-] [= <-] [= <-] H5; auto.
Qed.

Lemma header_rewritten_witness :
  convert_function_definition typingcy false
    (str "    def scale(self, k: int, *rest) -> tuple[int, int]:")
  = Done (str "    cpdef (int, int) scale(self, int k, *rest):") [].
Proof.
  destruct (header_rewritten typingcy false (str "    ") (str " ")
              (str "scale") [] (str "self, k: int, *rest") (str " ") (str " ")
              (Some (str "tuple[int, int]"))
              eq_refl ltac:(discriminate) eq_refl eq_refl eq_refl eq_refl
              eq_refl eq_refl eq_refl eq_refl)
    as (rt & l1 & plist & l2 & Er & Ep & E).
  vm_compute in Er. injection Er as <- <-.
  vm_compute in Ep. injection Ep as <- <-. exact E.
Defined.

(** ** Indentation *)

Lemma indentation_app w c r :
  forallb Py.isspace w = true -> Py.isspace c = false ->
  indentation (w ++ c :: r) = w.
Proof.
  intros Hw Hc. induction w as [|a w IH]; simpl.
  - rewrite Hc. reflexivity.
  - simpl in Hw. apply andb_prop in Hw as [-> Hw]. rewrite (IH Hw). reflexivity.
Qed.

Section Indentation.

Variable CUSTOM_TYPE_MAP : gmap pystr (pystr * list pystr).
Variable gen_allow : bool.

Lemma convert_variable_declaration_indent line out log :
  convert_variable_declaration CUSTOM_TYPE_MAP gen_allow line = Done out log ->
  indentation out = indentation line.
Proof.
  unfold convert_variable_declaration.
  destruct (Re.rmatch Re.variable_pattern line) as [m|] eqn:Hm.
  2: { intros [= <- _]. reflexivity. }
  destruct (variable_pattern_inv line m Hm)
    as (indent & var & ws1 & ws2 & typ & tail & assign & comment
        & -> & H1 & H2 & H3 & _ & _ & Hindent & Hvar & _).
  rewrite H1, H2, H3. intros H.
  apply bind_inv in H as (t & l1 & l2 & _ & [= <- _] & _).
  cbn [fmt default from_option]. unfold id.
  destruct var as [|v var]; [discriminate Hvar|].
  cbn [is_identifier] in Hvar. apply andb_prop in Hvar as [Hv _].
  change (str "cdef " ++ ?r) with ("c"%char :: str "def " ++ r).
  cbn [app]. rewrite !indentation_app; auto.
  apply ident_start_not_space, Hv.
Qed.

Lemma convert_function_definition_indent merged out log :
  convert_function_definition CUSTOM_TYPE_MAP gen_allow merged = Done out log ->
  indentation out = indentation merged.
Proof.
  destruct (Re.rmatch Re.function_pattern merged) as [m|] eqn:Hm.
  2: { unfold convert_function_definition. rewrite Hm.
       intros [= <- _]. reflexivity. }
  destruct (convert_function_definition_matched CUSTOM_TYPE_MAP gen_allow
              merged m Hm)
    as (indent & fname & params & rt & l1 & plist & l2
        & H1 & _ & _ & _ & _ & E).
  destruct (function_pattern_inv merged m Hm)
    as (indent' & ws1 & fname' & ws2 & params' & ws3 & ws4 & ws5 & tail & ret
        & -> & H1' & _ & _ & _ & _ & Hindent & _).
  rewrite H1 in H1'. injection H1' as <-.
  rewrite E. intros [= <- _].
  change (str "cpdef " ++ ?r) with ("c"%char :: str "pdef " ++ r).
  change (str "def" ++ ?r) with ("d"%char :: str "ef" ++ r).
  rewrite !indentation_app; auto.
Qed.

End Indentation.

(** X15. The two rewriters keep the indentation: the white space that
    starts the output is the white space that starts the input, whether the
    pattern matches or not. *)
Theorem rewriters_keep_indentation reg ga :
  (forall line out log,
     convert_variable_declaration reg ga line = Done out log ->
     indentation out = indentation line)
  /\ (forall merged out log,
        convert_function_definition reg ga merged = Done out log ->
        indentation out = indentation merged).
Proof.
  split.
  - apply convert_variable_declaration_indent.
  - apply convert_function_definition_indent.
Qed.

Lemma rewriters_keep_indentation_witness :
  indentation (str "    cdef int n = 5  # five") = str "    ".
Proof.
  apply (proj1 (rewriters_keep_indentation ∅ false)
           (str "    n: int = 5  # five") (str "    cdef int n = 5  # five") []).
  vm_compute. reflexivity.
Defined.

(** ** The main loop as a whole *)

Section Whole.

Variable CUSTOM_TYPE_MAP : gmap pystr (pystr * list pystr).
Variable gen_allow : bool.
Variable lines : list pystr.
Variable file_wide : bool.

(** Every turn of the loop returns, emits one line and moves the cursor
    forward, not past the end of the buffer. *)
Lemma loop_body_total st :
  i st < length lines ->
  exists st' log,
    loop_body CUSTOM_TYPE_MAP gen_allow lines file_wide st = Done st' log
    /\ i st < i st' <= length lines
    /\ length (result st') = S (length (result st)).
Proof.
  intros Hi. destruct (lookup_lt_is_Some_2 lines (i st) Hi) as [line Hl].
  destruct (ordinary line) eqn:Hord.
  - destruct (file_wide || in_block st || next_line_compiled st) eqn:Hon.
    + destruct (convert_here_done CUSTOM_TYPE_MAP gen_allow line
                  (skipn (S (i st)) lines)) as (out & n & log & E & Hn).
      rewrite length_skipn in Hn.
      eexists _, log. split; [eapply loop_body_on; eauto|].
      cbn [i result]. rewrite length_app. simpl. lia.
    + eexists _, []. split; [apply loop_body_off; eauto|].
      unfold emit. cbn [i result]. rewrite length_app. simpl. lia.
  - destruct (loop_body_marker CUSTOM_TYPE_MAP gen_allow lines file_wide st
                line Hl Hord) as (st' & E & Hi' & Hr & _).
    exists st', []. split; [exact E|]. rewrite Hi', Hr, length_app. simpl. lia.
Qed.

(** The loop ends with the cursor at the end of the buffer, within
    [len(lines)] turns, and has emitted at most one line per line read. *)
Lemma while_loop_total : forall turns st,
  i st <= length lines -> length lines <= turns + i st ->
  exists st' log,
    (forall n, while_loop CUSTOM_TYPE_MAP gen_allow lines file_wide
                 (turns + n) st = Done st' log)
    /\ i st' = length lines
    /\ length (result st) + (if i st <? length lines then 1 else 0)
       <= length (result st')
    /\ length (result st') + i st <= length (result st) + length lines.
Proof.
  induction turns as [|turns IH]; intros st Hi Hturns.
  - assert (E : i st = length lines) by lia.
    exists st, []. split; [|rewrite E, Nat.ltb_irrefl; lia].
    intros n. destruct n; simpl; rewrite E, Nat.ltb_irrefl; reflexivity.
  - destruct (i st <? length lines) eqn:Hlt.
    + apply Nat.ltb_lt in Hlt.
      destruct (loop_body_total st Hlt) as (st1 & l1 & E1 & Hi1 & Hr1).
      destruct (IH st1 ltac:(lia) ltac:(lia)) as (st' & l2 & E2 & Hi' & Hlo & Hhi).
      exists st', (l1 ++ l2). split; [|split; [exact Hi'|lia]].
      intros n. cbn [Nat.add while_loop].
      apply Nat.ltb_lt in Hlt. rewrite Hlt.
      eapply bind_done_done; [exact E1|apply E2].
    + apply Nat.ltb_ge in Hlt. assert (E : i st = length lines) by lia.
      exists st, []. split; [|lia].
      intros n. cbn [Nat.add while_loop]. rewrite E, Nat.ltb_irrefl. reflexivity.
Qed.

End Whole.

(** ** The rewriters and the main loop in the interpreter *)

Lemma brackets_split1 sep s x :
  In x (Py.split1 sep s) -> brackets x <= brackets s.
Proof.
  revert x. induction s as [|c s IH]; intros x; simpl.
  - intros [<-|[]]. simpl. lia.
  - destruct (Ascii.eqb c sep).
    + intros [<-|[<-|[]]]; simpl; lia.
    + destruct (Py.split1 sep s) as [|h t] eqn:E.
      * intros [<-|[]]. simpl. lia.
      * intros [<-|Hx]; simpl.
        -- specialize (IH h (or_introl eq_refl)). lia.
        -- specialize (IH x (or_intror Hx)). lia.
Qed.

Lemma brackets_join_spaces ls :
  brackets (Py.join (str " ") ls) = brackets (concat ls).
Proof.
  induction ls as [|x ls IH]; [reflexivity|].
  destruct ls as [|y ls].
  - simpl. rewrite app_nil_r. reflexivity.
  - change (Py.join (str " ") (x :: y :: ls))
      with (x ++ str " " ++ Py.join (str " ") (y :: ls)).
    change (concat (x :: y :: ls)) with (x ++ concat (y :: ls)).
    rewrite !brackets_app, IH. reflexivity.
Qed.

Lemma brackets_concat_app (a b : list pystr) :
  brackets (concat (a ++ b)) = brackets (concat a) + brackets (concat b).
Proof. rewrite concat_app. apply brackets_app. Qed.

(** The lines from the cursor on hold no more opening brackets than the
    buffer. *)
Lemma brackets_from_cursor (lines : list pystr) n line :
  lines !! n = Some line ->
  brackets (concat (line :: skipn (S n) lines)) <= brackets (concat lines).
Proof.
  intros Hl. rewrite <- (take_drop n lines) at 2.
  rewrite (drop_S _ _ _ Hl), brackets_concat_app. lia.
Qed.

Lemma brackets_header line rest :
  brackets (concat (line :: header_rest line rest))
  <= brackets (concat (line :: rest)).
Proof.
  destruct (header_rest_prefix rest line) as [tl E].
  rewrite E at 2.
  change (line :: header_rest line rest ++ tl)
    with ((line :: header_rest line rest) ++ tl).
  rewrite brackets_concat_app. lia.
Qed.

Lemma mapM_ext_in {A B : Type} (f g : A -> res B) (xs : list A) :
  (forall x, In x xs -> f x = g x) -> mapM f xs = mapM g xs.
Proof.
  induction xs as [|x xs IH]; intros H; [reflexivity|].
  cbn [mapM]. rewrite (H x (or_introl eq_refl)), IH; [reflexivity|].
  intros y Hy. apply H. right. exact Hy.
Qed.

Section DriverAgreement.

Variable reg : gmap pystr (pystr * list pystr).
Variable gen_allow : bool.
Variable room : nat.

Lemma interp_convert_variable_declaration line :
  brackets line < room ->
  Interp.convert_variable_declaration (templates reg) gen_allow room line
  = convert_variable_declaration reg gen_allow line.
Proof.
  intros Hroom.
  unfold Interp.convert_variable_declaration, convert_variable_declaration.
  destruct (Re.rmatch Re.variable_pattern line) as [m|] eqn:Hm; [|reflexivity].
  destruct (variable_pattern_inv line m Hm)
    as (indent & var & ws1 & ws2 & typ & tail & assign & comment
        & Hline & _ & _ & H3 & _).
  rewrite H3. destruct (map_type_done reg gen_allow typ) as (r & l & E).
  rewrite E, (interp_map_type_done reg gen_allow room typ r l); [reflexivity| |exact E].
  rewrite Hline, !brackets_app in Hroom. lia.
Qed.

Lemma interp_convert_param param :
  brackets param < room ->
  Interp.convert_param (templates reg) gen_allow room param
  = convert_param reg gen_allow param.
Proof.
  intros Hroom. unfold Interp.convert_param, convert_param. cbv zeta.
  pose proof (brackets_strip param) as Hs.
  destruct (Py.strip param) as [|c p] eqn:Ep; [reflexivity|].
  destruct (Py.contains (str ":") (c :: p)) eqn:Ec; [|reflexivity].
  destruct (split1_two ":" _ Ec) as (a & b & Esplit).
  pose proof (brackets_split1 ":" (c :: p) b) as Hb.
  rewrite Esplit in Hb |- *. cbn [map].
  destruct (Py.eqs (Py.strip a) (str "self")); [reflexivity|].
  destruct (map_type_done reg gen_allow (Py.strip b)) as (r & l & E).
  rewrite E, (interp_map_type_done reg gen_allow room (Py.strip b) r l);
    [reflexivity| |exact E].
  pose proof (brackets_strip b). specialize (Hb ltac:(simpl; tauto)). lia.
Qed.

Lemma interp_convert_function_definition merged :
  brackets merged < room ->
  Interp.convert_function_definition (templates reg) gen_allow room merged
  = convert_function_definition reg gen_allow merged.
Proof.
  intros Hroom.
  unfold Interp.convert_function_definition, convert_function_definition.
  destruct (Re.rmatch Re.function_pattern merged) as [m|] eqn:Hm; [|reflexivity].
  destruct (function_pattern_inv merged m Hm)
    as (indent & ws1 & fname & ws2 & params & ws3 & ws4 & ws5 & tail & ret
        & Hmerged & H1 & H2 & H3 & H5 & Ht & _).
  rewrite H3, H5.
  assert (Hparams : mapM (Interp.convert_param (templates reg) gen_allow room)
                      (Py.split "," params)
                    = mapM (convert_param reg gen_allow) (Py.split "," params)).
  { apply mapM_ext_in. intros x Hx. apply interp_convert_param.
    pose proof (brackets_split _ _ _ Hx).
    rewrite Hmerged, !brackets_app in Hroom. lia. }
  rewrite Hparams.
  destruct (truthy ret) eqn:Hret; [|reflexivity].
  destruct ret as [r|]; [|discriminate Hret].
  cbn [default from_option]. unfold id.
  destruct (map_type_done reg gen_allow r) as (c & l & E).
  rewrite E, (interp_map_type_done reg gen_allow room r c l);
    [reflexivity| |exact E].
  rewrite Hmerged, !brackets_app in Hroom. lia.
Qed.

Variable lines : list pystr.
Variable file_wide : bool.
Hypothesis Hroom : brackets (concat lines) < room.

Lemma interp_loop_body st :
  Interp.loop_body (templates reg) gen_allow room lines file_wide st
  = loop_body reg gen_allow lines file_wide st.
Proof.
  unfold Interp.loop_body, loop_body.
  destruct (lines !! i st) as [line|] eqn:Hl; [|reflexivity]. cbv zeta.
  pose proof (brackets_from_cursor lines (i st) line Hl) as Hfrom.
  destruct (Py.eqs (Py.strip line) (str "@compile")); [reflexivity|].
  destruct (Py.startswith (str "#") (Py.strip line)
            && Py.contains (str "cython-begin") (Py.strip line));
    [reflexivity|].
  destruct (Py.startswith (str "#") (Py.strip line)
            && Py.contains (str "cython-end") (Py.strip line));
    [reflexivity|].
  destruct (Py.startswith (str "@") (Py.strip line)); [reflexivity|].
  destruct (Py.startswith (str "def ") (Py.strip line)
            && (file_wide || in_block st || next_line_compiled st)).
  { rewrite interp_convert_function_definition; [reflexivity|].
    rewrite brackets_join_spaces.
    pose proof (brackets_header line (skipn (S (i st)) lines)). lia. }
  destruct ((file_wide || in_block st || next_line_compiled st)
            && bool_decide (is_Some (Re.rmatch Re.annotation_pattern line)));
    [|reflexivity].
  rewrite interp_convert_variable_declaration; [reflexivity|].
  change (concat (line :: skipn (S (i st)) lines))
    with (line ++ concat (skipn (S (i st)) lines)) in Hfrom.
  rewrite brackets_app in Hfrom. lia.
Qed.

Lemma interp_while_loop : forall turns st,
  Interp.while_loop (templates reg) gen_allow room lines file_wide turns st
  = while_loop reg gen_allow lines file_wide turns st.
Proof.
  induction turns as [|turns IH]; intros st; [reflexivity|].
  cbn [Interp.while_loop while_loop].
  destruct (i st <? length lines); [|reflexivity].
  rewrite interp_loop_body.
  destruct (loop_body reg gen_allow lines file_wide st) as [st' l| |];
    try reflexivity.
  unfold mbind, res_bind. rewrite IH. reflexivity.
Qed.

End DriverAgreement.

(** The lines of a text hold no more opening brackets than the text. *)
Lemma brackets_splitlines_from : forall n s cur,
  length s <= n ->
  brackets (concat (Py.splitlines_from cur s)) <= brackets cur + brackets s.
Proof.
  induction n as [|n IH]; intros s cur Hn.
  - destruct s; [|simpl in Hn; lia]. simpl.
    destruct cur; [simpl; lia|].
    cbn [concat]. rewrite app_nil_r, brackets_rev. lia.
  - destruct s as [|c s].
    { simpl. destruct cur; [simpl; lia|].
      cbn [concat]. rewrite app_nil_r, brackets_rev. lia. }
    cbn [Py.splitlines_from]. simpl in Hn.
    destruct (Py.is_linebreak c).
    + destruct s as [|d s].
      * cbn [concat]. rewrite app_nil_r, brackets_rev. simpl. lia.
      * destruct ((ord c =? 13) && (ord d =? 10)).
        -- cbn [concat]. rewrite brackets_app, brackets_rev.
           specialize (IH s [] ltac:(simpl in Hn; lia)). simpl in *. lia.
        -- cbn [concat]. rewrite brackets_app, brackets_rev.
           specialize (IH (d :: s) [] ltac:(lia)). simpl in *. lia.
    + specialize (IH s (c :: cur) ltac:(lia)). simpl in *. lia.
Qed.

Lemma brackets_splitlines source :
  brackets (concat (Py.splitlines source)) <= brackets source.
Proof.
  apply (brackets_splitlines_from (length source) source []). lia.
Qed.

(** ** What the conversion in the interpreter can end with *)

Lemma outcome_bind {A B : Type} (P : A -> Prop) (Q : B -> Prop)
    (m : res A) (k : A -> res B) :
  outcome P m -> (forall a, P a -> outcome Q (k a)) -> outcome Q (m ≫= k).
Proof.
  destruct m as [a l|e l|]; simpl; intros Hm Hk; try assumption.
  specialize (Hk a Hm). unfold mbind, res_bind.
  destruct (k a); assumption.
Qed.

Lemma outcome_any {A : Type} (P : A -> Prop) (m : res A) :
  outcome P m -> outcome (fun _ => True) m.
Proof. destruct m; simpl; auto. Qed.

Lemma outcome_mapM {A B : Type} (f : A -> res B) (xs : list A) :
  (forall x, outcome (fun _ => True) (f x)) ->
  outcome (fun _ => True) (mapM f xs).
Proof.
  intros Hf. induction xs as [|x xs IH]; [exact I|]. cbn [mapM].
  eapply outcome_bind; [apply Hf|]. intros y _.
  eapply outcome_bind; [apply IH|]. intros ys _. exact I.
Qed.

Section EngineOutcome.

Variable reg : gmap pystr (constant * list pystr).
Variable gen_allow : bool.

Section BodyOutcome.

Variable f : pystr -> res constant.
Hypothesis Hf : forall a, outcome (fun _ => True) (f a).

Lemma substitute_outcome subs : forall template,
  outcome (fun _ => True) (Interp.substitute template subs).
Proof.
  induction subs as [|[k v] subs IH]; intros template; [exact I|].
  cbn [Interp.substitute].
  eapply (outcome_bind (fun _ => True)); [|intros t _; apply IH].
  unfold Interp.replace_placeholder.
  destruct template as [t|truth [|] shown]; [destruct v| |]; reflexivity.
Qed.

Lemma bind_params_outcome pairs : forall subs,
  outcome (fun _ => True) (Interp.bind_params f pairs subs).
Proof.
  induction pairs as [|[k v] pairs IH]; intros subs; [exact I|].
  cbn [Interp.bind_params]. cbv zeta.
  eapply outcome_bind; [apply Hf|]. intros mapped _. apply IH.
Qed.

Lemma try_custom_template_outcome name args :
  outcome (fun _ => True) (Interp.try_custom_template reg f name args).
Proof.
  unfold Interp.try_custom_template.
  destruct (reg !! name) as [[template keys]|]; [|exact I].
  destruct (negb (length keys =? length args)); [exact I|].
  eapply outcome_bind; [apply bind_params_outcome|]. intros subs _.
  eapply outcome_bind; [apply substitute_outcome|]. intros t _. exact I.
Qed.

Lemma lookup_name_outcome pytype base :
  outcome (fun _ => True) (Interp.lookup_name reg pytype base).
Proof.
  unfold Interp.lookup_name.
  destruct (reg !! base) as [[template [|k keys]]|]; try exact I.
  cbv zeta. destruct (Py.eqs _ (str "object")); exact I.
Qed.

(** [args[0]] is in range: the arguments come from a [split]. *)
Lemma builtin_generic_outcome typename args :
  args <> [] ->
  outcome (fun _ => True) (Interp.builtin_generic gen_allow f typename args).
Proof.
  intros Hne. unfold Interp.builtin_generic.
  destruct (Py.eqs typename (str "tuple")).
  { eapply outcome_bind; [apply (outcome_mapM f args Hf)|]. intros mapped _.
    eapply (outcome_bind (fun _ => True)); [|intros j _; exact I].
    unfold Interp.join. destruct (Interp.strings mapped); reflexivity. }
  destruct (_ || gen_allow); [|exact I].
  destruct args as [|a0 args]; [congruence|].
  eapply outcome_bind; [apply Hf|]. intros inner _. exact I.
Qed.

Lemma map_type_body_outcome pytype :
  outcome (fun _ => True) (Interp.map_type_body reg gen_allow f pytype).
Proof.
  unfold Interp.map_type_body. cbv zeta.
  set (base := Py.replace (str " ") [] (Py.strip pytype)).
  destruct (Py.isdigit base); [exact I|].
  destruct (Re.rmatch Re.generic_pattern base) as [m|] eqn:Em;
    [|apply lookup_name_outcome].
  destruct (generic_args_brackets _ _ Em) as (typename & args_str & Eg & _).
  rewrite Eg, bind_ret. cbv beta iota.
  set (args := map Py.strip (Py.split "," args_str)).
  assert (Hne : args <> []).
  { unfold args. pose proof (split_nonempty "," args_str).
    destruct (Py.split "," args_str); [congruence|discriminate]. }
  assert (Hafter : outcome (fun _ => True)
                     (Interp.after_template reg gen_allow f typename args
                        pytype base)).
  { unfold Interp.after_template.
    eapply outcome_bind; [apply (builtin_generic_outcome _ _ Hne)|].
    intros [r|] _; [exact I|apply lookup_name_outcome]. }
  eapply outcome_bind; [apply try_custom_template_outcome|].
  intros [v|] _; [|exact Hafter].
  destruct (truthy_constant v); [exact I|exact Hafter].
Qed.

End BodyOutcome.

Lemma map_type_outcome : forall room pytype,
  outcome (fun _ => True) (Interp.map_type reg gen_allow room pytype).
Proof.
  induction room as [|room IH]; intros pytype; [reflexivity|].
  apply map_type_body_outcome. exact IH.
Qed.

Variable room : nat.

Lemma convert_variable_declaration_outcome line :
  outcome (fun _ => True)
    (Interp.convert_variable_declaration reg gen_allow room line).
Proof.
  unfold Interp.convert_variable_declaration.
  destruct (Re.rmatch Re.variable_pattern line) as [m|] eqn:Hm; [|exact I].
  destruct (variable_pattern_inv line m Hm)
    as (indent & var & ws1 & ws2 & typ & tail & assign & comment
        & _ & _ & _ & H3 & _).
  rewrite H3. eapply outcome_bind; [apply map_type_outcome|].
  intros t _. exact I.
Qed.

(** The unpacking of [param.split(":", 1)] finds its two parts. *)
Lemma convert_param_outcome param :
  outcome (fun _ => True) (Interp.convert_param reg gen_allow room param).
Proof.
  unfold Interp.convert_param. cbv zeta.
  destruct (Py.strip param) as [|c p] eqn:Ep; [exact I|].
  destruct (Py.contains (str ":") (c :: p)) eqn:Ec; [|exact I].
  destruct (split1_two ":" _ Ec) as (a & b & ->). cbn [map].
  destruct (Py.eqs (Py.strip a) (str "self")); [exact I|].
  eapply outcome_bind; [apply map_type_outcome|]. intros t _. exact I.
Qed.

Lemma convert_function_definition_outcome merged :
  outcome (fun _ => True)
    (Interp.convert_function_definition reg gen_allow room merged).
Proof.
  unfold Interp.convert_function_definition.
  destruct (Re.rmatch Re.function_pattern merged) as [m|] eqn:Hm; [|exact I].
  destruct (function_pattern_inv merged m Hm)
    as (indent & ws1 & fname & ws2 & params & ws3 & ws4 & ws5 & tail & ret
        & _ & _ & _ & H3 & _).
  rewrite H3.
  eapply (outcome_bind (fun _ => True)).
  { destruct (truthy (Re.group m 5)); [apply map_type_outcome|exact I]. }
  intros r _.
  eapply outcome_bind;
    [apply (outcome_mapM _ _ convert_param_outcome)|].
  intros ps _. exact I.
Qed.

Variable lines : list pystr.
Variable file_wide : bool.

(** A turn of the loop that returns has emitted one line and moved the
    cursor forward, not past the end of the buffer. *)
Lemma loop_body_outcome st :
  i st < length lines ->
  outcome (fun st' => i st < i st' <= length lines
                      /\ length (result st') = S (length (result st)))
    (Interp.loop_body reg gen_allow room lines file_wide st).
Proof.
  intros Hi. unfold Interp.loop_body.
  destruct (lookup_lt_is_Some_2 lines (i st) Hi) as [line Hl]. rewrite Hl.
  cbv zeta.
  assert (Hemit : forall flag out,
            i st < i (emit st flag out) <= length lines
            /\ length (result (emit st flag out)) = S (length (result st))).
  { intros flag out. unfold emit. cbn [i result]. rewrite length_app.
    simpl. lia. }
  assert (Hmark : forall b flag,
            i st < i (State (S (i st)) b flag (result st ++ [line]))
            <= length lines
            /\ length (result (State (S (i st)) b flag (result st ++ [line])))
               = S (length (result st))).
  { intros b flag. cbn [i result]. rewrite length_app. simpl. lia. }
  destruct (Py.eqs (Py.strip line) (str "@compile")); [apply Hemit|].
  destruct (Py.startswith (str "#") (Py.strip line)
            && Py.contains (str "cython-begin") (Py.strip line));
    [apply Hmark|].
  destruct (Py.startswith (str "#") (Py.strip line)
            && Py.contains (str "cython-end") (Py.strip line));
    [apply Hmark|].
  destruct (Py.startswith (str "@") (Py.strip line)); [apply Hemit|].
  destruct (Py.startswith (str "def ") (Py.strip line)
            && (file_wide || in_block st || next_line_compiled st)).
  { eapply outcome_bind; [apply convert_function_definition_outcome|].
    intros out _. cbn [outcome mret res_ret i result].
    pose proof (header_rest_length line (skipn (S (i st)) lines)) as Hn.
    rewrite length_skipn in Hn. rewrite length_app. simpl. lia. }
  destruct ((file_wide || in_block st || next_line_compiled st)
            && bool_decide (is_Some (Re.rmatch Re.annotation_pattern line)));
    [|apply Hemit].
  eapply outcome_bind; [apply convert_variable_declaration_outcome|].
  intros out _. apply Hemit.
Qed.

(** The loop stops within [len(lines)] turns.  When it returns, the cursor
    is at the end of the buffer and at most one line has been emitted per
    line read. *)
Lemma while_loop_outcome : forall turns st,
  i st <= length lines -> length lines <= turns + i st ->
  outcome (fun st' =>
             i st' = length lines
             /\ length (result st) + (if i st <? length lines then 1 else 0)
                <= length (result st')
             /\ length (result st') + i st <= length (result st) + length lines)
    (Interp.while_loop reg gen_allow room lines file_wide turns st).
Proof.
  induction turns as [|turns IH]; intros st Hi Hturns.
  - assert (E : i st = length lines) by lia.
    cbn [Interp.while_loop]. rewrite E, Nat.ltb_irrefl. simpl. lia.
  - cbn [Interp.while_loop]. destruct (i st <? length lines) eqn:Hlt.
    + apply Nat.ltb_lt in Hlt.
      eapply outcome_bind; [apply (loop_body_outcome st Hlt)|].
      intros st1 (Hi1 & Hr1). cbv beta.
      pose proof (IH st1 ltac:(lia) ltac:(lia)) as H.
      destruct (Interp.while_loop reg gen_allow room lines file_wide turns st1)
        as [st' l| |]; simpl in H |- *; try assumption.
      destruct (i st1 <? length lines); lia.
    + apply Nat.ltb_ge in Hlt. simpl. lia.
Qed.

End EngineOutcome.

(** ** The conversion as a whole *)

(** The conversion on strings returns. *)
Lemma convert_lines_done reg ga lines force :
  exists emitted log, convert_lines reg ga lines force = Done emitted log.
Proof.
  unfold convert_lines. cbv zeta.
  destruct (while_loop_total reg ga lines (force || file_level_enabled lines)
              (length lines) (State 0 false false []))
    as (st' & log & E & _); cbn [i]; try lia.
  exists (result st'), log. specialize (E 0). rewrite Nat.add_0_r in E.
  rewrite (bind_done_ret _ _ _ _ E). reflexivity.
Qed.



(** ** Lines that are not rewritten *)

(** [rstrip] cuts a suffix. *)
Lemma rstrip_prefix s : exists w, s = Py.rstrip s ++ w.
Proof.
  unfold Py.rstrip. destruct (lstrip_split (rev s)) as (w & E & _).
  exists (rev w). rewrite <- rev_app_distr, <- E, rev_involutive. reflexivity.
Qed.

(** The first character of the stripped line is the first character of the
    line after its indentation. *)
Lemma strip_head_lstrip line c t :
  Py.strip line = c :: t -> exists r, Py.lstrip line = c :: r.
Proof.
  unfold Py.strip. intros E. destruct (rstrip_prefix (Py.lstrip line)) as (w & Ew).
  rewrite E in Ew. simpl in Ew. eauto.
Qed.

Lemma annotation_pattern_inv line :
  is_annotation line = true ->
  exists c r, Py.lstrip line = c :: r /\ Re.ident_start c = true.
Proof.
  unfold is_annotation. intros H. apply bool_decide_eq_true in H as [m Hm].
  apply rmatch_sound in Hm as (w & rest & -> & D).
  unfold Re.annotation_pattern, Re.lit in D. cbn [Re.seq] in D.
  invert_derivation.
  repeat (simpl; rewrite <- ?app_assoc, ?app_nil_r).
  match goal with
  | Hc : Re.ident_start ?c = true |- _ => exists c
  end.
  eexists. split; [|eassumption].
  apply lstrip_app_stop; [assumption|].
  apply ident_start_not_space. assumption.
Qed.

Lemma startswith_head a p c s :
  Py.startswith (a :: p) (c :: s) = true -> a = c.
Proof. simpl. intros [H _]%andb_prop. apply Ascii.eqb_eq, H. Qed.

(** A line whose stripped text starts with # is no decorator, no def line
    and no annotated name. *)
Lemma comment_line_kept line :
  Py.startswith (str "#") (Py.strip line) = true ->
  is_decorator line = false /\ is_def line = false
  /\ is_annotation line = false.
Proof.
  intros H. unfold is_decorator, is_def.
  destruct (Py.strip line) as [|c t] eqn:E; [discriminate H|].
  apply (startswith_head "#" []) in H as <-.
  split; [reflexivity|]. split; [reflexivity|].
  destruct (is_annotation line) eqn:Ha; [|reflexivity].
  apply annotation_pattern_inv in Ha as (c & r & El & Hc).
  apply strip_head_lstrip in E as (r' & E). rewrite E in El.
  injection El as <- _. discriminate Hc.
Qed.

Section Kept.

Variable CUSTOM_TYPE_MAP : gmap pystr (pystr * list pystr).
Variable gen_allow : bool.

(** The markers go through the conversion of a line unchanged. *)
Lemma convert_here_marker line rest :
  ordinary line = false ->
  convert_here CUSTOM_TYPE_MAP gen_allow line rest = Done (line, 0) [].
Proof.
  unfold ordinary, is_compile_marker, is_region_begin, is_region_end.
  intros H. unfold convert_here.
  destruct (Py.eqs (Py.strip line) (str "@compile")) eqn:Hm.
  { apply eqs_true in Hm. unfold is_decorator. rewrite Hm. reflexivity. }
  assert (Hc : Py.startswith (str "#") (Py.strip line) = true).
  { destruct (Py.startswith (str "#") (Py.strip line)); [reflexivity|].
    discriminate H. }
  destruct (comment_line_kept line Hc) as (-> & -> & ->). reflexivity.
Qed.

Lemma header_rest_closed_line line rest :
  Py.endswith (str ":") (Py.strip line) = true -> header_rest line rest = [].
Proof. intros H. destruct rest; cbn [header_rest]; rewrite H; reflexivity. Qed.

(** The conversion of a line that opens no header running over several
    lines does not look at the lines after it. *)
Lemma convert_here_closed line rest :
  closed_header line = true ->
  convert_here CUSTOM_TYPE_MAP gen_allow line rest
  = convert_here CUSTOM_TYPE_MAP gen_allow line [].
Proof.
  unfold closed_header, convert_here. intros H.
  destruct (is_decorator line); [reflexivity|].
  destruct (is_def line); [|reflexivity]. simpl in H. cbv zeta.
  rewrite !(header_rest_closed_line _ _ H). reflexivity.
Qed.

Lemma convert_here_alone line :
  exists out log,
    convert_here CUSTOM_TYPE_MAP gen_allow line [] = Done (out, 0) log.
Proof.
  destruct (convert_here_done CUSTOM_TYPE_MAP gen_allow line [])
    as (out & n & log & E & Hn).
  simpl in Hn. assert (n = 0) as -> by lia. eauto.
Qed.

Variable lines : list pystr.
Variable file_wide : bool.

(** One turn of the loop on a line that is converted on its own, or on a
    marker. *)
Lemma loop_body_convert st line out log :
  lines !! i st = Some line -> closed_header line = true ->
  ordinary line = false
  \/ file_wide || in_block st || next_line_compiled st = true ->
  convert_here CUSTOM_TYPE_MAP gen_allow line [] = Done (out, 0) log ->
  exists st',
    loop_body CUSTOM_TYPE_MAP gen_allow lines file_wide st = Done st' log
    /\ i st' = S (i st) /\ result st' = result st ++ [out]
    /\ (ordinary line = true ->
        in_block st' = in_block st /\ next_line_compiled st' = false).
Proof.
  intros Hl Hclosed Hmode E.
  destruct (ordinary line) eqn:Hord.
  - destruct Hmode as [Hmode|Hon]; [discriminate Hmode|].
    eexists. split.
    + eapply loop_body_on; eauto. rewrite convert_here_closed; eauto.
    + cbn [i result in_block next_line_compiled]. rewrite Nat.add_0_r. auto.
  - rewrite (convert_here_marker line [] Hord) in E. injection E as <- <-.
    destruct (loop_body_marker CUSTOM_TYPE_MAP gen_allow lines file_wide st
                line Hl Hord) as (st' & E & Hi & Hr & _).
    exists st'. split; [exact E|]. split; [exact Hi|]. split; [exact Hr|].
    intros H. discriminate H.
Qed.

End Kept.

(** ** Runs of the main loop over a stretch of lines *)

Section Stretches.

Variable CUSTOM_TYPE_MAP : gmap pystr (pystr * list pystr).
Variable gen_allow : bool.
Variable lines : list pystr.

(** With the whole-file flag, every line that opens no header running
    over several lines is converted on its own, the markers included. *)
Lemma while_loop_whole : forall seg pre turns st,
  lines = pre ++ seg -> i st = length pre ->
  forallb closed_header seg = true -> length seg <= turns ->
  exists outs log st',
    mapM (fun l => convert_here CUSTOM_TYPE_MAP gen_allow l []) seg
    = Done outs log
    /\ while_loop CUSTOM_TYPE_MAP gen_allow lines true turns st = Done st' log
    /\ result st' = result st ++ map fst outs.
Proof.
  induction seg as [|l seg IH]; intros pre turns st Hlines Hi Hclosed Hturns.
  - exists [], [], st. split; [reflexivity|]. split; [|rewrite app_nil_r; reflexivity].
    rewrite app_nil_r in Hlines.
    destruct turns; simpl; rewrite Hi, Hlines, Nat.ltb_irrefl; reflexivity.
  - cbn [forallb] in Hclosed. apply andb_prop in Hclosed as [Hl Hclosed].
    destruct turns as [|turns]; [simpl in Hturns; lia|].
    assert (Hlook : lines !! i st = Some l).
    { rewrite Hlines, Hi. apply lookup_middle. }
    destruct (convert_here_alone CUSTOM_TYPE_MAP gen_allow l) as (out & l1 & E1).
    destruct (loop_body_convert CUSTOM_TYPE_MAP gen_allow lines true st l out l1
                Hlook Hl (or_intror eq_refl) E1)
      as (st1 & Eb & Hi1 & Hr1 & _).
    destruct (IH (pre ++ [l]) turns st1) as (outs & l2 & st' & Em & Ew & Hr).
    { rewrite <- app_assoc. exact Hlines. }
    { rewrite Hi1, Hi, length_app. simpl. lia. }
    { exact Hclosed. }
    { simpl in Hturns. lia. }
    exists ((out, 0) :: outs), (l1 ++ l2), st'. split; [|split].
    + cbn [mapM]. eapply bind_done_done; [exact E1|].
      rewrite (bind_done_ret _ _ _ _ Em). reflexivity.
    + rewrite (while_loop_turn CUSTOM_TYPE_MAP gen_allow lines true turns st st1
                 l1); [|
        rewrite Hlines, Hi, length_app; simpl; lia|exact Eb].
      rewrite Ew. reflexivity.
    + rewrite Hr, Hr1, <- app_assoc. reflexivity.
Qed.

(** Inside a region, a stretch of ordinary lines that open no header
    running over several lines is converted line by line. *)
Lemma while_loop_region : forall seg pre post turns st outs log,
  lines = pre ++ seg ++ post -> i st = length pre ->
  in_block st = true -> next_line_compiled st = false ->
  forallb ordinary seg = true -> forallb closed_header seg = true ->
  mapM (fun l => convert_here CUSTOM_TYPE_MAP gen_allow l []) seg
  = Done outs log ->
  while_loop CUSTOM_TYPE_MAP gen_allow lines false (length seg + turns) st
  = (_ ← Done tt log;
     while_loop CUSTOM_TYPE_MAP gen_allow lines false turns
       (State (length pre + length seg) true false
          (result st ++ map fst outs))).
Proof.
  induction seg as [|l seg IH];
    intros pre post turns st outs log Hlines Hi Hb Hf Hord Hclosed Hm.
  - simpl in Hm. injection Hm as <- <-. simpl. rewrite Nat.add_0_r, app_nil_r.
    destruct st; simpl in *; subst.
    destruct (while_loop _ _ _ _ _ _); reflexivity.
  - cbn [forallb] in Hord, Hclosed.
    apply andb_prop in Hord as [Hl Hord].
    apply andb_prop in Hclosed as [Hc Hclosed].
    cbn [mapM] in Hm.
    apply bind_inv in Hm as ([out n] & l1 & l' & E1 & Hm & ->).
    apply bind_inv in Hm as (outs' & l2 & l3 & Em & Hm & ->).
    injection Hm as <- <-. rewrite app_nil_r.
    destruct (convert_here_alone CUSTOM_TYPE_MAP gen_allow l) as (o & lo & Eo).
    rewrite Eo in E1. injection E1 as <- <- <-.
    assert (Hlook : lines !! i st = Some l).
    { rewrite Hlines, Hi. apply lookup_middle. }
    destruct (loop_body_convert CUSTOM_TYPE_MAP gen_allow lines false st l o lo
                Hlook Hc) as (st1 & Eb & Hi1 & Hr1 & Hflags); [|exact Eo|].
    { right. rewrite Hb. reflexivity. }
    destruct (Hflags Hl) as [Hb1 Hf1].
    cbn [length Nat.add].
    rewrite (while_loop_turn CUSTOM_TYPE_MAP gen_allow lines false _ st st1 lo);
      [|rewrite Hlines, Hi, length_app; simpl; lia|exact Eb].
    rewrite (IH (pre ++ [l]) post turns st1 outs' l2); try assumption.
    + rewrite Hr1, length_app, <- app_assoc. simpl.
      replace (length pre + 1 + length seg) with (length pre + S (length seg))
        by lia.
      unfold mbind, res_bind.
      destruct (while_loop _ _ _ _ _ _); rewrite ?app_assoc; reflexivity.
    + rewrite <- app_assoc. exact Hlines.
    + rewrite Hi1, Hi, length_app. simpl. lia.
    + congruence.
Qed.

End Stretches.

(** X17. With the whole-file flag, set by the caller or by "use-cython" in
    one of the first three lines, and no function header that runs over
    several lines, the output is the input converted line by line: each
    line is converted on its own, whatever the markers before it, and the
    marker lines themselves come out unchanged. *)
Theorem whole_file_line_by_line reg ga lines force :
  force || file_level_enabled lines = true ->
  forallb closed_header lines = true ->
  exists outs log,
    mapM (fun l => convert_here reg ga l []) lines = Done outs log
    /\ convert_lines reg ga lines force = Done (map fst outs) log.
Proof.
  intros Hwide Hclosed. unfold convert_lines. cbv zeta. rewrite Hwide.
  destruct (while_loop_whole reg ga lines lines [] (length lines)
              (State 0 false false []) eq_refl eq_refl Hclosed (Nat.le_refl _))
    as (outs & log & st' & Em & Ew & Hr).
  exists outs, log. split; [exact Em|].
  rewrite (bind_done_ret _ _ _ _ Ew), Hr. reflexivity.
Qed.

Lemma whole_file_line_by_line_witness :
  convert_lines typingcy false
    (map str ["# use-cython"; "@compile"; "n: int = 0"; "# cython-end";
              "def f(v: mv_List[float]) -> None:"; "    return"]) false
  = Done (map str ["# use-cython"; "@compile"; "cdef int n = 0";
                   "# cython-end"; "cpdef void f(float[:] v):"; "    return"])
         [].
Proof.
  destruct (whole_file_line_by_line typingcy false
              (map str ["# use-cython"; "@compile"; "n: int = 0";
                        "# cython-end";
                        "def f(v: mv_List[float]) -> None:"; "    return"])
              false eq_refl eq_refl) as (outs & log & Em & E).
  vm_compute in Em. injection Em as <- <-. exact E.
Defined.

(** X18. A region.  In a buffer without whole-file flag and without any
    other marker, in which no line between the two markers is a def line
    whose stripped text does not end with a colon, the lines before the
    region-begin marker and after the region-end marker come out unchanged,
    the two markers too, and the lines between them are converted line by
    line.  The condition on the def lines is needed: in conversion mode a
    def line whose stripped text does not end with a colon, as when a
    comment follows the colon, takes the line after it into its header
    whatever that line is, so that a region-end marker in that place is
    merged into the header and does not close the region. *)
Theorem region_delimits_conversion reg ga :
  (forall pre b body e post,
     file_level_enabled (pre ++ b :: body ++ e :: post) = false ->
     forallb ordinary pre = true ->
     is_compile_marker b = false -> is_region_begin b = true ->
     forallb ordinary body = true -> forallb closed_header body = true ->
     is_compile_marker e = false -> is_region_begin e = false ->
     is_region_end e = true ->
     forallb ordinary post = true ->
     exists outs log,
       mapM (fun l => convert_here reg ga l []) body = Done outs log
       /\ convert_lines reg ga (pre ++ b :: body ++ e :: post) false
          = Done (pre ++ b :: map fst outs ++ e :: post) log)
  /\ (forall lines file_wide st line next,
        lines !! i st = Some line -> ordinary line = true ->
        is_def line = true ->
        file_wide || in_block st || next_line_compiled st = true ->
        Py.endswith (str ":") (Py.strip line) = false ->
        lines !! S (i st) = Some next ->
        exists more out log,
          header_rest line (skipn (S (i st)) lines) = next :: more
          /\ convert_function_definition reg ga
               (Py.join (str " ") (line :: next :: more)) = Done out log
          /\ loop_body reg ga lines file_wide st
             = Done (State (S (S (i st + length more))) (in_block st) false
                       (result st ++ [out])) log).
Proof.
  split.
  - intros pre b body e post.
    intros Hfile Hpre Hb1 Hb2 Hbody Hclosed He1 He2 He3 Hpost.
    destruct (mapM_done (fun l => convert_here reg ga l []) body) as (outs & log & Em).
    { intros l. destruct (convert_here_alone reg ga l) as (o & lo & E). eauto. }
    exists outs, log. split; [exact Em|].
    unfold convert_lines. cbv zeta. rewrite Hfile. cbn [orb].
    set (lines := pre ++ b :: body ++ e :: post).
    assert (Hlen : length lines
                   = length pre + S (length body + S (length post + 0))).
    { unfold lines. rewrite !length_app. simpl. rewrite !length_app. simpl. lia. }
    rewrite Hlen.
    rewrite (while_loop_copy reg ga lines pre [] (b :: body ++ e :: post));
      try reflexivity; try assumption.
    cbn [result app Nat.add].
    rewrite (while_loop_turn reg ga lines false _
               (State (length pre) false false pre)
               (State (S (length pre)) true false (pre ++ [b])) []).
    2: { cbn [i]. lia. }
    2: { apply (loop_body_region_begin reg ga lines false
                  (State (length pre) false false pre) b); try assumption.
         cbn [i]. apply lookup_middle. }
    rewrite (bind_done_nil _ _ tt eq_refl).
    rewrite (while_loop_region reg ga lines body (pre ++ [b]) (e :: post) _
               (State (S (length pre)) true false (pre ++ [b])) outs log);
      try assumption; try reflexivity.
    2: { unfold lines. rewrite <- !app_assoc. reflexivity. }
    2: { cbn [i]. rewrite length_app. simpl. lia. }
    cbn [result].
    rewrite (while_loop_turn reg ga lines false _
               (State (length (pre ++ [b]) + length body) true false
                  ((pre ++ [b]) ++ map fst outs))
               (State (S (length (pre ++ [b]) + length body)) false false
                  (((pre ++ [b]) ++ map fst outs) ++ [e])) []).
    2: { cbn [i]. rewrite length_app. simpl. lia. }
    2: { apply (loop_body_region_end reg ga lines false
                  (State (length (pre ++ [b]) + length body) true false
                     ((pre ++ [b]) ++ map fst outs)) e); try assumption.
         cbn [i]. unfold lines.
         replace (pre ++ b :: body ++ e :: post)
           with (((pre ++ [b]) ++ body) ++ e :: post)
           by (rewrite <- !app_assoc; reflexivity).
         rewrite <- length_app. apply lookup_middle. }
    rewrite (bind_done_nil _ _ tt eq_refl).
    rewrite (while_loop_copy reg ga lines post ((pre ++ [b]) ++ body ++ [e]) []);
      try reflexivity; try assumption.
    2: { unfold lines. rewrite <- !app_assoc, app_nil_r. reflexivity. }
    2: { cbn [i]. rewrite !length_app. simpl. lia. }
    cbn [while_loop i result].
    assert (Hend : length ((pre ++ [b]) ++ body ++ [e]) + length post
                   = length lines).
    { rewrite Hlen, !length_app. simpl. lia. }
    rewrite Hend, Nat.ltb_irrefl.
    unfold mbind, res_bind, mret, res_ret. rewrite !app_nil_r.
    f_equal. rewrite <- !app_assoc. reflexivity.
  - intros lines file_wide st line next Hl Hord Hdef Hon Hopen Hnext.
    exists (header_rest next (skipn (S (S (i st))) lines)).
    assert (Hrest : header_rest line (skipn (S (i st)) lines)
                    = next :: header_rest next (skipn (S (S (i st))) lines)).
    { rewrite (drop_S _ _ _ Hnext). cbn [header_rest]. rewrite Hopen.
      reflexivity. }
    destruct (convert_function_definition_done reg ga
                (Py.join (str " ")
                   (line :: next
                    :: header_rest next (skipn (S (S (i st))) lines))))
      as (out & log & E).
    exists out, log. split; [exact Hrest|]. split; [exact E|].
    rewrite (loop_body_on reg ga lines file_wide st line out
               (S (length (header_rest next (skipn (S (S (i st))) lines))))
               log Hl Hord Hon).
    + rewrite Nat.add_succ_r. reflexivity.
    + unfold convert_here. rewrite (def_not_decorator _ Hdef), Hdef. cbv zeta.
      rewrite Hrest, (bind_done_ret _ _ _ _ E). reflexivity.
Qed.

(** A region of two lines; and a header followed by a comment, which takes
    the region-end marker and the line after it. *)
Lemma region_delimits_conversion_witness :
  convert_lines typingcy false
    (map str ["a: int = 1"; "# cython-begin"; "b: bool = True";
              "def f(v: mv_List[int]):"; "# cython-end"; "c: int = 3"])
    false
  = Done (map str ["a: int = 1"; "# cython-begin"; "cdef bint b = True";
                   "cpdef void f(int[:] v):"; "# cython-end"; "c: int = 3"])
         []
  /\ loop_body ∅ false
       (map str ["# cython-begin"; "def f(a: int):  # fast path";
                 "# cython-end"; "x: int"; "class A:"])
       false (State 1 true false [str "# cython-begin"])
     = Done (State 5 true false
               [str "# cython-begin";
                str "def f(a: int):  # fast path # cython-end x: int class A:"])
            [].
Proof.
  split.
  - destruct (proj1 (region_delimits_conversion typingcy false)
                [str "a: int = 1"] (str "# cython-begin")
                (map str ["b: bool = True"; "def f(v: mv_List[int]):"])
                (str "# cython-end") [str "c: int = 3"]
                eq_refl eq_refl eq_refl eq_refl eq_refl eq_refl eq_refl eq_refl
                eq_refl eq_refl) as (outs & log & Em & E).
    vm_compute in Em. injection Em as <- <-. exact E.
  - destruct (proj2 (region_delimits_conversion ∅ false)
                (map str ["# cython-begin"; "def f(a: int):  # fast path";
                          "# cython-end"; "x: int"; "class A:"])
                false (State 1 true false [str "# cython-begin"])
                (str "def f(a: int):  # fast path") (str "# cython-end")
                eq_refl eq_refl eq_refl eq_refl eq_refl eq_refl)
      as (more & out & log & Hm & Ec & Eb).
    vm_compute in Hm. injection Hm as <-.
    vm_compute in Ec. injection Ec as <- <-. exact Eb.
Defined.

(** ** The registration on the tree of a file *)

(** The registration on [typingcy.py]. *)
Example extract_typingcy :
  extract_convert_type_mappings typingcy_tree
  = (fun rule => (CStr (fst rule), snd rule)) <$> typingcy.
Proof. apply (bool_decide_unpack _). vm_compute. exact I. Qed.

(** ** What the registration guarantees *)

Lemma visit_truthy m n :
  map_Forall (fun _ rule => truthy_constant (fst rule) = true) m ->
  map_Forall (fun _ rule => truthy_constant (fst rule) = true) (visit m n).
Proof.
  intros Hm. destruct n as [name decos body|children]; [|exact Hm].
  unfold visit.
  destruct (fold_left scan_decorator decos (None, [])) as [[v|] params];
    [|exact Hm].
  destruct (truthy_constant v) eqn:Hv; [|exact Hm].
  apply map_Forall_insert_2; [exact Hv|exact Hm].
Qed.

Lemma fold_visit_truthy ns : forall m,
  map_Forall (fun _ rule => truthy_constant (fst rule) = true) m ->
  map_Forall (fun _ rule => truthy_constant (fst rule) = true)
    (fold_left visit ns m).
Proof.
  induction ns as [|n ns IH]; intros m Hm; [exact Hm|].
  simpl. apply IH, visit_truthy, Hm.
Qed.

(** The walk visits every node once. *)
Lemma size_all_nodes_list (ns : list node) :
  (forall n, In n ns -> length (all_nodes n) = node_count n) ->
  length (flat_map all_nodes ns) = list_sum (map node_count ns).
Proof.
  induction ns as [|n ns IH]; intros H; [reflexivity|].
  simpl. rewrite length_app, H by (left; reflexivity).
  rewrite IH; [reflexivity|]. intros x Hx. apply H. right. exact Hx.
Qed.

Lemma walk_loop_nodes : forall turns todo,
  length (flat_map all_nodes todo) <= turns ->
  Permutation (walk_loop turns todo) (flat_map all_nodes todo).
Proof.
  induction turns as [|turns IH]; intros todo Hlen.
  - destruct todo as [|n rest]; [reflexivity|].
    destruct n; simpl in Hlen; lia.
  - destruct todo as [|n rest]; [reflexivity|].
    cbn [walk_loop flat_map].
    assert (E : all_nodes n = n :: flat_map all_nodes (iter_child_nodes n)).
    { destruct n; reflexivity. }
    rewrite E. cbn [app]. constructor.
    rewrite IH.
    + rewrite flat_map_app. apply Permutation_app_comm.
    + rewrite flat_map_app, length_app.
      cbn [flat_map] in Hlen. rewrite E, length_app in Hlen.
      simpl in Hlen. lia.
Qed.

Lemma length_all_nodes : forall n, length (all_nodes n) = node_count n.
Proof.
  fix IH 1. intros [name decos body|children]; simpl; f_equal.
  - induction body as [|x body IHb]; simpl; [reflexivity|].
    rewrite length_app, IH, IHb. reflexivity.
  - induction children as [|x children IHc]; simpl; [reflexivity|].
    rewrite length_app, IH, IHc. reflexivity.
Qed.

Lemma walk_nodes tree : Permutation (walk tree) (all_nodes tree).
Proof.
  unfold walk. rewrite walk_loop_nodes.
  - simpl. rewrite app_nil_r. reflexivity.
  - simpl. rewrite app_nil_r, length_all_nodes. lia.
Qed.

(** The entry of a name only depends on the classes of that name. *)
Lemma visit_other_name name n m :
  named name n = false -> visit m n !! name = m !! name.
Proof.
  destruct n as [name' decos body|children]; [|reflexivity].
  simpl. intros Hn. apply eqs_false in Hn.
  destruct (fold_left scan_decorator decos (None, [])) as [[v|] params];
    [|reflexivity].
  destruct (truthy_constant v); [|reflexivity].
  apply lookup_insert_ne. exact Hn.
Qed.

Lemma visit_same_name name n m m' :
  named name n = true -> m !! name = m' !! name ->
  visit m n !! name = visit m' n !! name.
Proof.
  destruct n as [name' decos body|children]; [|discriminate].
  simpl. intros Hn Hm. apply eqs_true in Hn as ->.
  destruct (fold_left scan_decorator decos (None, [])) as [[v|] params];
    [|exact Hm].
  destruct (truthy_constant v); [|exact Hm].
  rewrite !lookup_insert_eq. reflexivity.
Qed.

Lemma fold_visit_filter name ns : forall m m',
  m !! name = m' !! name ->
  fold_left visit ns m !! name
  = fold_left visit (List.filter (named name) ns) m' !! name.
Proof.
  induction ns as [|n ns IH]; intros m m' Hm; [exact Hm|].
  cbn [fold_left List.filter]. destruct (named name n) eqn:Hn.
  - cbn [fold_left]. apply IH. apply visit_same_name; assumption.
  - apply IH. rewrite visit_other_name by exact Hn. exact Hm.
Qed.

Lemma filter_permutation_singleton {A : Type} (p : A -> bool) l l' x :
  Permutation l l' -> List.filter p l' = [x] -> List.filter p l = [x].
Proof.
  intros HP E.
  assert (H : Permutation (List.filter p l) (List.filter p l')).
  { clear E. induction HP; simpl.
    - constructor.
    - destruct (p x0); [constructor|]; assumption.
    - destruct (p x0), (p y); try reflexivity. apply perm_swap.
    - etransitivity; eassumption. }
  rewrite E in H. apply Permutation_length_1_inv. symmetry. exact H.
Qed.

Lemma visit_class name decos body :
  visit ∅ (ClassDef name decos body) !! name = class_rule decos.
Proof.
  unfold visit, class_rule.
  destruct (fold_left scan_decorator decos (None, [])) as [[v|] params];
    [|apply lookup_empty].
  destruct (truthy_constant v); [apply lookup_insert_eq|apply lookup_empty].
Qed.

(** X19. What [extract_convert_type_mappings] returns.  For every tree,
    the template of every rule it records is a truthy constant, so the
    rules with a string template, which are those [map_type] can apply,
    have non-empty templates: the registry satisfies [registry_ok].  On the
    tree of [typingcy.py] it returns the three rules of [typingcy], all
    with string templates. *)
Theorem registration_guarantees :
  (forall tree name v params,
     extract_convert_type_mappings tree !! name = Some (v, params) ->
     truthy_constant v = true)
  /\ (forall tree, registry_ok (string_rules (extract_convert_type_mappings tree)))
  /\ extract_convert_type_mappings typingcy_tree
     = (fun rule => (CStr (fst rule), snd rule)) <$> typingcy
  /\ string_rules (extract_convert_type_mappings typingcy_tree) = typingcy.
Proof.
  assert (H : forall tree,
            map_Forall (fun _ rule => truthy_constant (fst rule) = true)
              (extract_convert_type_mappings tree)).
  { intros tree. apply fold_visit_truthy. apply map_Forall_empty. }
  split; [|split; [|split]].
  - intros tree name v params E. exact (H tree name _ E).
  - intros tree name [t ps] E. unfold string_rules in E.
    apply lookup_omap_Some in E as ([v ps'] & Ev & E).
    specialize (H tree name _ E). simpl in Ev, H.
    destruct v as [s|b]; [|discriminate Ev]. injection Ev as <- <-.
    simpl. intros ->. discriminate H.
  - apply (bool_decide_unpack _). vm_compute. exact I.
  - apply (bool_decide_unpack _). vm_compute. exact I.
Qed.

Lemma registration_guarantees_witness :
  truthy_constant (CStr (str "{Type}[:]")) = true.
Proof.
  apply (proj1 registration_guarantees typingcy_tree (str "mv_List")
           (CStr (str "{Type}[:]")) [str "Type"]).
  apply (bool_decide_unpack _). vm_compute. exact I.
Defined.

(** X20. The walk reaches every class definition of the tree, at any
    depth.  When one class only has a given name, the entry of that name is
    what the decorators of that class make of it, whatever the other
    classes are: a rule when they give a truthy template, no entry
    otherwise. *)
Theorem class_registered tree name decorator_list body :
  List.filter (named name) (all_nodes tree)
  = [ClassDef name decorator_list body] ->
  extract_convert_type_mappings tree !! name = class_rule decorator_list.
Proof.
  intros Hone. unfold extract_convert_type_mappings.
  rewrite (fold_visit_filter name (walk tree) ∅ ∅ eq_refl).
  rewrite (filter_permutation_singleton _ _ _ _ (walk_nodes tree) Hone).
  apply visit_class.
Qed.

(** ** The decorators of a class *)

Lemma scan_decorator_swap acc d1 d2 :
  calls "convert_type" d1 = true -> calls "type_params" d2 = true ->
  scan_decorator (scan_decorator acc d1) d2
  = scan_decorator (scan_decorator acc d2) d1.
Proof.
  destruct acc as [template params].
  destruct d1 as [| |f1 args1|]; try discriminate.
  destruct d2 as [| |f2 args2|]; try discriminate.
  cbn [calls]. intros H1 H2.
  assert (H21 : id_is f2 "convert_type" = false).
  { unfold id_is in *. destruct (func_id f2) as [id|]; [|reflexivity].
    apply eqs_true in H2 as ->. reflexivity. }
  unfold scan_decorator. rewrite H1, H21, H2.
  destruct args1 as [|[v| | |] [|? ?]]; rewrite ?H1, ?H21, ?H2; reflexivity.
Qed.

Lemma fold_scan_no_template decos : forall params,
  forallb (fun d => negb (calls "convert_type" d)) decos = true ->
  fst (fold_left scan_decorator decos (None, params)) = None.
Proof.
  induction decos as [|d decos IH]; intros params H; [reflexivity|].
  cbn [forallb] in H. apply andb_prop in H as [Hd H].
  apply negb_true_iff in Hd. cbn [fold_left].
  assert (E : exists params', scan_decorator (None, params) d = (None, params')).
  { destruct d as [| |f args|]; cbn [scan_decorator]; eauto.
    cbn [calls] in Hd. rewrite Hd.
    destruct (id_is f "type_params"); eauto. }
  destruct E as [params' ->]. apply IH, H.
Qed.

Lemma string_constants_strings ps :
  string_constants (map (fun p => Constant (CStr p)) ps) = ps.
Proof.
  induction ps as [|p ps IH]; [reflexivity|].
  change (string_constants (map (fun p => Constant (CStr p)) (p :: ps)))
    with (p :: string_constants (map (fun p => Constant (CStr p)) ps)).
  rewrite IH. reflexivity.
Qed.

(** X21. The decorators of a class.  A call of convert_type and a call of
    type_params that follow each other can be exchanged without changing
    the rule.  A class decorated with type_params, given string constants,
    and with convert_type, given one constant, gets that constant as
    template, when it is truthy, and these strings as parameters.  A class
    without a call of convert_type gets no rule, whatever its other
    decorators. *)
Theorem decorators_of_a_rule :
  (forall before d1 d2 after,
     calls "convert_type" d1 = true -> calls "type_params" d2 = true ->
     class_rule (before ++ d1 :: d2 :: after)
     = class_rule (before ++ d2 :: d1 :: after))
  /\ (forall template params,
        class_rule [Call (Name (str "type_params"))
                      (map (fun p => Constant (CStr p)) params);
                    Call (Name (str "convert_type")) [Constant template]]
        = if truthy_constant template then Some (template, params) else None)
  /\ (forall decorator_list,
        forallb (fun d => negb (calls "convert_type" d)) decorator_list = true ->
        class_rule decorator_list = None).
Proof.
  split; [|split].
  - intros before d1 d2 after H1 H2. unfold class_rule.
    rewrite !fold_left_app. cbn [fold_left].
    rewrite (scan_decorator_swap _ d1 d2 H1 H2). reflexivity.
  - intros template params. unfold class_rule. cbn [fold_left scan_decorator].
    change (id_is (Name (str "type_params")) "convert_type") with false.
    change (id_is (Name (str "type_params")) "type_params") with true.
    change (id_is (Name (str "convert_type")) "convert_type") with true.
    cbv iota. rewrite string_constants_strings. reflexivity.
  - intros decos H. unfold class_rule.
    pose proof (fold_scan_no_template decos [] H) as E.
    destruct (fold_left scan_decorator decos (None, [])) as [t ps].
    simpl in E. rewrite E. reflexivity.
Qed.

Lemma decorators_of_a_rule_witness :
  class_rule [Call (Name (str "convert_type")) [Constant (CStr (str "{T}*"))];
              Call (Name (str "type_params")) [Constant (CStr (str "T"))]]
  = Some (CStr (str "{T}*"), [str "T"]).
Proof.
  etransitivity.
  - apply (proj1 decorators_of_a_rule []
             (Call (Name (str "convert_type")) [Constant (CStr (str "{T}*"))])
             (Call (Name (str "type_params")) [Constant (CStr (str "T"))]) []
             eq_refl eq_refl).
  - apply (proj1 (proj2 decorators_of_a_rule) (CStr (str "{T}*")) [str "T"]).
Defined.

Lemma class_registered_witness :
  extract_convert_type_mappings typingcy_tree !! str "static_List"
  = Some (CStr (str "{ArrayType}[{Size}]"), [str "ArrayType"; str "Size"]).
Proof.
  apply (class_registered typingcy_tree (str "static_List")
           [Call (Name (str "type_params"))
              [Constant (CStr (str "ArrayType")); Constant (CStr (str "Size"))];
            Call (Name (str "convert_type"))
              [Constant (CStr (str "{ArrayType}[{Size}]"))]]
           [Other []] eq_refl).
Defined.
